(** * SecureApp: a login-gated contact list (app.py)

    A shallow embedding of [app.py] and the properties of its input
    screening, session handling, seed-admin bootstrap and record store.

    Conventions of the embedding.
    - A Python [str] is a Rocq [string]; the text model is ASCII: [isspace]
      and [upper] follow [str.isspace] and [str.upper] on code points below
      128 and leave the other octets alone.
    - A WTForms validator returns an outcome ([Passed], [Raised msg] for
      [ValidationError], [Stopped msg] for [StopValidation]) instead of
      raising; a form is given by the data bound to its fields.
    - A view is a handler: a function from the state it runs in (the
      session of the caller, the two tables, the flag on the application
      object) to a result and the state after, where [abort] ends the
      handler.  The views are composed with the bind of that monad, in the
      order of the statements of the source.
    - The table [first_app] is a finite map from the primary key to the
      row; the table [users] is the list of its rows.  A commit does not
      fail.
    - An exception that no view catches ([ValueError] from bcrypt,
      [OverflowError] from the SQLite driver) ends the handler like
      [abort(500)]: Flask answers it through the handler of status 500.
    - Library code that the application only calls is a parameter: the
      digest inside bcrypt and the e-mail syntax check.  The hash string
      of bcrypt has its layout, the salt string and then the digest, and
      bcrypt refuses what it refuses: the empty password (Flask-Bcrypt), a
      password over 72 bytes (bcrypt 5) and a salt or stored hash that it
      cannot read.  What a request draws at random (the salt of [gensalt],
      the token of Flask-WTF) and the clock are inputs of the request.
    - [CSRFProtect(app)] is the check that runs before every view; a
      request says whether its token validates.  Building a [FlaskForm]
      puts a token in a session that has none.  Templates are known by
      their name only. *)

From Stdlib Require Import ZArith NArith Lia Bool Ascii.
From Stdlib Require DecimalString.
From stdpp Require Import base option list gmap strings sorting.

Local Open Scope Z_scope.

(* ===================================================================== *)
(** * Python string primitives *)
(* ===================================================================== *)

Module Str.

(** [c1 == c2] on characters. *)
Definition ch_eqb (a b : ascii) : bool := Ascii.eqb a b.

(** Code point of a character. *)
Definition ord (c : ascii) : N := N_of_ascii c.

(** [str.isspace] on one ASCII character: TAB, LF, VT, FF, CR, the four
    separators FS GS RS US, and the space. *)
Definition isspace (c : ascii) : bool :=
  let n := ord c in
  ((9 <=? n) && (n <=? 13) || (28 <=? n) && (n <=? 32))%N.

(** [str.upper] on one ASCII character. *)
Definition upper_char (c : ascii) : ascii :=
  let n := ord c in
  if ((97 <=? n) && (n <=? 122))%N then ascii_of_N (n - 32) else c.

(** [s.upper()] *)
Fixpoint upper (s : string) : string :=
  match s with
  | EmptyString => EmptyString
  | String c t => String (upper_char c) (upper t)
  end.

(** [s.lstrip()] *)
Fixpoint lstrip (s : string) : string :=
  match s with
  | EmptyString => EmptyString
  | String c t => if isspace c then lstrip t else s
  end.

(** [s.rstrip()] *)
Fixpoint rstrip (s : string) : string :=
  match s with
  | EmptyString => EmptyString
  | String c t =>
      match rstrip t with
      | EmptyString => if isspace c then EmptyString else String c EmptyString
      | r => String c r
      end
  end.

(** [s.strip()] *)
Definition strip (s : string) : string := rstrip (lstrip s).

(** [len(s)] *)
Definition len (s : string) : nat := String.length s.

(** [s.startswith(p)] *)
Fixpoint startswith (p s : string) : bool :=
  match p, s with
  | EmptyString, _ => true
  | String _ _, EmptyString => false
  | String a p', String b s' => ch_eqb a b && startswith p' s'
  end.

(** [s.endswith(p)]: some tail of [s] is [p]. *)
Fixpoint endswith (p s : string) : bool :=
  String.eqb s p ||
  match s with
  | EmptyString => false
  | String _ t => endswith p t
  end.

(** [p in s]: [p] starts some tail of [s]. *)
Fixpoint contains (p s : string) : bool :=
  startswith p s ||
  match s with
  | EmptyString => false
  | String _ t => contains p t
  end.

(** Every character of [s] satisfies [P]. *)
Fixpoint all_chars (P : ascii -> bool) (s : string) : bool :=
  match s with
  | EmptyString => true
  | String c t => P c && all_chars P t
  end.

(** Truthiness of a [str]. *)
Definition truthy (s : string) : bool := negb (String.eqb s "").

End Str.

(* ===================================================================== *)
(** * WTForms: validators and the validation chain *)
(* ===================================================================== *)

Module Wtf.
Import Str.

(** What calling a validator does: return, raise [ValidationError] or
    raise [StopValidation]. *)
Inductive outcome : Type :=
| Passed
| Raised (message : string)
| Stopped (message : string).

(** [field.data] of a text field: a [str], or [None]. *)
Definition validator : Type := option string -> outcome.

(** [field.data or ""] *)
Definition or_empty (data : option string) : string :=
  match data with
  | Some s => if truthy s then s else ""
  | None => ""
  end.

(** Decimal rendering of a number inside a message or a path. *)
Definition decimal (n : N) : string :=
  DecimalString.NilEmpty.string_of_uint (N.to_uint n).

(** [DataRequired(message)]: the data must be truthy and, for a string,
    non-blank; otherwise the chain stops. *)
Definition DataRequired (message : string) : validator := fun data =>
  match data with
  | Some s => if truthy s && truthy (strip s) then Passed else Stopped message
  | None => Stopped message
  end.

Definition REQUIRED_MESSAGE : string := "This field is required.".

(** [Length(min, max)], [-1] meaning no bound, with the library's
    messages. *)
Definition length_message (min max : Z) : string :=
  if max =? -1 then
    "Field must be at least " +:+ decimal (Z.to_N min) +:+ " characters long."
  else if min =? -1 then
    "Field cannot be longer than " +:+ decimal (Z.to_N max) +:+ " characters."
  else if min =? max then
    "Field must be exactly " +:+ decimal (Z.to_N max) +:+ " characters long."
  else
    "Field must be between " +:+ decimal (Z.to_N min) +:+ " and "
      +:+ decimal (Z.to_N max) +:+ " characters long.".

(** [length = field.data and len(field.data) or 0] *)
Definition Length (min max : Z) : validator := fun data =>
  let length := Z.of_nat (len (or_empty data)) in
  if (min <=? length) && ((max =? -1) || (length <=? max))
  then Passed else Raised (length_message min max).

(** ** Regular expressions

    Both patterns of the application have the shape [^[class]+$]; with
    [re.match], [$] matches at the end of the string and also just before
    a newline that ends it. *)

Definition ascii_letter (c : ascii) : bool :=
  let n := ord c in
  ((65 <=? n) && (n <=? 90) || (97 <=? n) && (n <=? 122))%N.

Definition ascii_digit (c : ascii) : bool :=
  let n := ord c in ((48 <=? n) && (n <=? 57))%N.

(** [[A-Za-z' -]] *)
Definition name_class (c : ascii) : bool :=
  ascii_letter c || ch_eqb c "'" || ch_eqb c " " || ch_eqb c "-".

(** [[A-Za-z0-9_.@-]] *)
Definition username_class (c : ascii) : bool :=
  ascii_letter c || ascii_digit c || ch_eqb c "_" || ch_eqb c "."
  || ch_eqb c "@" || ch_eqb c "-".

(** The rest of a match of [[class]*$]. *)
Fixpoint match_class_star_end (class : ascii -> bool) (s : string) : bool :=
  match s with
  | EmptyString => true
  | String c t =>
      if ch_eqb c "010" && String.eqb t "" then true
      else class c && match_class_star_end class t
  end.

(** [re.match(r"^[class]+$", s)] as a truth value. *)
Definition match_class_plus (class : ascii -> bool) (s : string) : bool :=
  match s with
  | EmptyString => false
  | String c t => class c && match_class_star_end class t
  end.

(** [Regexp(r"^[class]+$", message)] *)
Definition Regexp (class : ascii -> bool) (message : string) : validator :=
  fun data =>
    if match_class_plus class (or_empty data) then Passed else Raised message.

(** [Email(message)] over the syntax check of the e-mail library. *)
Definition Email (validate_email : string -> bool) (message : string)
  : validator := fun data =>
  match data with
  | Some s => if validate_email s then Passed else Raised message
  | None => Raised message
  end.

(** [Field._run_validation_chain]: the messages collected; a
    [StopValidation] ends the chain. *)
Fixpoint run_validation_chain (validators : list validator)
    (data : option string) : list string :=
  match validators with
  | [] => []
  | v :: rest =>
      match v data with
      | Passed => run_validation_chain rest data
      | Raised message => message :: run_validation_chain rest data
      | Stopped message => [message]
      end
  end.

(** [Field.validate]: no error was collected. *)
Definition field_validate (validators : list validator)
    (data : option string) : bool :=
  match run_validation_chain validators data with
  | [] => true
  | _ :: _ => false
  end.

End Wtf.

(* ===================================================================== *)
(** * The input screener and the two forms *)
(* ===================================================================== *)

Module Screener.
Import Str Wtf.

Definition FORBIDDEN_SEQUENCES : list string := ["--"; ";"; "/*"; "*/"].

Definition SQL_KEYWORDS : list string :=
  ["SELECT"; "INSERT"; "UPDATE"; "DELETE"; "DROP"; "ALTER"; "UNION"].

Definition INJECTION_MESSAGE : string :=
  "Input contains characters that look like an injection attempt.".

(** The condition of the [for keyword in SQL_KEYWORDS] loop. *)
Definition keyword_matches (upper_value keyword : string) : bool :=
  String.eqb upper_value keyword
  || startswith (keyword +:+ " ") upper_value
  || endswith (" " +:+ keyword) upper_value
  || contains (" " +:+ keyword +:+ " ") upper_value.

Definition reject_injection : validator := fun data =>
  let value := strip (or_empty data) in
  if existsb (fun seq => contains seq value) FORBIDDEN_SEQUENCES then
    Raised INJECTION_MESSAGE
  else
    let upper_value := upper value in
    if existsb (keyword_matches upper_value) SQL_KEYWORDS then
      Raised INJECTION_MESSAGE
    else Passed.

End Screener.

Module ContactForm.
Import Str Wtf Screener.

(** The data bound to the three text fields. *)
Record t : Type := {
  fname : option string;
  lname : option string;
  email : option string
}.

Definition NAME_MESSAGE : string :=
  "Only letters, spaces, apostrophes, and hyphens allowed.".

Definition fname_validators : list validator :=
  [ DataRequired "First name is required.";
    Length (-1) 100;
    Regexp name_class NAME_MESSAGE;
    reject_injection ].

Definition lname_validators : list validator :=
  [ DataRequired "Last name is required.";
    Length (-1) 100;
    Regexp name_class NAME_MESSAGE;
    reject_injection ].

Definition email_validators (validate_email : string -> bool)
  : list validator :=
  [ DataRequired "Email is required.";
    Email validate_email "Please provide a valid email.";
    Length (-1) 200;
    reject_injection ].

(** [form.validate()]: every field is validated, the form is valid when
    all are. *)
Definition validate (validate_email : string -> bool) (form : t) : bool :=
  let ok_fname := field_validate fname_validators (fname form) in
  let ok_lname := field_validate lname_validators (lname form) in
  let ok_email :=
    field_validate (email_validators validate_email) (email form) in
  ok_fname && ok_lname && ok_email.

(** [form.errors], field after field. *)
Definition errors (validate_email : string -> bool) (form : t)
  : list string :=
  run_validation_chain fname_validators (fname form)
  ++ run_validation_chain lname_validators (lname form)
  ++ run_validation_chain (email_validators validate_email) (email form).

End ContactForm.

Module LoginForm.
Import Str Wtf.

Record t : Type := {
  username : option string;
  password : option string
}.

Definition USERNAME_MESSAGE : string :=
  "Usernames may contain letters, numbers, @, dashes, underscores, and dots.".

Definition username_validators : list validator :=
  [ DataRequired REQUIRED_MESSAGE;
    Length 3 80;
    Regexp username_class USERNAME_MESSAGE ].

Definition password_validators : list validator :=
  [ DataRequired REQUIRED_MESSAGE; Length 8 128 ].

Definition validate (form : t) : bool :=
  let ok_username := field_validate username_validators (username form) in
  let ok_password := field_validate password_validators (password form) in
  ok_username && ok_password.

Definition errors (form : t) : list string :=
  run_validation_chain username_validators (username form)
  ++ run_validation_chain password_validators (password form).

End LoginForm.

(* ===================================================================== *)
(** * Flask-Bcrypt *)
(* ===================================================================== *)

Module Bcrypt.
Import Str Wtf.

(** A bcrypt salt string, as [bcrypt.gensalt()] returns it, has 29
    characters: [$2], the letter of the version, [$], the cost in two
    digits, [$], and the 16 bytes of salt in 22 characters of bcrypt's
    base64, the last of which carries two bits only. *)
Definition SALT_LENGTH : nat := 29.

(** The longest password, in bytes, that bcrypt 5 hashes. *)
Definition PASSWORD_LIMIT : nat := 72.

Definition char_at (n : nat) (s : string) : ascii :=
  default "000"%char (String.get n s).

Definition version_char (c : ascii) : bool :=
  ch_eqb c "a" || ch_eqb c "b" || ch_eqb c "x" || ch_eqb c "y".

Definition salt_char (c : ascii) : bool :=
  ascii_letter c || ascii_digit c || ch_eqb c "." || ch_eqb c "/".

Definition final_salt_char (c : ascii) : bool :=
  ch_eqb c "." || ch_eqb c "O" || ch_eqb c "e" || ch_eqb c "u".

(** The cost that two digits spell; bcrypt takes the costs 4 to 31. *)
Definition cost (d1 d2 : ascii) : N :=
  (10 * (ord d1 - 48) + (ord d2 - 48))%N.

Definition cost_ok (d1 d2 : ascii) : bool :=
  ascii_digit d1 && ascii_digit d2
  && (4 <=? cost d1 d2)%N && (cost d1 d2 <=? 31)%N.

Definition well_formed_salt (salt : string) : bool :=
  Nat.eqb (len salt) SALT_LENGTH
  && startswith "$2" salt
  && version_char (char_at 2 salt)
  && ch_eqb (char_at 3 salt) "$"
  && cost_ok (char_at 4 salt) (char_at 5 salt)
  && ch_eqb (char_at 6 salt) "$"
  && all_chars salt_char (String.substring 7 22 salt)
  && final_salt_char (char_at 28 salt).

(** What [hashpw] can take as its second argument: a salt string, or a
    salt string followed by a digest, in which no further [$] separates
    anything.  bcrypt itself reads a few strings more (a cost of one
    digit, [$] signs that separate nothing); they are refused here. *)
Definition readable (salt : string) : bool :=
  well_formed_salt (String.substring 0 SALT_LENGTH salt)
  && negb (contains "$"
             (String.substring SALT_LENGTH (len salt - SALT_LENGTH) salt)).

Section Hashing.
(** The key-derivation core of bcrypt: from the salt string and the
    password to the encoded digest. *)
Variable eks_digest : string -> string -> string.

(** [bcrypt.hashpw(password, salt)]: only the salt prefix of the second
    argument is used, so that a full hash can be passed back.  [None] is
    the [ValueError] of bcrypt: the salt cannot be read, or the password
    has more than 72 bytes. *)
Definition hashpw (password salt : string) : option string :=
  if readable salt && (len password <=? PASSWORD_LIMIT)%nat then
    let prefix := String.substring 0 SALT_LENGTH salt in
    Some (prefix +:+ eks_digest prefix password)
  else None.

(** [bcrypt.generate_password_hash(password)], with the salt that
    [gensalt] drew.  Flask-Bcrypt raises [ValueError] for a password that
    is empty before it calls bcrypt. *)
Definition generate_password_hash (salt password : string) : option string :=
  if truthy password then hashpw password salt else None.

(** [bcrypt.check_password_hash(pw_hash, password)] *)
Definition check_password_hash (pw_hash password : string) : option bool :=
  h ← hashpw password pw_hash;
  Some (String.eqb h pw_hash).
End Hashing.

End Bcrypt.

(* ===================================================================== *)
(** * What the application takes from outside *)
(* ===================================================================== *)

(** The two library functions the application calls without defining
    them. *)
Class Libraries : Type := {
  (** the key-derivation core of the bcrypt package *)
  eks_digest : string -> string -> string;
  (** the syntax check behind the WTForms [Email] validator *)
  validate_email : string -> bool
}.

(** [os.environ] when the module is loaded. *)
Class Environ : Type := { environ : gmap string string }.

(** What one request draws from the machine: the salt [bcrypt.gensalt()]
    returns, the clock of [datetime.utcnow], and the token that Flask-WTF
    makes for a session without one,
    [hashlib.sha1(os.urandom(64)).hexdigest()]. *)
Record Entropy : Type := { gensalt : string; utcnow : Z; urandom_hex : string }.

(* ===================================================================== *)
(** * The models *)
(* ===================================================================== *)

(** A row of [first_app] without its primary key [sno], which is the key of
    the table. *)
Module FirstApp.
Record t : Type := {
  fname : string;
  lname : string;
  email : string
}.
End FirstApp.

Module User.
Record t : Type := {
  id : Z;
  username : string;
  password_hash : string;
  created_at : Z
}.

Section Methods.
Context `{Libraries}.

(** [User(username=username)]: an object that is not in the table yet.
    It has no key and no time of creation; the database gives it both when
    the row is added. *)
Definition unsaved (username : string) : t :=
  {| id := 0; username := username; password_hash := ""; created_at := 0 |}.

(** [self.password_hash = h] *)
Definition with_password_hash (h : string) (self : t) : t :=
  {| id := id self;
     username := username self;
     password_hash := h;
     created_at := created_at self |}.

(** The two methods raise what bcrypt raises: [None] is its
    [ValueError]. *)
Definition set_password (salt : string) (self : t) (password : string)
  : option t :=
  h ← Bcrypt.generate_password_hash eks_digest salt password;
  Some (with_password_hash h self).

Definition check_password (self : t) (password : string) : option bool :=
  Bcrypt.check_password_hash eks_digest (password_hash self) password.
End Methods.
End User.

(* ===================================================================== *)
(** * The application *)
(* ===================================================================== *)

Module App.
Import Str Wtf Screener.

(** ** Configuration *)

(** [PERMANENT_SESSION_LIFETIME=timedelta(minutes=30)], in seconds. *)
Definition PERMANENT_SESSION_LIFETIME : Z := 30 * 60.

Section Config.
Context `{Environ}.

(** [os.environ.get(key, default)] *)
Definition environ_get (key default : string) : string :=
  match environ !! key with
  | Some v => v
  | None => default
  end.

Definition DEFAULT_ADMIN_USERNAME : string :=
  environ_get "DEFAULT_ADMIN_USERNAME" "i221693@nu.edu.pk".

Definition DEFAULT_ADMIN_PASSWORD : string :=
  environ_get "DEFAULT_ADMIN_PASSWORD" "123456@a".
End Config.

(** ** The state a request runs in *)

(** A value kept in the session. *)
Inductive value : Type :=
| VInt (n : Z)
| VBool (b : bool)
| VStr (s : string)
| VFlashes (messages : list (string * string)).

(** Truthiness of what [session.get] returns. *)
Definition truthy_value (v : option value) : bool :=
  match v with
  | None => false
  | Some (VInt n) => negb (n =? 0)
  | Some (VBool b) => b
  | Some (VStr s) => truthy s
  | Some (VFlashes l) => match l with [] => false | _ :: _ => true end
  end.

Record World : Type := {
  session : gmap string value;
  first_app : gmap N FirstApp.t;
  users : list User.t;
  _admin_seeded : bool
}.

Definition with_session (f : gmap string value -> gmap string value)
    (w : World) : World :=
  {| session := f (session w); first_app := first_app w;
     users := users w; _admin_seeded := _admin_seeded w |}.

Definition with_first_app (f : gmap N FirstApp.t -> gmap N FirstApp.t)
    (w : World) : World :=
  {| session := session w; first_app := f (first_app w);
     users := users w; _admin_seeded := _admin_seeded w |}.

Definition with_users (f : list User.t -> list User.t) (w : World) : World :=
  {| session := session w; first_app := first_app w;
     users := f (users w); _admin_seeded := _admin_seeded w |}.

Definition with_admin_seeded (b : bool) (w : World) : World :=
  {| session := session w; first_app := first_app w;
     users := users w; _admin_seeded := b |}.

(** ** Handlers: state passing with [abort] *)

Inductive result (A : Type) : Type :=
| Return (a : A)
| Abort (status : N).
Arguments Return {A} a.
Arguments Abort {A} status.

Definition Handler (A : Type) : Type := World -> result A * World.

#[global] Instance Handler_ret : MRet Handler :=
  fun A a w => (Return a, w).

#[global] Instance Handler_bind : MBind Handler :=
  fun A B f m w =>
    match m w with
    | (Return a, w') => f a w'
    | (Abort status, w') => (Abort status, w')
    end.

Definition abort {A : Type} (status : N) : Handler A :=
  fun w => (Abort status, w).

(** A call that may raise an exception which no view catches: Flask turns
    the exception into the response of status 500. *)
Definition INTERNAL_SERVER_ERROR : N := 500.

Definition raising {A : Type} (call : option A) : Handler A :=
  match call with
  | Some a => mret a
  | None => abort INTERNAL_SERVER_ERROR
  end.

(** [session.get(key)] *)
Definition session_get (key : string) : Handler (option value) :=
  fun w => (Return (session w !! key), w).

(** [session[key] = v] *)
Definition session_set (key : string) (v : value) : Handler unit :=
  fun w => (Return tt, with_session (insert key v) w).

(** [session.clear()] *)
Definition session_clear : Handler unit :=
  fun w => (Return tt, with_session (fun _ => ∅) w).

(** [session.permanent = b] keeps the flag under the key [_permanent]. *)
Definition session_set_permanent (b : bool) : Handler unit :=
  session_set "_permanent" (VBool b).

(** [generate_csrf()] of Flask-WTF, which building a [FlaskForm] calls for
    its [csrf_token] field: a session without a token gets a new one. *)
Definition csrf_session (e : Entropy) (s : gmap string value)
  : gmap string value :=
  match s !! "csrf_token" with
  | Some _ => s
  | None => <["csrf_token" := VStr (urandom_hex e)]> s
  end.

Definition generate_csrf (e : Entropy) : Handler unit :=
  fun w => (Return tt, with_session (csrf_session e) w).

(** [flash(message, category)] appends to the list under [_flashes]. *)
Definition flashes_of (s : gmap string value) : list (string * string) :=
  match s !! "_flashes" with
  | Some (VFlashes l) => l
  | _ => []
  end.

Definition flashed (message category : string) (s : gmap string value)
  : gmap string value :=
  <["_flashes" := VFlashes (flashes_of s ++ [(category, message)])]> s.

Definition flash (message category : string) : Handler unit :=
  fun w => (Return tt, with_session (flashed message category) w).

(** When the session cookie expires: a permanent session lives
    [PERMANENT_SESSION_LIFETIME] from the response that refreshes it. *)
Definition get_expiration_time (now : Z) (s : gmap string value) : option Z :=
  match s !! "_permanent" with
  | Some (VBool true) => Some (now + PERMANENT_SESSION_LIFETIME)
  | _ => None
  end.

(** ** Requests and responses *)

Inductive Method : Type := GET | POST.

Definition is_post (m : Method) : bool :=
  match m with POST => true | GET => false end.

(** The URL map: one constructor per rule, with the methods the rule
    allows and the form bound from the request. *)
Inductive Route : Type :=
| Login (method : Method) (form : LoginForm.t)
| Logout
| Index (method : Method) (form : ContactForm.t)
| Delete (sno : N)
| Update (method : Method) (sno : N) (form : ContactForm.t).

Record Request : Type := {
  route : Route;
  (** [request.args] *)
  args : gmap string string;
  (** whether the anti-forgery token sent with the request validates *)
  csrf_valid : bool
}.

Definition request_method (r : Route) : Method :=
  match r with
  | Login m _ | Index m _ | Update m _ _ => m
  | Logout => GET
  | Delete _ => POST
  end.

(** [request.path] *)
Definition request_path (r : Route) : string :=
  match r with
  | Login _ _ => "/login"
  | Logout => "/logout"
  | Index _ _ => "/"
  | Delete sno => "/delete/" +:+ decimal sno
  | Update _ sno _ => "/update/" +:+ decimal sno
  end.

(** Where a redirect goes: a URL built by [url_for] from an endpoint and
    its values, or a target given as a string. *)
Inductive Location : Type :=
| UrlFor (endpoint : string) (values : list (string * string))
| Target (url : string).

Inductive Response : Type :=
| Redirect (location : Location)
| Rendered (status : N) (template : string) (form_errors : list string)
    (students : list (N * FirstApp.t))
| ErrorResponse (status : N).

(** [form.validate_on_submit()] *)
Definition validate_on_submit (m : Method) (valid : bool) : bool :=
  is_post m && valid.

(** The data of a field that has passed [DataRequired]. *)
Definition data (d : option string) : string := default "" d.

(** ** The decorator *)

Definition login_required (path : string) (view_func : Handler Response)
  : Handler Response :=
  user_id ← session_get "user_id";
  if negb (truthy_value user_id) then
    flash "Please log in to continue." "warning";;
    mret (Redirect (UrlFor "login" [("next", path)]))
  else view_func.

(** ** The database session *)

(** The key SQLite gives a new row: one more than the largest in use. *)
Definition max_key (m : gmap N FirstApp.t) : N :=
  map_fold (fun k _ acc => N.max k acc) 0%N m.

Definition next_sno (m : gmap N FirstApp.t) : N := (max_key m + 1)%N.

Definition next_id (l : list User.t) : Z :=
  foldr (fun u acc => Z.max (User.id u) acc) 0 l + 1.

(** The largest integer SQLite stores, and so the largest key a row can
    have. *)
Definition SQLITE_MAX_INTEGER : N := 2 ^ 63 - 1.

(** [FirstApp.query.get_or_404(sno)]: the row of the key, [abort(404)]
    when no row has it.  The converter of the rule lets every natural
    number through; for one that SQLite cannot store, and that no row can
    have, the driver raises [OverflowError] instead of running the
    query. *)
Definition get_or_404 (sno : N) : Handler FirstApp.t :=
  fun w =>
    match first_app w !! sno with
    | Some rec => (Return rec, w)
    | None =>
        if (sno <=? SQLITE_MAX_INTEGER)%N then (Abort 404%N, w)
        else (Abort INTERNAL_SERVER_ERROR, w)
    end.

(** [db.session.add(new_record); db.session.commit()] *)
Definition db_add (new_record : FirstApp.t) : Handler unit :=
  fun w =>
    (Return tt,
     with_first_app (fun m => <[next_sno m := new_record]> m) w).

(** Assignments to the columns of the row [sno], then
    [db.session.commit()]. *)
Definition db_store (sno : N) (rec : FirstApp.t) : Handler unit :=
  fun w => (Return tt, with_first_app (insert sno rec) w).

(** [db.session.delete(rec); db.session.commit()] for the row [sno]. *)
Definition db_delete (sno : N) : Handler unit :=
  fun w => (Return tt, with_first_app (base.delete sno) w).

(** [FirstApp.query.order_by(FirstApp.sno.asc()).all()] *)
Definition key_le (a b : N * FirstApp.t) : Prop := (a.1 <= b.1)%N.

#[global] Instance key_le_dec : RelDecision key_le.
Proof. intros a b. unfold key_le. apply _. Defined.

Definition query_all : Handler (list (N * FirstApp.t)) :=
  fun w => (Return (merge_sort key_le (map_to_list (first_app w))), w).

(** [User.query.filter_by(username=name).first()] *)
Definition first_by_username (name : string) (l : list User.t)
  : option User.t :=
  List.find (fun u => String.eqb (User.username u) name) l.

Definition query_user (name : string) : Handler (option User.t) :=
  fun w => (Return (first_by_username name (users w)), w).

(** The row of [user] written back at commit. *)
Definition store_user (user : User.t) (l : list User.t) : list User.t :=
  List.map (fun u => if User.id u =? User.id user then user else u) l.

(** A changed [user], then [db.session.commit()]. *)
Definition db_store_user (user : User.t) : Handler unit :=
  fun w => (Return tt, with_users (store_user user) w).

(** The row of a new user: the database assigns the key, and
    [created_at] takes its default, the clock at the insertion. *)
Definition inserted_user (new_id now : Z) (new_user : User.t) : User.t :=
  {| User.id := new_id;
     User.username := User.username new_user;
     User.password_hash := User.password_hash new_user;
     User.created_at := now |}.

(** [db.session.add(user); db.session.commit()] for a new user. *)
Definition db_add_user (now : Z) (new_user : User.t) : Handler unit :=
  fun w =>
    (Return tt,
     with_users (fun l => l ++ [inserted_user (next_id l) now new_user]) w).

(** [getattr(app, "_admin_seeded", False)] and [app._admin_seeded = b] *)
Definition get_admin_seeded : Handler bool :=
  fun w => (Return (_admin_seeded w), w).

Definition set_admin_seeded (b : bool) : Handler unit :=
  fun w => (Return tt, with_admin_seeded b w).

Section Views.
Context `{Libraries} `{Environ}.

(** ** The seed administrator *)

Definition ensure_seed_admin (e : Entropy) : Handler unit :=
  user ← query_user DEFAULT_ADMIN_USERNAME;
  match user with
  | Some u =>
      verified ← raising (User.check_password u DEFAULT_ADMIN_PASSWORD);
      if (verified : bool) then mret tt
      else
        changed ← raising
          (User.set_password (gensalt e) u DEFAULT_ADMIN_PASSWORD);
        db_store_user changed
  | None =>
      new_user ← raising
        (User.set_password (gensalt e) (User.unsaved DEFAULT_ADMIN_USERNAME)
           DEFAULT_ADMIN_PASSWORD);
      db_add_user (utcnow e) new_user
  end.

Definition bootstrap_seed_admin (e : Entropy) : Handler unit :=
  seeded ← get_admin_seeded;
  if (seeded : bool) then mret tt
  else
    ensure_seed_admin e;;
    set_admin_seeded true.

(** ** The views *)

Definition login (e : Entropy) (method : Method) (args : gmap string string)
    (form : LoginForm.t) : Handler Response :=
  let render :=
    Rendered 200 "login.html"
      (if is_post method then LoginForm.errors form else []) [] in
  generate_csrf e;;
  if validate_on_submit method (LoginForm.validate form) then
    user ← query_user (strip (data (LoginForm.username form)));
    match user with
    | Some u =>
        verified ← raising
          (User.check_password u (data (LoginForm.password form)));
        if (verified : bool) then
          session_clear;;
          session_set "user_id" (VInt (User.id u));;
          session_set_permanent true;;
          flash "Successfully logged in." "success";;
          let next_location := args !! "next" in
          mret (Redirect
                  (match next_location with
                   | Some target =>
                       if truthy target then Target target
                       else UrlFor "index" []
                   | None => UrlFor "index" []
                   end))
        else
          flash "Invalid username or password." "danger";;
          mret render
    | None =>
        flash "Invalid username or password." "danger";;
        mret render
    end
  else
    (if is_post method
     then flash "Please correct the highlighted errors." "danger"
     else mret tt);;
    mret render.

Definition logout : Handler Response :=
  session_clear;;
  flash "You have been logged out." "info";;
  mret (Redirect (UrlFor "login" [])).

Definition index (e : Entropy) (method : Method) (form : ContactForm.t)
  : Handler Response :=
  generate_csrf e;;
  if validate_on_submit method (ContactForm.validate validate_email form)
  then
    let new_record :=
      {| FirstApp.fname := strip (data (ContactForm.fname form));
         FirstApp.lname := strip (data (ContactForm.lname form));
         FirstApp.email := strip (data (ContactForm.email form)) |} in
    db_add new_record;;
    flash "Record added successfully." "success";;
    mret (Redirect (UrlFor "index" []))
  else
    (if is_post method
     then flash "Please correct the highlighted errors." "danger"
     else mret tt);;
    students ← query_all;
    mret (Rendered 200 "index.html"
            (if is_post method
             then ContactForm.errors validate_email form else [])
            students).

Definition delete (sno : N) : Handler Response :=
  rec ← get_or_404 sno;
  db_delete sno;;
  flash "Record deleted." "info";;
  mret (Redirect (UrlFor "index" [])).

Definition update (e : Entropy) (method : Method) (sno : N)
    (form : ContactForm.t) : Handler Response :=
  rec ← get_or_404 sno;
  generate_csrf e;;
  if validate_on_submit method (ContactForm.validate validate_email form)
  then
    db_store sno
      {| FirstApp.fname := strip (data (ContactForm.fname form));
         FirstApp.lname := strip (data (ContactForm.lname form));
         FirstApp.email := strip (data (ContactForm.email form)) |};;
    flash "Record updated successfully." "success";;
    mret (Redirect (UrlFor "index" []))
  else
    (if is_post method
     then flash "Please correct the highlighted errors." "danger"
     else mret tt);;
    mret (Rendered 200 "update.html"
            (if is_post method
             then ContactForm.errors validate_email form else [])
            [(sno, rec)]).

(** ** Dispatch *)

(** The view function of each rule, decorated as in the source. *)
Definition dispatch_request (e : Entropy) (req : Request)
  : Handler Response :=
  let path := request_path (route req) in
  match route req with
  | Login method form => login e method (args req) form
  | Logout => login_required path logout
  | Index method form => login_required path (index e method form)
  | Delete sno => login_required path (delete sno)
  | Update method sno form => login_required path (update e method sno form)
  end.

(** [CSRFProtect(app)]: a submission whose token does not validate is
    refused with status 400 before anything else runs. *)
Definition csrf_protect (req : Request) : Handler unit :=
  if is_post (request_method (route req)) && negb (csrf_valid req)
  then abort 400%N else mret tt.

(** [handle_not_found], [handle_server_error] (whose rollback finds
    nothing to undo, every write being committed where it is made) and the
    default page of the other statuses. *)
Definition handle_error (status : N) : Response :=
  if (status =? 404)%N then Rendered 404 "404.html" [] []
  else if (status =? INTERNAL_SERVER_ERROR)%N
       then Rendered 500 "500.html" [] []
       else ErrorResponse status.

(** One request from the first [before_request] function to the
    response. *)
Definition full_dispatch_request (e : Entropy) (req : Request) (w : World)
  : Response * World :=
  match
    (csrf_protect req;; bootstrap_seed_admin e;; dispatch_request e req) w
  with
  | (Return response, w') => (response, w')
  | (Abort status, w') => (handle_error status, w')
  end.

End Views.

(** The database after [db.create_all()] on a new file, before any
    request. *)
Definition initial_world : World :=
  {| session := ∅; first_app := ∅; users := []; _admin_seeded := false |}.

End App.

(* ===================================================================== *)
(** * What the views are expected to leave behind *)
(* ===================================================================== *)

Module Outcome.
Import Str App.

(** The session of a caller who has just logged in: the user's key, the
    permanent flag and the notice, and nothing else. *)
Definition login_session (user_id : Z) : gmap string value :=
  <["_flashes" := VFlashes [("success", "Successfully logged in.")]]>
    (<["_permanent" := VBool true]> (<["user_id" := VInt user_id]> ∅)).

(** Where a successful login redirects: the return target when the
    request has one, the index otherwise. *)
Definition login_target (args : gmap string string) : Location :=
  match args !! "next" with
  | Some target => if truthy target then Target target else UrlFor "index" []
  | None => UrlFor "index" []
  end.

(** The row a valid contact form is stored as. *)
Definition stripped (form : ContactForm.t) : FirstApp.t :=
  {| FirstApp.fname := strip (data (ContactForm.fname form));
     FirstApp.lname := strip (data (ContactForm.lname form));
     FirstApp.email := strip (data (ContactForm.email form)) |}.

(** The users table that the seed routine leaves when it returns;
    [None] when it raises. *)
Definition seeded_users `{Libraries} `{Environ} (e : Entropy)
    (l : list User.t) : option (list User.t) :=
  match first_by_username DEFAULT_ADMIN_USERNAME l with
  | Some u =>
      verified ← User.check_password u DEFAULT_ADMIN_PASSWORD;
      if (verified : bool) then Some l
      else
        changed ← User.set_password (gensalt e) u DEFAULT_ADMIN_PASSWORD;
        Some (store_user changed l)
  | None =>
      new_user ← User.set_password (gensalt e)
                   (User.unsaved DEFAULT_ADMIN_USERNAME)
                   DEFAULT_ADMIN_PASSWORD;
      Some (l ++ [inserted_user (next_id l) (utcnow e) new_user])
  end.

(** A password that bcrypt hashes: not empty and of at most 72 bytes. *)
Definition hashable (password : string) : Prop :=
  password <> "" /\ (len password <= Bcrypt.PASSWORD_LIMIT)%nat.

(** The digest that bcrypt appends to the salt is text of its base64: no
    [$] is in it. *)
Definition digest_encoded `{Libraries} : Prop :=
  forall salt password, contains "$" (eks_digest salt password) = false.

(** The account with the administrator's name, when the table has one,
    holds a hash that bcrypt can read. *)
Definition admin_hash_readable `{Environ} (l : list User.t) : Prop :=
  forall u,
    first_by_username DEFAULT_ADMIN_USERNAME l = Some u ->
    Bcrypt.readable (User.password_hash u) = true.

(** The request gets past [bootstrap_seed_admin]: the flag is set, or the
    seed routine returns. *)
Definition seed_passes `{Libraries} `{Environ} (e : Entropy) (w : World)
  : Prop :=
  (bootstrap_seed_admin e w).1 = Return tt.

(** How many accounts have the given name. *)
Definition accounts_named (name : string) (l : list User.t) : nat :=
  length (List.filter (fun u => String.eqb (User.username u) name) l).

(** The constraints of the users table: the primary key and the unique
    user name. *)
Definition users_table_ok (l : list User.t) : Prop :=
  NoDup (List.map User.id l) /\ NoDup (List.map User.username l).

(** A stored row passes the validators of the three fields. *)
Definition record_screened `{Libraries} (rec : FirstApp.t) : Prop :=
  Wtf.field_validate ContactForm.fname_validators (Some (FirstApp.fname rec))
  = true
  /\ Wtf.field_validate ContactForm.lname_validators
       (Some (FirstApp.lname rec)) = true
  /\ Wtf.field_validate (ContactForm.email_validators validate_email)
       (Some (FirstApp.email rec)) = true.

Definition store_screened `{Libraries} (w : World) : Prop :=
  map_Forall (fun _ rec => record_screened rec) (first_app w).

(** The states that the application can be in, from the empty database:
    the process starts or starts again (the [__main__] block seeds the
    administrator and the flag on the application object is new), and each
    request comes with the session of its caller. *)
Inductive reachable `{Libraries} `{Environ} : World -> Prop :=
| reachable_initial : reachable initial_world
| reachable_start (e : Entropy) (w : World) :
    reachable w ->
    reachable (ensure_seed_admin e (with_admin_seeded false w)).2
| reachable_request (e : Entropy) (req : Request) (s : gmap string value)
    (w : World) :
    reachable w ->
    reachable (full_dispatch_request e req (with_session (fun _ => s) w)).2.

(** The redirect of the guard. *)
Definition to_login (path : string) : Response :=
  Redirect (UrlFor "login" [("next", path)]).

End Outcome.

(* ===================================================================== *)
(** * Notions used to state what the views keep *)
(* ===================================================================== *)

Module Notions.
Import Str Wtf App.

(** A character that is not white space. *)
Definition printing (c : ascii) : bool := negb (isspace c).

(** A character that is not a letter. *)
Definition caseless (c : ascii) : bool := negb (ascii_letter c).

(** The rows as the index page lists them. *)
Definition listing (w : World) : list (N * FirstApp.t) :=
  merge_sort key_le (map_to_list (first_app w)).

(** The data of [ContactForm(obj=rec)] when the request brings the values
    of the row back. *)
Definition form_of (rec : FirstApp.t) : ContactForm.t :=
  {| ContactForm.fname := Some (FirstApp.fname rec);
     ContactForm.lname := Some (FirstApp.lname rec);
     ContactForm.email := Some (FirstApp.email rec) |}.

(** A stored value: trimmed, not empty, within the length of its column,
    and let through by the denylist. *)
Definition stored_value (limit : nat) (v : string) : Prop :=
  strip v = v /\ v <> "" /\ (len v <= limit)%nat
  /\ Screener.reject_injection (Some v) = Passed.

Definition stored_row (rec : FirstApp.t) : Prop :=
  stored_value 100 (FirstApp.fname rec)
  /\ stored_value 100 (FirstApp.lname rec)
  /\ stored_value 200 (FirstApp.email rec).

(** Data that [DataRequired] refuses: nothing, or only white space. *)
Definition blank (d : option string) : bool :=
  match d with
  | Some s => String.eqb (strip s) ""
  | None => true
  end.

End Notions.

(* ===================================================================== *)
(** * Stand-ins to run the model *)
(* ===================================================================== *)

Module Sample.
Import Str App.

(** A stand-in for the two libraries: the digest is a toy one, the e-mail
    check wants an [@] and no white space. *)
Fixpoint toy_text (s : string) : string :=
  match s with
  | EmptyString => EmptyString
  | String c t => String (if ch_eqb c "$" then "."%char else c) (toy_text t)
  end.

Definition toy_digest (salt password : string) : string :=
  toy_text (String.rev (password +:+ salt)).

Definition toy_email (s : string) : bool :=
  contains "@" s && all_chars (fun c => negb (isspace c)) s.

Definition libraries : Libraries :=
  {| eks_digest := toy_digest; validate_email := toy_email |}.

(** No variable is set: the defaults of the source apply. *)
Definition no_environ : Environ := {| environ := ∅ |}.

Definition salt1 : string := "$2b$12$abcdefghijklmnopqrstuu".
Definition salt2 : string := "$2b$12$ABCDEFGHIJKLMNOPQRSTUO".

Definition entropy1 : Entropy :=
  {| gensalt := salt1; utcnow := 1000;
     urandom_hex := "6b0d31c0d563223024da45691584643ac78c96e8" |}.
Definition entropy2 : Entropy :=
  {| gensalt := salt2; utcnow := 2000;
     urandom_hex := "a9993e364706816aba3e25717850c26c9cd0d89d" |}.

(** The database once the seed routine has run on the empty one. *)
Definition seeded_world : World :=
  (App.ensure_seed_admin (H := libraries) (H0 := no_environ) entropy1
     App.initial_world).2.

Definition admin_login : LoginForm.t :=
  {| LoginForm.username := Some "i221693@nu.edu.pk";
     LoginForm.password := Some "123456@a" |}.

Definition jane : ContactForm.t :=
  {| ContactForm.fname := Some "Jane";
     ContactForm.lname := Some "Doe";
     ContactForm.email := Some "jane@example.com" |}.

(** A form whose last name trips the denylist. *)
Definition jane_drop : ContactForm.t :=
  {| ContactForm.fname := Some "Jane";
     ContactForm.lname := Some "Drop Table";
     ContactForm.email := Some "jane@example.com" |}.



(** An environment whose administrator password is too short for the
    login form. *)
Definition short_environ : Environ :=
  {| environ := {["DEFAULT_ADMIN_PASSWORD" := "short"]} |}.

Definition short_world : World :=
  (App.ensure_seed_admin (H := libraries) (H0 := short_environ) entropy1
     App.initial_world).2.

Definition short_login : LoginForm.t :=
  {| LoginForm.username := Some "i221693@nu.edu.pk";
     LoginForm.password := Some "short" |}.

Definition john : ContactForm.t :=
  {| ContactForm.fname := Some " John ";
     ContactForm.lname := Some "O'Brien-Smith";
     ContactForm.email := Some "john@example.com" |}.

(** The database after two records were created. *)
Definition listed_world : World :=
  (App.index (H := libraries) entropy2 POST john
     (App.index (H := libraries) entropy1 POST jane seeded_world).2).2.

(** A session that holds something from before the login. *)
Definition stale_session : gmap string value :=
  {["csrf_token" := VStr "t0"; "user_id" := VInt 7]}.

End Sample.

(* ===================================================================== *)
(** * More stand-ins: a caller who is logged in, a second account *)
(* ===================================================================== *)

Module Scenario.
Import Str App.

(** The session of a caller logged in as the user 1, who has been given a
    form since. *)
Definition caller : gmap string value :=
  {["user_id" := VInt 1; "_permanent" := VBool true;
    "csrf_token" := VStr "2fd4e1c67a2d28fced849ee1bb76e7391b93eb12"]}.

(** The session right after the login of the user 1. *)
Definition newcomer : gmap string value :=
  {["user_id" := VInt 1; "_permanent" := VBool true]}.

(** The sample table of records, seen by that caller, in a process that
    has run the seed routine. *)
Definition office_world : World :=
  with_admin_seeded true (with_session (fun _ => caller) Sample.listed_world).

Definition bob : User.t :=
  {| User.id := 2; User.username := "bob";
     User.password_hash := "not-a-hash"; User.created_at := 5 |}.

(** A users table where the administrator's column holds something that
    is not a bcrypt hash, and a second account exists. *)
Definition crowded_world : World :=
  with_users
    (fun _ =>
       [ {| User.id := 1; User.username := "i221693@nu.edu.pk";
            User.password_hash := "stale"; User.created_at := 1 |};
         bob ])
    initial_world.

(** A users table where the administrator has the hash of an earlier
    password, and a second account exists. *)
Definition old_hash : string :=
  default ""
    (Bcrypt.generate_password_hash Sample.toy_digest Sample.salt2
       "oldpass12").

Definition expired_world : World :=
  with_users
    (fun _ =>
       [ {| User.id := 1; User.username := "i221693@nu.edu.pk";
            User.password_hash := old_hash; User.created_at := 1 |};
         bob ])
    initial_world.


(** A password of 73 characters, which the login form lets through. *)
Definition long_password : string :=
  "abcdefghijklmnopqrstuvwxyzabcdefghijklmnopqrstuvwxyzabcdefghijklmnopqrstu".

Definition long_login : LoginForm.t :=
  {| LoginForm.username := Some "i221693@nu.edu.pk";
     LoginForm.password := Some long_password |}.

Definition long_nobody_login : LoginForm.t :=
  {| LoginForm.username := Some "nobody";
     LoginForm.password := Some long_password |}.

Definition wrong_login : LoginForm.t :=
  {| LoginForm.username := Some "i221693@nu.edu.pk";
     LoginForm.password := Some "wrongpass1" |}.

Definition nobody_login : LoginForm.t :=
  {| LoginForm.username := Some "nobody";
     LoginForm.password := Some "wrongpass1" |}.

(** The first request of a process: a caller creates a record. *)
Definition first_request : Request :=
  {| route := Index POST Sample.john; args := ∅; csrf_valid := true |}.

Definition after_first_request : World :=
  (full_dispatch_request (H := Sample.libraries) (H0 := Sample.no_environ)
     Sample.entropy1 first_request
     (with_session (fun _ => caller) initial_world)).2.

End Scenario.

(* ===================================================================== *)
(** * The specification's wording of the screening rules *)
(* ===================================================================== *)

Module Spec.
Import Str.

(** "contains any of the literal substrings [--], [;], [/*], [*/]
    anywhere" *)
Definition has_literal (value : string) : Prop :=
  exists seq a b,
    seq ∈ ["--"; ";"; "/*"; "*/"] /\ value = a +:+ seq +:+ b.

(** "exactly equals, starts with, ends with, or contains (surrounded by
    single spaces)" one keyword *)
Definition keyword_at_boundary (upper_value keyword : string) : Prop :=
  upper_value = keyword
  \/ (exists b, upper_value = keyword +:+ " " +:+ b)
  \/ (exists a, upper_value = a +:+ " " +:+ keyword)
  \/ (exists a b, upper_value = a +:+ " " +:+ keyword +:+ " " +:+ b).

Definition has_keyword (upper_value : string) : Prop :=
  exists keyword,
    keyword ∈ ["SELECT"; "INSERT"; "UPDATE"; "DELETE"; "DROP"; "ALTER"; "UNION"]
    /\ keyword_at_boundary upper_value keyword.

(** The denylist rule on a submitted value. *)
Definition screen_rejects (input : string) : Prop :=
  let value := strip input in
  has_literal value \/ has_keyword (upper value).

(** An occurrence of the keyword as a token: it begins at the start of
    the value or after a space, and stops at the end of the value or
    before a space. *)
Definition token_occurrence (upper_value keyword : string) : Prop :=
  exists a b,
    upper_value = a +:+ keyword +:+ b
    /\ (a = "" \/ exists a', a = a' +:+ " ")
    /\ (b = "" \/ exists b', b = " " +:+ b').

(** An occurrence of the keyword with a character other than the space
    right before it or right after it. *)
Definition glued_occurrence (a b : string) : Prop :=
  (exists a' c, a = a' +:+ String c "" /\ c <> " "%char)
  \/ (exists c b', b = String c b' /\ c <> " "%char).

(** "contains a denylist keyword only immediately adjacent to non-space
    characters": the value contains a keyword, and each occurrence of a
    keyword touches a character that is not a space. *)
Definition keywords_only_glued (upper_value : string) : Prop :=
  (exists keyword a b,
      keyword ∈ ["SELECT"; "INSERT"; "UPDATE"; "DELETE"; "DROP"; "ALTER"; "UNION"]
      /\ upper_value = a +:+ keyword +:+ b)
  /\ forall keyword a b,
      keyword ∈ ["SELECT"; "INSERT"; "UPDATE"; "DELETE"; "DROP"; "ALTER"; "UNION"] ->
      upper_value = a +:+ keyword +:+ b ->
      glued_occurrence a b.

(** The same condition as a scan of the value: [prev] is the character
    before [s], if there is one. *)
Definition not_space (c : option ascii) : bool :=
  match c with
  | Some c => negb (ch_eqb c " ")
  | None => false
  end.

Definition head (s : string) : option ascii :=
  match s with
  | EmptyString => None
  | String c _ => Some c
  end.

Fixpoint skip (n : nat) (s : string) : string :=
  match n, s with
  | O, _ => s
  | S _, EmptyString => EmptyString
  | S n', String _ t => skip n' t
  end.

Fixpoint occurrences_glued (keyword : string) (prev : option ascii)
    (s : string) : bool :=
  (if startswith keyword s
   then not_space prev || not_space (head (skip (len keyword) s))
   else true)
  && match s with
     | EmptyString => true
     | String c t => occurrences_glued keyword (Some c) t
     end.

Definition keywords_only_glued_scan (upper_value : string) : bool :=
  existsb (fun keyword => contains keyword upper_value)
    ["SELECT"; "INSERT"; "UPDATE"; "DELETE"; "DROP"; "ALTER"; "UNION"]
  && forallb (fun keyword => occurrences_glued keyword None upper_value)
       ["SELECT"; "INSERT"; "UPDATE"; "DELETE"; "DROP"; "ALTER"; "UNION"].

End Spec.

(* ===================================================================== *)
(** * Facts about the string primitives *)
(* ===================================================================== *)

Module StrFacts.
Import Str.

Lemma app_nil_l (s : string) : "" +:+ s = s.
Proof. reflexivity. Qed.

Lemma app_cons (c : ascii) (s t : string) :
  String c s +:+ t = String c (s +:+ t).
Proof. reflexivity. Qed.

Lemma app_nil_r (s : string) : s +:+ "" = s.
Proof. induction s as [|c s IH]; [done|]. by rewrite app_cons, IH. Qed.

Lemma app_assoc (a b c : string) : (a +:+ b) +:+ c = a +:+ b +:+ c.
Proof.
  induction a as [|x a IH]; [done|]. by rewrite !app_cons, IH.
Qed.

Lemma app_length (a b : string) : len (a +:+ b) = (len a + len b)%nat.
Proof.
  induction a as [|x a IH]; [done|]. rewrite app_cons. simpl. by rewrite IH.
Qed.

Lemma app_eq_nil (a b : string) : a +:+ b = "" -> a = "" /\ b = "".
Proof. destruct a; [done|]. rewrite app_cons. discriminate. Qed.

Lemma ch_eqb_eq (a b : ascii) : ch_eqb a b = true <-> a = b.
Proof. apply Ascii.eqb_eq. Qed.

Lemma ch_eqb_refl (a : ascii) : ch_eqb a a = true.
Proof. apply Ascii.eqb_refl. Qed.

(** ** startswith, endswith, contains against concatenation *)

Lemma startswith_iff (p s : string) :
  startswith p s = true <-> exists b, s = p +:+ b.
Proof.
  revert s. induction p as [|a p IH]; intros s.
  - split; [intros _; by exists s | by destruct s].
  - destruct s as [|b s]; simpl.
    + split; [done | intros [x Hx]; rewrite app_cons in Hx; discriminate].
    + rewrite andb_true_iff, ch_eqb_eq, IH. split.
      * intros [-> [x ->]]. by exists x.
      * intros [x Hx]. rewrite app_cons in Hx. injection Hx as -> ->. eauto.
Qed.

Lemma endswith_nil (p : string) : endswith p "" = String.eqb "" p.
Proof. simpl. apply orb_false_r. Qed.

Lemma endswith_cons (p : string) (c : ascii) (t : string) :
  endswith p (String c t) = String.eqb (String c t) p || endswith p t.
Proof. reflexivity. Qed.

Lemma contains_nil (p : string) : contains p "" = startswith p "".
Proof. simpl. apply orb_false_r. Qed.

Lemma contains_cons (p : string) (c : ascii) (t : string) :
  contains p (String c t) = startswith p (String c t) || contains p t.
Proof. reflexivity. Qed.

Lemma endswith_iff (p s : string) :
  endswith p s = true <-> exists a, s = a +:+ p.
Proof.
  induction s as [|c s IH].
  - rewrite endswith_nil, String.eqb_eq. split.
    + intros <-. by exists "".
    + intros [a Ha]. symmetry in Ha. by apply app_eq_nil in Ha as [_ ->].
  - rewrite endswith_cons, orb_true_iff, String.eqb_eq, IH. split.
    + intros [<- | [a ->]]; [by exists "" | by exists (String c a)].
    + intros [[|x a] Ha].
      * left. by rewrite app_nil_l in Ha.
      * right. rewrite app_cons in Ha. injection Ha as -> ->. by exists a.
Qed.

Lemma contains_iff (p s : string) :
  contains p s = true <-> exists a b, s = a +:+ p +:+ b.
Proof.
  induction s as [|c s IH].
  - rewrite contains_nil, startswith_iff. split.
    + intros [b Hb]. by exists "", b.
    + intros [a [b Hab]]. symmetry in Hab.
      apply app_eq_nil in Hab as [-> Hpb]. by exists b.
  - rewrite contains_cons, orb_true_iff, startswith_iff, IH. split.
    + intros [[b Hb] | [a [b ->]]]; [by exists "", b | by exists (String c a), b].
    + intros [[|x a] [b Hab]].
      * left. by exists b.
      * right. rewrite app_cons in Hab. injection Hab as -> ->. by exists a, b.
Qed.

End StrFacts.

(* ===================================================================== *)
(** * The input screener *)
(* ===================================================================== *)

Module ScreenerFacts.
Import Str Wtf Screener StrFacts.

Lemma keyword_matches_iff (u kw : string) :
  keyword_matches u kw = true <-> Spec.keyword_at_boundary u kw.
Proof.
  unfold keyword_matches, Spec.keyword_at_boundary.
  rewrite !orb_true_iff, String.eqb_eq, startswith_iff, endswith_iff,
    contains_iff.
  split.
  - intros [[[Heq | [b Hb]] | [a Ha]] | [a [b Hab]]].
    + by left.
    + right; left. exists b. by rewrite Hb, app_assoc.
    + right; right; left. by exists a.
    + right; right; right. exists a, b. by rewrite Hab, !app_assoc.
  - intros [Heq | [[b Hb] | [[a Ha] | [a [b Hab]]]]].
    + by left; left; left.
    + left; left; right. exists b. by rewrite Hb, app_assoc.
    + left; right. by exists a.
    + right. exists a, b. by rewrite Hab, !app_assoc.
Qed.

Lemma forbidden_iff (value : string) :
  existsb (fun seq => contains seq value) FORBIDDEN_SEQUENCES = true
  <-> Spec.has_literal value.
Proof.
  rewrite existsb_exists. unfold Spec.has_literal. split.
  - intros [seq [Hin Hc]]. apply contains_iff in Hc as [a [b Hab]].
    exists seq, a, b. split; [by apply list_elem_of_In | done].
  - intros [seq [a [b [Hin Hab]]]]. exists seq. split.
    + by apply list_elem_of_In.
    + apply contains_iff. eauto.
Qed.

Lemma keywords_iff (u : string) :
  existsb (keyword_matches u) SQL_KEYWORDS = true <-> Spec.has_keyword u.
Proof.
  rewrite existsb_exists. unfold Spec.has_keyword. split.
  - intros [kw [Hin Hm]]. exists kw. split; [by apply list_elem_of_In|].
    by apply keyword_matches_iff.
  - intros [kw [Hin Hm]]. exists kw. split; [by apply list_elem_of_In|].
    by apply keyword_matches_iff.
Qed.

(** The screener either passes or raises its one message. *)
Lemma reject_injection_cases (data : option string) :
  reject_injection data = Passed
  \/ reject_injection data = Raised INJECTION_MESSAGE.
Proof.
  unfold reject_injection.
  destruct (existsb _ FORBIDDEN_SEQUENCES); [by right|].
  destruct (existsb _ SQL_KEYWORDS); [by right | by left].
Qed.

Lemma or_empty_Some (s : string) : or_empty (Some s) = s.
Proof.
  unfold or_empty, truthy. destruct (String.eqb_spec s ""); by subst.
Qed.

Lemma reject_injection_raises (s : string) :
  reject_injection (Some s) = Raised INJECTION_MESSAGE
  <-> Spec.screen_rejects s.
Proof.
  unfold reject_injection, Spec.screen_rejects. rewrite or_empty_Some.
  rewrite <- forbidden_iff, <- keywords_iff.
  destruct (existsb _ FORBIDDEN_SEQUENCES); [by intuition|].
  destruct (existsb _ SQL_KEYWORDS); [by intuition|].
  split; [discriminate | by intros [?|?]].
Qed.

Lemma boundary_is_token (u kw : string) :
  Spec.keyword_at_boundary u kw <-> Spec.token_occurrence u kw.
Proof.
  unfold Spec.keyword_at_boundary, Spec.token_occurrence. split.
  - intros [-> | [[b ->] | [[a ->] | [a [b ->]]]]].
    + exists "", "". rewrite app_nil_l, app_nil_r. by auto.
    + exists "", (" " +:+ b). rewrite app_nil_l.
      split; [done|]. split; [by left | right; by eexists].
    + exists (a +:+ " "), "". rewrite app_nil_r, app_assoc.
      split; [done|]. split; [right; by eexists | by left].
    + exists (a +:+ " "), (" " +:+ b). rewrite app_assoc.
      split; [done|]. split; right; by eexists.
  - intros [a [b [-> [[-> | [a' ->]] [-> | [b' ->]]]]]].
    + left. by rewrite app_nil_l, app_nil_r.
    + right; left. exists b'. by rewrite app_nil_l.
    + right; right; left. exists a'. by rewrite app_nil_r, app_assoc.
    + right; right; right. exists a', b'. by rewrite app_assoc.
Qed.

End ScreenerFacts.

(* ===================================================================== *)
(** * Stripping *)
(* ===================================================================== *)

Module StripFacts.
Import Str StrFacts.

Lemma rstrip_cons (c : ascii) (t : string) :
  rstrip (String c t) =
  match rstrip t with
  | EmptyString => if isspace c then EmptyString else String c EmptyString
  | r => String c r
  end.
Proof. reflexivity. Qed.

Lemma lstrip_cases (s : string) :
  lstrip s = "" \/ exists c t, lstrip s = String c t /\ isspace c = false.
Proof.
  induction s as [|c s IH]; [by left|]. simpl.
  destruct (isspace c) eqn:Hc; [done|]. right. by exists c, s.
Qed.

Lemma lstrip_nonspace (c : ascii) (t : string) :
  isspace c = false -> lstrip (String c t) = String c t.
Proof. intros Hc. simpl. by rewrite Hc. Qed.

Lemma rstrip_nonspace (c : ascii) (t : string) :
  isspace c = false -> rstrip (String c t) = String c (rstrip t).
Proof.
  intros Hc. rewrite rstrip_cons. destruct (rstrip t); [by rewrite Hc | done].
Qed.

Lemma rstrip_idem (s : string) : rstrip (rstrip s) = rstrip s.
Proof.
  induction s as [|c s IH]; [done|]. rewrite rstrip_cons.
  destruct (rstrip s) as [|c' r] eqn:Hr.
  - destruct (isspace c) eqn:Hc; [done|]. rewrite rstrip_cons. simpl.
    by rewrite Hc.
  - rewrite rstrip_cons. by rewrite IH.
Qed.

Lemma strip_idem (s : string) : strip (strip s) = strip s.
Proof.
  unfold strip. destruct (lstrip_cases s) as [-> | [c [t [-> Hc]]]]; [done|].
  rewrite (rstrip_nonspace c t Hc), (lstrip_nonspace _ _ Hc).
  rewrite <- (rstrip_nonspace c t Hc). apply rstrip_idem.
Qed.

Lemma lstrip_length (s : string) : (len (lstrip s) <= len s)%nat.
Proof.
  induction s as [|c s IH]; [done|]. simpl.
  destruct (isspace c); simpl; unfold len in *; lia.
Qed.

Lemma rstrip_length (s : string) : (len (rstrip s) <= len s)%nat.
Proof.
  induction s as [|c s IH]; [done|]. rewrite rstrip_cons.
  destruct (rstrip s); [destruct (isspace c)|]; simpl in *;
    unfold len in *; simpl in *; lia.
Qed.

Lemma strip_length (s : string) : (len (strip s) <= len s)%nat.
Proof.
  unfold strip. pose proof (rstrip_length (lstrip s)).
  pose proof (lstrip_length s). lia.
Qed.

Lemma lstrip_all_chars (P : ascii -> bool) (s : string) :
  all_chars P s = true -> all_chars P (lstrip s) = true.
Proof.
  induction s as [|c s IH]; [done|]. simpl. intros [Hc Hs]%andb_true_iff.
  destruct (isspace c); [by apply IH|]. simpl. by rewrite Hc, Hs.
Qed.

Lemma rstrip_all_chars (P : ascii -> bool) (s : string) :
  all_chars P s = true -> all_chars P (rstrip s) = true.
Proof.
  induction s as [|c s IH]; [done|]. simpl. intros [Hc Hs]%andb_true_iff.
  specialize (IH Hs). destruct (rstrip s).
  - destruct (isspace c); [done|]. simpl. by rewrite Hc.
  - change (P c && all_chars P (String a s0) = true). by rewrite Hc, IH.
Qed.

Lemma strip_all_chars (P : ascii -> bool) (s : string) :
  all_chars P s = true -> all_chars P (strip s) = true.
Proof. intros Hs. by apply rstrip_all_chars, lstrip_all_chars. Qed.

Lemma lstrip_app_nil (a b : string) :
  lstrip a = "" -> lstrip (a +:+ b) = lstrip b.
Proof.
  induction a as [|c a IH]; [done|]. rewrite app_cons. simpl.
  destruct (isspace c); [done | discriminate].
Qed.

Lemma lstrip_app_cons (a b : string) (c : ascii) (t : string) :
  lstrip a = String c t -> lstrip (a +:+ b) = lstrip a +:+ b.
Proof.
  induction a as [|x a IH]; [done|]. rewrite app_cons. simpl.
  destruct (isspace x); [done|]. intros _. by rewrite app_cons.
Qed.

Lemma rstrip_all_space (w : string) :
  all_chars isspace w = true -> rstrip w = "".
Proof.
  induction w as [|c w IH]; [done|]. simpl. intros [Hc Hw]%andb_true_iff.
  by rewrite (IH Hw), Hc.
Qed.

Lemma rstrip_app_space (s w : string) :
  all_chars isspace w = true -> rstrip (s +:+ w) = rstrip s.
Proof.
  intros Hw. induction s as [|c s IH].
  - rewrite app_nil_l. by apply rstrip_all_space.
  - rewrite app_cons, !rstrip_cons. by rewrite IH.
Qed.

(** A newline that ends the value goes with the stripping. *)
Lemma strip_final_newline (body : string) :
  strip (body +:+ String "010" "") = strip body.
Proof.
  unfold strip. destruct (lstrip_cases body) as [Hb | [c [t [Hb Hc]]]].
  - by rewrite (lstrip_app_nil _ _ Hb), Hb.
  - rewrite (lstrip_app_cons _ _ _ _ Hb). by apply rstrip_app_space.
Qed.

Lemma strip_nil : strip "" = "".
Proof. reflexivity. Qed.

End StripFacts.

(* ===================================================================== *)
(** * Validators on a stripped value *)
(* ===================================================================== *)

Module ValidatorFacts.
Import Str Wtf Screener StrFacts StripFacts ScreenerFacts.

(** A field is valid exactly when each validator of its chain passes. *)
Lemma field_validate_iff (validators : list validator) (d : option string) :
  field_validate validators d = true
  <-> Forall (fun v : validator => v d = Passed) validators.
Proof.
  unfold field_validate. induction validators as [|v vs IH]; simpl.
  - split; [constructor | done].
  - destruct (v d) eqn:Hv.
    + rewrite IH. split; [by constructor | by inversion 1].
    + split; [done | inversion 1; congruence].
    + split; [done | inversion 1; congruence].
Qed.

Lemma truthy_true (s : string) : truthy s = true <-> s <> "".
Proof.
  unfold truthy. by destruct (String.eqb_spec s "").
Qed.

Lemma DataRequired_Some (m s : string) :
  DataRequired m (Some s) = Passed <-> strip s <> "".
Proof.
  unfold DataRequired. split.
  - destruct (truthy s && truthy (strip s)) eqn:Ht; [|done].
    apply andb_true_iff in Ht as [_ Ht]. by apply truthy_true in Ht.
  - intros Hs.
    assert (truthy (strip s) = true) as -> by by apply truthy_true.
    assert (truthy s = true) as ->; [|done].
    apply truthy_true. intros ->. by apply Hs.
Qed.

Lemma DataRequired_None (m : string) : DataRequired m None <> Passed.
Proof. done. Qed.

Lemma DataRequired_strip (m s : string) :
  DataRequired m (Some s) = Passed ->
  DataRequired m (Some (strip s)) = Passed.
Proof. rewrite !DataRequired_Some. by rewrite strip_idem. Qed.

Lemma Length_Some (min max : Z) (s : string) :
  Length min max (Some s) = Passed
  <-> min <= Z.of_nat (len s) /\ (max = -1 \/ Z.of_nat (len s) <= max).
Proof.
  unfold Length. rewrite or_empty_Some.
  destruct (min <=? Z.of_nat (len s)) eqn:H1;
    destruct (max =? -1) eqn:H2;
    destruct (Z.of_nat (len s) <=? max) eqn:H3; simpl; split; try done; lia.
Qed.

Lemma Length_max_strip (max : Z) (s : string) :
  Length (-1) max (Some s) = Passed ->
  Length (-1) max (Some (strip s)) = Passed.
Proof.
  rewrite !Length_Some. pose proof (strip_length s). lia.
Qed.

(** ** The two patterns *)

Lemma match_class_star_end_inv (class : ascii -> bool) (s : string) :
  match_class_star_end class s = true ->
  exists body,
    (s = body \/ s = body +:+ String "010" "") /\ all_chars class body = true.
Proof.
  induction s as [|c t IH]; simpl.
  - intros _. exists "". by auto.
  - destruct (ch_eqb c "010" && String.eqb t "") eqn:Hnl.
    + intros _. apply andb_true_iff in Hnl as [Hc Ht].
      apply ch_eqb_eq in Hc as ->. apply String.eqb_eq in Ht as ->.
      exists "". by auto.
    + intros [Hc Ht]%andb_true_iff. destruct (IH Ht) as [body [Hb Hall]].
      exists (String c body). split.
      * destruct Hb as [-> | ->]; [by left | by right].
      * simpl. by rewrite Hc, Hall.
Qed.

Lemma match_class_plus_inv (class : ascii -> bool) (s : string) :
  match_class_plus class s = true ->
  exists body,
    (s = body \/ s = body +:+ String "010" "") /\ all_chars class body = true.
Proof.
  destruct s as [|c t]; [done|]. simpl. intros [Hc Ht]%andb_true_iff.
  destruct (match_class_star_end_inv _ _ Ht) as [body [Hb Hall]].
  exists (String c body). split.
  - destruct Hb as [-> | ->]; [by left | by right].
  - simpl. by rewrite Hc, Hall.
Qed.

Lemma all_chars_match_star (class : ascii -> bool) (s : string) :
  all_chars class s = true -> match_class_star_end class s = true.
Proof.
  induction s as [|c t IH]; [done|]. simpl. intros [Hc Ht]%andb_true_iff.
  destruct (ch_eqb c "010" && String.eqb t ""); [done|].
  by rewrite Hc, IH.
Qed.

Lemma all_chars_match_plus (class : ascii -> bool) (s : string) :
  all_chars class s = true -> s <> "" -> match_class_plus class s = true.
Proof.
  destruct s as [|c t]; [done|]. simpl. intros [Hc Ht]%andb_true_iff _.
  by rewrite Hc, all_chars_match_star.
Qed.

Lemma match_class_plus_strip (class : ascii -> bool) (s : string) :
  match_class_plus class s = true -> strip s <> "" ->
  match_class_plus class (strip s) = true.
Proof.
  intros Hm Hne. destruct (match_class_plus_inv _ _ Hm) as [body [Hb Hall]].
  assert (strip s = strip body) as Hs.
  { destruct Hb as [-> | ->]; [done | apply strip_final_newline]. }
  rewrite Hs in *. apply all_chars_match_plus; [|done].
  by apply strip_all_chars.
Qed.

Lemma Regexp_Some (class : ascii -> bool) (m s : string) :
  Regexp class m (Some s) = Passed <-> match_class_plus class s = true.
Proof.
  unfold Regexp. rewrite or_empty_Some.
  by destruct (match_class_plus class s).
Qed.

Lemma Regexp_strip (class : ascii -> bool) (m s : string) :
  Regexp class m (Some s) = Passed -> strip s <> "" ->
  Regexp class m (Some (strip s)) = Passed.
Proof. rewrite !Regexp_Some. apply match_class_plus_strip. Qed.

Lemma reject_injection_strip (s : string) :
  reject_injection (Some (strip s)) = reject_injection (Some s).
Proof.
  unfold reject_injection. by rewrite !or_empty_Some, strip_idem.
Qed.

(** ** The chains of the contact form *)

Lemma name_chain_iff (m1 m2 : string) (d : option string) :
  field_validate
    [DataRequired m1; Length (-1) 100; Regexp name_class m2; reject_injection]
    d = true
  <-> exists s, d = Some s
        /\ strip s <> ""
        /\ (len s <= 100)%nat
        /\ match_class_plus name_class s = true
        /\ reject_injection (Some s) = Passed.
Proof.
  rewrite field_validate_iff. split.
  - intros Hall.
    apply Forall_cons in Hall as [H1 Hall].
    apply Forall_cons in Hall as [H2 Hall].
    apply Forall_cons in Hall as [H3 Hall].
    apply Forall_cons in Hall as [H4 _].
    destruct d as [s|]; [|done]. exists s.
    apply DataRequired_Some in H1. apply Length_Some in H2.
    apply Regexp_Some in H3. repeat split; try done. lia.
  - intros [s [-> [H1 [H2 [H3 H4]]]]].
    repeat apply Forall_cons_2; try apply Forall_nil_2; try done.
    + by apply DataRequired_Some.
    + apply Length_Some. lia.
    + by apply Regexp_Some.
Qed.

Lemma name_chain_strip (m1 m2 s : string) :
  field_validate
    [DataRequired m1; Length (-1) 100; Regexp name_class m2; reject_injection]
    (Some s) = true ->
  field_validate
    [DataRequired m1; Length (-1) 100; Regexp name_class m2; reject_injection]
    (Some (strip s)) = true.
Proof.
  rewrite !name_chain_iff. intros [s' [[= <-] [H1 [H2 [H3 H4]]]]].
  exists (strip s). split; [done|]. rewrite strip_idem.
  split; [done|]. split; [pose proof (strip_length s); lia|].
  split; [by apply match_class_plus_strip|].
  by rewrite reject_injection_strip.
Qed.

Lemma email_chain_iff (check : string -> bool) (d : option string) :
  field_validate (ContactForm.email_validators check) d = true
  <-> exists s, d = Some s
        /\ strip s <> ""
        /\ check s = true
        /\ (len s <= 200)%nat
        /\ reject_injection (Some s) = Passed.
Proof.
  unfold ContactForm.email_validators. rewrite field_validate_iff. split.
  - intros Hall.
    apply Forall_cons in Hall as [H1 Hall].
    apply Forall_cons in Hall as [H2 Hall].
    apply Forall_cons in Hall as [H3 Hall].
    apply Forall_cons in Hall as [H4 _].
    destruct d as [s|]; [|done]. exists s.
    apply DataRequired_Some in H1. apply Length_Some in H3.
    unfold Email in H2. destruct (check s) eqn:Hc; [|done].
    repeat split; try done. lia.
  - intros [s [-> [H1 [H2 [H3 H4]]]]].
    repeat apply Forall_cons_2; try apply Forall_nil_2; try done.
    + by apply DataRequired_Some.
    + unfold Email. by rewrite H2.
    + apply Length_Some. lia.
Qed.

Lemma email_chain_strip (check : string -> bool) (s : string) :
  (forall x, check x = true -> check (strip x) = true) ->
  field_validate (ContactForm.email_validators check) (Some s) = true ->
  field_validate (ContactForm.email_validators check) (Some (strip s)) = true.
Proof.
  intros Hcheck. rewrite !email_chain_iff.
  intros [s' [[= <-] [H1 [H2 [H3 H4]]]]].
  exists (strip s). split; [done|]. rewrite strip_idem.
  split; [done|]. split; [by apply Hcheck|].
  split; [pose proof (strip_length s); lia|].
  by rewrite reject_injection_strip.
Qed.

End ValidatorFacts.

(* ===================================================================== *)
(** * Keywords glued to other characters *)
(* ===================================================================== *)

Module GluedFacts.
Import Str Wtf Screener StrFacts StripFacts ScreenerFacts.

Lemma app_inj_last (a b : string) (x y : ascii) :
  a +:+ String x "" = b +:+ String y "" -> x = y.
Proof.
  revert b. induction a as [|c a IH]; intros [|d b]; rewrite ?app_cons,
    ?app_nil_l; intros Heq.
  - by injection Heq.
  - injection Heq as _ Heq. destruct b; discriminate.
  - injection Heq as _ Heq. destruct a; discriminate.
  - injection Heq as _ Heq. by apply IH in Heq.
Qed.

Lemma all_chars_app (P : ascii -> bool) (a b : string) :
  all_chars P (a +:+ b) = all_chars P a && all_chars P b.
Proof.
  induction a as [|c a IH]; [done|]. rewrite app_cons. simpl.
  by rewrite IH, andb_assoc.
Qed.

Lemma contains_all_chars (P : ascii -> bool) (p s : string) :
  contains p s = true -> all_chars P s = true -> all_chars P p = true.
Proof.
  intros [a [b ->]]%contains_iff. rewrite !all_chars_app.
  by intros [_ [Hp _]%andb_true_iff]%andb_true_iff.
Qed.

Lemma upper_nil (s : string) : upper s = "" -> s = "".
Proof. by destruct s. Qed.

Lemma keyword_nonempty (kw : string) : kw ∈ SQL_KEYWORDS -> kw <> "".
Proof.
  unfold SQL_KEYWORDS. rewrite !elem_of_cons, elem_of_nil.
  intros H; repeat (destruct H as [-> | H]; [done|]). done.
Qed.

(** A token occurrence is never glued. *)
Lemma token_not_glued (a b : string) :
  (a = "" \/ exists a', a = a' +:+ " ") ->
  (b = "" \/ exists b', b = " " +:+ b') ->
  ~ Spec.glued_occurrence a b.
Proof.
  intros Ha Hb [[a' [c [-> Hc]]] | [c [b' [-> Hc]]]].
  - destruct Ha as [Ha | [a'' Ha]].
    + by apply app_eq_nil in Ha as [_ ?].
    + by apply app_inj_last in Ha.
  - destruct Hb as [Hb | [b'' Hb]]; [done|].
    rewrite app_cons, app_nil_l in Hb. by injection Hb.
Qed.

(** When each occurrence of a keyword is glued, the keyword loop finds
    nothing. *)
Lemma glued_no_keyword (u : string) :
  Spec.keywords_only_glued u ->
  existsb (keyword_matches u) SQL_KEYWORDS = false.
Proof.
  intros [_ Hglued]. apply not_true_is_false. intros Hk.
  apply keywords_iff in Hk as [kw [Hin Hb]].
  apply boundary_is_token in Hb as [a [b [Hu [Ha Hb]]]].
  by apply (token_not_glued a b Ha Hb), (Hglued kw).
Qed.

(** ** The scan is sound *)

Lemma skip_app (a b : string) : Spec.skip (len a) (a +:+ b) = b.
Proof. induction a as [|c a IH]; [done|]. by rewrite app_cons. Qed.

Lemma not_space_Some (c : ascii) :
  Spec.not_space (Some c) = true -> c <> " "%char.
Proof.
  unfold Spec.not_space. intros Hc ->. by rewrite ch_eqb_refl in Hc.
Qed.

Lemma occurrences_glued_sound (kw : string) (s : string) :
  forall prev a b,
    Spec.occurrences_glued kw prev s = true ->
    s = a +:+ kw +:+ b ->
    (a = "" /\ (Spec.not_space prev = true
                \/ Spec.not_space (Spec.head b) = true))
    \/ (a <> "" /\ Spec.glued_occurrence a b).
Proof.
  induction s as [|c t IH]; intros prev a b Hscan Hs.
  - symmetry in Hs. apply app_eq_nil in Hs as [-> Hs].
    apply app_eq_nil in Hs as [-> ->]. simpl in Hscan.
    left. split; [done|]. rewrite orb_false_r, andb_true_r in Hscan. by left.
  - destruct a as [|x a].
    + left. split; [done|]. rewrite app_nil_l in Hs.
      cbn [Spec.occurrences_glued] in Hscan.
      apply andb_true_iff in Hscan as [Hhere _].
      assert (startswith kw (String c t) = true) as Hsw.
      { apply startswith_iff. by exists b. }
      rewrite Hsw, Hs, skip_app in Hhere.
      by apply orb_true_iff in Hhere.
    + right. split; [done|]. rewrite app_cons in Hs.
      injection Hs as <- Ht.
      cbn [Spec.occurrences_glued] in Hscan.
      apply andb_true_iff in Hscan as [_ Hrest].
      destruct (IH (Some c) a b Hrest Ht)
        as [[-> [Hc | Hb]] | [Hne [[a' [y [-> Hy]]] | Hb]]].
      * left. exists "", c. split; [done|]. by apply not_space_Some.
      * right. destruct b as [|y b']; [done|].
        exists y, b'. split; [done|]. by apply not_space_Some.
      * left. exists (String c a'), y. by rewrite app_cons.
      * by right.
Qed.

Lemma keywords_only_glued_scan_sound (u : string) :
  Spec.keywords_only_glued_scan u = true -> Spec.keywords_only_glued u.
Proof.
  unfold Spec.keywords_only_glued_scan, Spec.keywords_only_glued.
  intros [Hex Hall]%andb_true_iff. split.
  - apply existsb_exists in Hex as [kw [Hin Hc]].
    apply contains_iff in Hc as [a [b Hab]].
    exists kw, a, b. split; [by apply list_elem_of_In | done].
  - intros kw a b Hin Hu. rewrite forallb_forall in Hall.
    apply list_elem_of_In in Hin. specialize (Hall kw Hin).
    destruct (occurrences_glued_sound kw u None a b Hall Hu)
      as [[-> [Hp | Hb]] | [_ Hg]]; [done | | done].
    right. destruct b as [|y b']; [done|].
    exists y, b'. split; [done|]. by apply not_space_Some.
Qed.

End GluedFacts.

(* ===================================================================== *)
(** * Properties of the input screener *)
(* ===================================================================== *)

Section ScreenerClaims.
Import Str Wtf Screener StrFacts StripFacts ScreenerFacts ValidatorFacts
  GluedFacts.

(** C1. For every input string, [reject_injection] raises its
    ValidationError if and only if the trimmed value contains one of the
    literal substrings [--], [;], [/*], [*/], or the uppercased trimmed
    value equals a keyword, starts with the keyword and a space, ends
    with a space and the keyword, or contains the keyword between two
    spaces; otherwise it passes.  The keyword test is a test for a token
    between boundaries (start, end or a single space), not a substring
    search: "reunion" contains UNION once uppercased and passes. *)
Theorem reject_injection_matches_denylist (input : string) :
  (reject_injection (Some input) = Raised INJECTION_MESSAGE
   <-> Spec.screen_rejects input)
  /\ (reject_injection (Some input) = Passed
      <-> ~ Spec.screen_rejects input)
  /\ (forall keyword,
        keyword_matches (upper (strip input)) keyword = true
        <-> Spec.token_occurrence (upper (strip input)) keyword)
  /\ (contains "UNION" (upper (strip "reunion")) = true
      /\ reject_injection (Some "reunion") = Passed).
Proof.
  split; [apply reject_injection_raises|]. split.
  - rewrite <- reject_injection_raises.
    by destruct (reject_injection_cases (Some input)) as [-> | ->].
  - split; [|by vm_compute].
    intros keyword. by rewrite keyword_matches_iff, boundary_is_token.
Qed.

(** C9 (as amended). When every occurrence of a keyword in the trimmed
    and uppercased value touches a character that is not a space, the
    keyword rule does not reject the value; and when the value also
    matches the name pattern, is at most 100 characters long and has no
    [--] in it, it is accepted as a first name and as a last name. *)
Theorem glued_keyword_name_accepted (value : string) :
  Spec.keywords_only_glued (upper (strip value)) ->
  existsb (keyword_matches (upper (strip value))) SQL_KEYWORDS = false
  /\ (match_class_plus name_class value = true ->
      (len value <= 100)%nat ->
      contains "--" (strip value) = false ->
      field_validate ContactForm.fname_validators (Some value) = true
      /\ field_validate ContactForm.lname_validators (Some value) = true).
Proof.
  intros Hglued. pose proof (glued_no_keyword _ Hglued) as Hkw.
  split; [done|]. intros Hre Hlen Hdash.
  assert (strip value <> "") as Hne.
  { destruct Hglued as [[kw [a [b [Hin Hu]]]] _]. intros Hs.
    rewrite Hs in Hu. symmetry in Hu. simpl in Hu.
    apply app_eq_nil in Hu as [_ Hu]. apply app_eq_nil in Hu as [Hu _].
    by apply (keyword_nonempty kw). }
  assert (all_chars name_class (strip value) = true) as Hchars.
  { pose proof (match_class_plus_strip _ _ Hre Hne) as Hm.
    destruct (match_class_plus_inv _ _ Hm) as [body [[Hb | Hb] Hall]].
    - by rewrite Hb.
    - exfalso. pose proof (strip_idem value) as Hid.
      rewrite Hb, strip_final_newline in Hid.
      pose proof (strip_length body) as Hle.
      rewrite Hid, app_length in Hle. simpl in Hle. lia. }
  assert (reject_injection (Some value) = Passed) as Hpass.
  { unfold reject_injection. rewrite or_empty_Some, Hkw.
    assert (existsb (fun seq => contains seq (strip value))
              FORBIDDEN_SEQUENCES = false) as ->; [|done].
    apply not_true_is_false. intros Hex.
    apply existsb_exists in Hex as [seq [Hin Hc]].
    pose proof (contains_all_chars name_class _ _ Hc Hchars) as Hseq.
    destruct Hin as [<- | [<- | [<- | [<- | []]]]];
      [by rewrite Hdash in Hc | done | done | done]. }
  split; apply name_chain_iff; exists value; by repeat split.
Qed.

(** The two examples of C9: joined by a hyphen, joined by an
    apostrophe. *)
Lemma glued_keyword_name_accepted_witness :
  (Spec.keywords_only_glued (upper (strip "Drop-Table"))
   /\ existsb (keyword_matches (upper (strip "Drop-Table"))) SQL_KEYWORDS
      = false
   /\ field_validate ContactForm.fname_validators (Some "Drop-Table") = true
   /\ field_validate ContactForm.lname_validators (Some "Drop-Table") = true)
  /\ (Spec.keywords_only_glued (upper (strip "O'Union"))
      /\ existsb (keyword_matches (upper (strip "O'Union"))) SQL_KEYWORDS
         = false
      /\ field_validate ContactForm.fname_validators (Some "O'Union") = true
      /\ field_validate ContactForm.lname_validators (Some "O'Union") = true).
Proof.
  assert (Spec.keywords_only_glued (upper (strip "Drop-Table"))) as Hg1.
  { apply keywords_only_glued_scan_sound. vm_compute. reflexivity. }
  assert (Spec.keywords_only_glued (upper (strip "O'Union"))) as Hg2.
  { apply keywords_only_glued_scan_sound. vm_compute. reflexivity. }
  destruct (glued_keyword_name_accepted "Drop-Table" Hg1) as [Hk1 Hacc1].
  destruct (glued_keyword_name_accepted "O'Union" Hg2) as [Hk2 Hacc2].
  split.
  - split; [exact Hg1|]. split; [exact Hk1|].
    apply Hacc1; [vm_compute; reflexivity | vm_compute; lia
                 | vm_compute; reflexivity].
  - split; [exact Hg2|]. split; [exact Hk2|].
    apply Hacc2; [vm_compute; reflexivity | vm_compute; lia
                 | vm_compute; reflexivity].
Defined.

(** C9 as it was stated fails on a value whose keyword is joined by two
    hyphens: each character is allowed in a name and the keyword rule
    does not fire, but the value contains [--] and is refused. *)
Lemma glued_keyword_refused_for_literal :
  Spec.keywords_only_glued (upper (strip "Drop--Table"))
  /\ match_class_plus name_class "Drop--Table" = true
  /\ existsb (keyword_matches (upper (strip "Drop--Table"))) SQL_KEYWORDS
     = false
  /\ field_validate ContactForm.fname_validators (Some "Drop--Table") = false
  /\ field_validate ContactForm.lname_validators (Some "Drop--Table") = false.
Proof.
  split; [|by vm_compute].
  apply keywords_only_glued_scan_sound. by vm_compute.
Qed.

(** The two values the specification tests the name rule with, and a
    value that ends in a newline, which [$] lets through. *)
Example name_rule_examples :
  field_validate ContactForm.fname_validators (Some "O'Brien-Smith") = true
  /\ run_validation_chain ContactForm.fname_validators (Some "John3")
     = [ContactForm.NAME_MESSAGE]
  /\ field_validate ContactForm.fname_validators
       (Some ("John" +:+ String "010" "")) = true
  /\ reject_injection None = Passed.
Proof. by vm_compute. Qed.

End ScreenerClaims.

(* ===================================================================== *)
(** * The password hasher *)
(* ===================================================================== *)

Module BcryptFacts.
Import Str StrFacts Bcrypt.

Lemma substring_prefix (a b : string) :
  String.substring 0 (len a) (a +:+ b) = a.
Proof.
  induction a as [|c a IH].
  - simpl. by destruct b.
  - rewrite app_cons. simpl. by rewrite IH.
Qed.

Lemma substring_whole (a : string) : String.substring 0 (len a) a = a.
Proof.
  rewrite <- (app_nil_r a) at 2. apply substring_prefix.
Qed.

Lemma substring_suffix (a b : string) :
  String.substring (len a) (len (a +:+ b) - len a) (a +:+ b) = b.
Proof.
  rewrite app_length. replace (len a + len b - len a)%nat with (len b) by lia.
  induction a as [|c a IH]; [apply substring_whole|].
  rewrite app_cons. simpl. apply IH.
Qed.

Lemma well_formed_salt_len (salt : string) :
  well_formed_salt salt = true -> len salt = SALT_LENGTH.
Proof.
  unfold well_formed_salt. rewrite !andb_true_iff.
  intros [[[[[[[Hlen _] _] _] _] _] _] _]. by apply Nat.eqb_eq.
Qed.

(** A salt string followed by a digest without [$] can be read. *)
Lemma readable_hash (salt d : string) :
  well_formed_salt salt = true -> contains "$" d = false ->
  readable (salt +:+ d) = true.
Proof.
  intros Hs Hd. unfold readable.
  pose proof (well_formed_salt_len salt Hs) as Hlen. rewrite <- Hlen.
  by rewrite substring_prefix, substring_suffix, Hs, Hd.
Qed.

Lemma readable_salt (salt : string) :
  well_formed_salt salt = true -> readable salt = true.
Proof.
  intros Hs. rewrite <- (app_nil_r salt). by apply readable_hash.
Qed.

Lemma truthy_iff (s : string) : truthy s = true <-> s <> "".
Proof.
  unfold truthy. rewrite negb_true_iff. split.
  - intros Hs ->. by rewrite String.eqb_refl in Hs.
  - intros Hs. by apply String.eqb_neq.
Qed.

Section Hashing.
Variable digest : string -> string -> string.

Lemma hashpw_hash (password salt d : string) :
  well_formed_salt salt = true -> contains "$" d = false ->
  (len password <= PASSWORD_LIMIT)%nat ->
  hashpw digest password (salt +:+ d) = Some (salt +:+ digest salt password).
Proof.
  intros Hs Hd Hp. unfold hashpw.
  rewrite (readable_hash salt d Hs Hd).
  apply Nat.leb_le in Hp. rewrite Hp. cbn [andb].
  rewrite <- (well_formed_salt_len salt Hs). by rewrite substring_prefix.
Qed.

Lemma hashpw_salt (password salt : string) :
  well_formed_salt salt = true ->
  (len password <= PASSWORD_LIMIT)%nat ->
  hashpw digest password salt = Some (salt +:+ digest salt password).
Proof.
  intros Hs Hp. rewrite <- (app_nil_r salt) at 1. by apply hashpw_hash.
Qed.

(** Beyond 72 bytes nothing is hashed, whatever the salt. *)
Lemma hashpw_long (password salt : string) :
  (PASSWORD_LIMIT < len password)%nat -> hashpw digest password salt = None.
Proof.
  intros Hp. unfold hashpw. apply Nat.leb_gt in Hp.
  by rewrite Hp, andb_false_r.
Qed.

Lemma generate_hash (password salt : string) :
  well_formed_salt salt = true ->
  password <> "" -> (len password <= PASSWORD_LIMIT)%nat ->
  generate_password_hash digest salt password
  = Some (salt +:+ digest salt password).
Proof.
  intros Hs Hne Hp. unfold generate_password_hash.
  apply truthy_iff in Hne. rewrite Hne. by apply hashpw_salt.
Qed.

(** Against the hash made from [p] under a salt, [q] verifies when the
    digests under that salt are the same. *)
Lemma check_hash (salt p q : string) :
  well_formed_salt salt = true ->
  contains "$" (digest salt p) = false ->
  (len q <= PASSWORD_LIMIT)%nat ->
  check_password_hash digest (salt +:+ digest salt p) q
  = Some (String.eqb (digest salt q) (digest salt p)).
Proof.
  intros Hs Hd Hq. unfold check_password_hash.
  rewrite (hashpw_hash q salt _ Hs Hd Hq). cbn. f_equal.
  destruct (String.eqb_spec (digest salt q) (digest salt p)) as [-> | Hne].
  - apply String.eqb_refl.
  - apply String.eqb_neq. intros Heq. by apply String.app_inj in Heq.
Qed.

End Hashing.

End BcryptFacts.

Section PasswordClaims.
Context `{Libraries}.
Import Str Bcrypt BcryptFacts Outcome.

Lemma set_password_hashable (salt : string) (u : User.t) (p : string) :
  well_formed_salt salt = true -> hashable p ->
  User.set_password salt u p
  = Some (User.with_password_hash (salt +:+ eks_digest salt p) u).
Proof.
  intros Hs [Hne Hp]. unfold User.set_password.
  by rewrite (generate_hash eks_digest p salt Hs Hne Hp).
Qed.

Lemma check_password_set (salt : string) (u : User.t) (p q : string) :
  digest_encoded -> well_formed_salt salt = true ->
  (len q <= PASSWORD_LIMIT)%nat ->
  User.check_password
    (User.with_password_hash (salt +:+ eks_digest salt p) u) q
  = Some (String.eqb (eks_digest salt q) (eks_digest salt p)).
Proof.
  intros Hd Hs Hq. unfold User.check_password. cbn [User.password_hash
    User.with_password_hash]. by apply check_hash.
Qed.

End PasswordClaims.

(** The stand-in digest has no [$] in it. *)
Module DigestFacts.
Import Str StrFacts.

Lemma toy_text_no_dollar (s : string) :
  all_chars (fun c => negb (ch_eqb c "$")) (Sample.toy_text s) = true.
Proof.
  induction s as [|c s IH]; [done|]. simpl. rewrite IH, andb_true_r.
  destruct (ch_eqb c "$") eqn:Hc; [done | by rewrite Hc].
Qed.

Lemma all_chars_contains (P : ascii -> bool) (c : ascii) (s : string) :
  P c = false -> all_chars P s = true -> contains (String c "") s = false.
Proof.
  intros Hc. induction s as [|x s IH]; [done|]. simpl.
  intros [Hx Hs]%andb_true_iff. rewrite (IH Hs), orb_false_r.
  destruct (ch_eqb c x) eqn:Hcx; [|done].
  apply Ascii.eqb_eq in Hcx. subst x. by rewrite Hc in Hx.
Qed.

Lemma toy_digest_encoded : Outcome.digest_encoded (H := Sample.libraries).
Proof.
  intros salt password. cbn [eks_digest Sample.libraries].
  unfold Sample.toy_digest.
  apply (all_chars_contains (fun c => negb (ch_eqb c "$"))); [done|].
  apply toy_text_no_dollar.
Qed.

End DigestFacts.



(* ===================================================================== *)
(** * The guard and the login view *)
(* ===================================================================== *)

Module AppFacts.
Import Str Wtf Screener StrFacts StripFacts ScreenerFacts ValidatorFacts App.
Import Outcome.

(** Unfolding of the handler combinators. *)
Ltac run_handler :=
  unfold mbind, mret, Handler_bind, Handler_ret, raising, abort,
    session_get, session_set_permanent, session_set, session_clear, flash,
    generate_csrf,
    get_or_404, db_add, db_store, db_delete, query_all, query_user,
    db_store_user, db_add_user, get_admin_seeded, set_admin_seeded,
    with_session, with_first_app, with_users, with_admin_seeded;
  cbn [session first_app users _admin_seeded fst snd].

Lemma flash_run (message category : string) (w : World) :
  flash message category w
  = (Return tt, with_session (flashed message category) w).
Proof. reflexivity. Qed.

Lemma flashed_other (message category key : string) (s : gmap string value) :
  key <> "_flashes" -> flashed message category s !! key = s !! key.
Proof. intros Hk. unfold flashed. by rewrite lookup_insert_ne. Qed.

(** ** The token of the session *)

Lemma csrf_session_other (e : Entropy) (key : string) (s : gmap string value) :
  key <> "csrf_token" -> csrf_session e s !! key = s !! key.
Proof.
  intros Hk. unfold csrf_session.
  destruct (s !! "csrf_token"); [done | by rewrite lookup_insert_ne].
Qed.

Lemma csrf_session_kept (e : Entropy) (s : gmap string value) :
  is_Some (s !! "csrf_token") -> csrf_session e s = s.
Proof. intros [v Hv]. unfold csrf_session. by rewrite Hv. Qed.

Lemma csrf_session_new (e : Entropy) (s : gmap string value) :
  s !! "csrf_token" = None ->
  csrf_session e s = <["csrf_token" := VStr (urandom_hex e)]> s.
Proof. intros Hv. unfold csrf_session. by rewrite Hv. Qed.

Lemma csrf_session_token (e : Entropy) (s : gmap string value) :
  is_Some (csrf_session e s !! "csrf_token").
Proof.
  unfold csrf_session. destruct (s !! "csrf_token") eqn:Hv.
  - by rewrite Hv.
  - by rewrite lookup_insert_eq.
Qed.

Lemma login_required_anonymous (path : string) (view_func : Handler Response)
    (w : World) :
  truthy_value (session w !! "user_id") = false ->
  login_required path view_func w
  = (Return (to_login path),
     with_session (flashed "Please log in to continue." "warning") w).
Proof.
  intros Hanon. unfold login_required. run_handler. by rewrite Hanon.
Qed.

Lemma login_required_authenticated (path : string)
    (view_func : Handler Response) (w : World) :
  truthy_value (session w !! "user_id") = true ->
  login_required path view_func w = view_func w.
Proof.
  intros Hauth. unfold login_required. run_handler. by rewrite Hauth.
Qed.


Section Views.
Context `{Libraries} `{Environ}.

Lemma login_success (e : Entropy) (method : Method)
    (args : gmap string string) (form : LoginForm.t) (w : World)
    (u : User.t) :
  validate_on_submit method (LoginForm.validate form) = true ->
  first_by_username (strip (data (LoginForm.username form))) (users w)
  = Some u ->
  User.check_password u (data (LoginForm.password form)) = Some true ->
  login e method args form w
  = (Return (Redirect (login_target args)),
     with_session (fun _ => login_session (User.id u)) w).
Proof.
  intros Hvalid Hfind Hcheck. unfold login. run_handler. rewrite Hvalid.
  run_handler. rewrite Hfind, Hcheck. run_handler.
  unfold login_target, login_session, flashed, flashes_of.
  rewrite !lookup_insert_ne, lookup_empty by done. reflexivity.
Qed.

Lemma login_invalid (e : Entropy) (method : Method)
    (args : gmap string string) (form : LoginForm.t) (w : World) :
  validate_on_submit method (LoginForm.validate form) = false ->
  login e method args form w
  = (Return (Rendered 200 "login.html"
               (if is_post method then LoginForm.errors form else []) []),
     if is_post method
     then with_session
            (fun s =>
               flashed "Please correct the highlighted errors." "danger"
                 (csrf_session e s)) w
     else with_session (csrf_session e) w).
Proof.
  intros Hinvalid. unfold login. run_handler. rewrite Hinvalid.
  by destruct (is_post method).
Qed.

(** The two ways a login with a valid form is turned down. *)
Lemma login_failed (e : Entropy) (method : Method)
    (args : gmap string string) (form : LoginForm.t) (w : World) :
  validate_on_submit method (LoginForm.validate form) = true ->
  (first_by_username (strip (data (LoginForm.username form))) (users w) = None
   \/ exists u,
        first_by_username (strip (data (LoginForm.username form))) (users w)
        = Some u
        /\ User.check_password u (data (LoginForm.password form))
           = Some false) ->
  login e method args form w
  = (Return (Rendered 200 "login.html"
               (if is_post method then LoginForm.errors form else []) []),
     with_session
       (fun s => flashed "Invalid username or password." "danger"
                   (csrf_session e s)) w).
Proof.
  intros Hvalid Hfail. unfold login. run_handler. rewrite Hvalid.
  run_handler. destruct Hfail as [-> | [u [-> ->]]]; reflexivity.
Qed.

(** The check of the password raises: the request ends there. *)
Lemma login_raises (e : Entropy) (method : Method)
    (args : gmap string string) (form : LoginForm.t) (w : World)
    (u : User.t) :
  validate_on_submit method (LoginForm.validate form) = true ->
  first_by_username (strip (data (LoginForm.username form))) (users w)
  = Some u ->
  User.check_password u (data (LoginForm.password form)) = None ->
  login e method args form w
  = (Abort INTERNAL_SERVER_ERROR, with_session (csrf_session e) w).
Proof.
  intros Hvalid Hfind Hcheck. unfold login. run_handler. rewrite Hvalid.
  run_handler. by rewrite Hfind, Hcheck.
Qed.

(** ** The views on records *)

Lemma delete_absent (sno : N) (w : World) :
  first_app w !! sno = None -> (sno <= SQLITE_MAX_INTEGER)%N ->
  delete sno w = (Abort 404%N, w).
Proof.
  intros Hnone Hfits%N.leb_le. unfold delete. run_handler.
  by rewrite Hnone, Hfits.
Qed.

Lemma delete_overflow (sno : N) (w : World) :
  first_app w !! sno = None -> (SQLITE_MAX_INTEGER < sno)%N ->
  delete sno w = (Abort INTERNAL_SERVER_ERROR, w).
Proof.
  intros Hnone Hbig%N.leb_gt. unfold delete. run_handler.
  by rewrite Hnone, Hbig.
Qed.

Lemma delete_present (sno : N) (rec : FirstApp.t) (w : World) :
  first_app w !! sno = Some rec ->
  delete sno w
  = (Return (Redirect (UrlFor "index" [])),
     {| session := flashed "Record deleted." "info" (session w);
        first_app := base.delete sno (first_app w);
        users := users w;
        _admin_seeded := _admin_seeded w |}).
Proof. intros Hsome. unfold delete. run_handler. by rewrite Hsome. Qed.

Lemma update_absent (e : Entropy) (method : Method) (sno : N)
    (form : ContactForm.t) (w : World) :
  first_app w !! sno = None -> (sno <= SQLITE_MAX_INTEGER)%N ->
  update e method sno form w = (Abort 404%N, w).
Proof.
  intros Hnone Hfits%N.leb_le. unfold update. run_handler.
  by rewrite Hnone, Hfits.
Qed.

Lemma update_overflow (e : Entropy) (method : Method) (sno : N)
    (form : ContactForm.t) (w : World) :
  first_app w !! sno = None -> (SQLITE_MAX_INTEGER < sno)%N ->
  update e method sno form w = (Abort INTERNAL_SERVER_ERROR, w).
Proof.
  intros Hnone Hbig%N.leb_gt. unfold update. run_handler.
  by rewrite Hnone, Hbig.
Qed.

(** Without the row, delete and update write nothing. *)
Lemma delete_missing (sno : N) (w : World) :
  first_app w !! sno = None -> (delete sno w).2 = w.
Proof.
  intros Hnone. destruct (N.le_gt_cases sno SQLITE_MAX_INTEGER).
  - by rewrite delete_absent.
  - by rewrite delete_overflow.
Qed.

Lemma update_missing (e : Entropy) (method : Method) (sno : N)
    (form : ContactForm.t) (w : World) :
  first_app w !! sno = None -> (update e method sno form w).2 = w.
Proof.
  intros Hnone. destruct (N.le_gt_cases sno SQLITE_MAX_INTEGER).
  - by rewrite update_absent.
  - by rewrite update_overflow.
Qed.

Lemma update_invalid (e : Entropy) (method : Method) (sno : N)
    (form : ContactForm.t) (rec : FirstApp.t) (w : World) :
  first_app w !! sno = Some rec ->
  validate_on_submit method (ContactForm.validate validate_email form)
  = false ->
  update e method sno form w
  = (Return (Rendered 200 "update.html"
               (if is_post method
                then ContactForm.errors validate_email form else [])
               [(sno, rec)]),
     if is_post method
     then with_session
            (fun s =>
               flashed "Please correct the highlighted errors." "danger"
                 (csrf_session e s)) w
     else with_session (csrf_session e) w).
Proof.
  intros Hsome Hinvalid. unfold update. run_handler.
  rewrite Hsome, Hinvalid. by destruct (is_post method).
Qed.

Lemma update_valid (e : Entropy) (method : Method) (sno : N)
    (form : ContactForm.t) (rec : FirstApp.t) (w : World) :
  first_app w !! sno = Some rec ->
  validate_on_submit method (ContactForm.validate validate_email form)
  = true ->
  update e method sno form w
  = (Return (Redirect (UrlFor "index" [])),
     {| session := flashed "Record updated successfully." "success"
                     (csrf_session e (session w));
        first_app := <[sno := stripped form]> (first_app w);
        users := users w;
        _admin_seeded := _admin_seeded w |}).
Proof.
  intros Hsome Hvalid. unfold update. run_handler.
  by rewrite Hsome, Hvalid.
Qed.

Lemma index_invalid (e : Entropy) (method : Method) (form : ContactForm.t)
    (w : World) :
  validate_on_submit method (ContactForm.validate validate_email form)
  = false ->
  index e method form w
  = (Return (Rendered 200 "index.html"
               (if is_post method
                then ContactForm.errors validate_email form else [])
               (merge_sort key_le (map_to_list (first_app w)))),
     if is_post method
     then with_session
            (fun s =>
               flashed "Please correct the highlighted errors." "danger"
                 (csrf_session e s)) w
     else with_session (csrf_session e) w).
Proof.
  intros Hinvalid. unfold index. run_handler. rewrite Hinvalid.
  by destruct (is_post method).
Qed.

Lemma index_valid (e : Entropy) (method : Method) (form : ContactForm.t)
    (w : World) :
  validate_on_submit method (ContactForm.validate validate_email form)
  = true ->
  index e method form w
  = (Return (Redirect (UrlFor "index" [])),
     {| session := flashed "Record added successfully." "success"
                     (csrf_session e (session w));
        first_app := <[next_sno (first_app w) := stripped form]>
                       (first_app w);
        users := users w;
        _admin_seeded := _admin_seeded w |}).
Proof.
  intros Hvalid. unfold index. run_handler. by rewrite Hvalid.
Qed.

Lemma logout_run (w : World) :
  logout w
  = (Return (Redirect (UrlFor "login" [])),
     {| session := flashed "You have been logged out." "info" ∅;
        first_app := first_app w;
        users := users w;
        _admin_seeded := _admin_seeded w |}).
Proof. reflexivity. Qed.

End Views.

End AppFacts.

(* ===================================================================== *)
(** * The seed administrator *)
(* ===================================================================== *)

Module SeedFacts.
Import Str App Outcome AppFacts Bcrypt BcryptFacts.

Lemma world_eta (w : World) :
  {| session := session w; first_app := first_app w; users := users w;
     _admin_seeded := _admin_seeded w |} = w.
Proof. by destruct w. Qed.

Section Seed.
Context `{Libraries} `{Environ}.

(** The routine writes the table that [seeded_users] gives, or raises
    where it gives none and writes nothing. *)
Lemma ensure_seed_admin_run (e : Entropy) (w : World) :
  ensure_seed_admin e w
  = match seeded_users e (users w) with
    | Some l => (Return tt, with_users (fun _ => l) w)
    | None => (Abort INTERNAL_SERVER_ERROR, w)
    end.
Proof.
  unfold ensure_seed_admin, seeded_users. run_handler.
  destruct (first_by_username DEFAULT_ADMIN_USERNAME (users w)) as [u|].
  - destruct (User.check_password u DEFAULT_ADMIN_PASSWORD) as [[|]|];
      cbn; [by rewrite world_eta | | done].
    by destruct (User.set_password (gensalt e) u DEFAULT_ADMIN_PASSWORD).
  - by destruct (User.set_password (gensalt e)
                   (User.unsaved DEFAULT_ADMIN_USERNAME)
                   DEFAULT_ADMIN_PASSWORD).
Qed.

Lemma bootstrap_seed_admin_run (e : Entropy) (w : World) :
  bootstrap_seed_admin e w
  = if _admin_seeded w then (Return tt, w)
    else match seeded_users e (users w) with
         | Some l =>
             (Return tt, with_admin_seeded true (with_users (fun _ => l) w))
         | None => (Abort INTERNAL_SERVER_ERROR, w)
         end.
Proof.
  unfold bootstrap_seed_admin. unfold mbind at 1. unfold Handler_bind.
  unfold get_admin_seeded. destruct (_admin_seeded w) eqn:Hs; [done|].
  unfold mbind, Handler_bind. rewrite ensure_seed_admin_run.
  by destruct (seeded_users e (users w)).
Qed.

Lemma bootstrap_keeps (e : Entropy) (w : World) :
  session (bootstrap_seed_admin e w).2 = session w
  /\ first_app (bootstrap_seed_admin e w).2 = first_app w.
Proof.
  rewrite bootstrap_seed_admin_run. destruct (_admin_seeded w); [done|].
  by destruct (seeded_users e (users w)).
Qed.

Lemma seed_passes_seeded (e : Entropy) (w : World) :
  _admin_seeded w = true -> seed_passes e w.
Proof.
  intros Hs. unfold seed_passes. rewrite bootstrap_seed_admin_run.
  by rewrite Hs.
Qed.

Lemma full_dispatch_refused (e : Entropy) (req : Request) (w : World) :
  is_post (request_method (route req)) = true ->
  csrf_valid req = false ->
  full_dispatch_request e req w = (ErrorResponse 400, w).
Proof.
  intros Hpost Hcsrf. unfold full_dispatch_request, csrf_protect.
  by rewrite Hpost, Hcsrf.
Qed.

(** An admitted request whose seed routine raises: nothing else runs. *)
Lemma full_dispatch_seed_raises (e : Entropy) (req : Request) (w : World) :
  is_post (request_method (route req)) && negb (csrf_valid req) = false ->
  (bootstrap_seed_admin e w).1 = Abort INTERNAL_SERVER_ERROR ->
  full_dispatch_request e req w = (Rendered 500 "500.html" [] [], w).
Proof.
  intros Hcsrf. unfold full_dispatch_request, csrf_protect. rewrite Hcsrf.
  unfold mbind, mret, Handler_bind, Handler_ret.
  rewrite bootstrap_seed_admin_run. destruct (_admin_seeded w); [done|].
  by destruct (seeded_users e (users w)).
Qed.

Lemma full_dispatch_admitted (e : Entropy) (req : Request) (w : World) :
  is_post (request_method (route req)) && negb (csrf_valid req) = false ->
  seed_passes e w ->
  full_dispatch_request e req w
  = match dispatch_request e req (bootstrap_seed_admin e w).2 with
    | (Return response, w') => (response, w')
    | (Abort status, w') => (handle_error status, w')
    end.
Proof.
  intros Hcsrf. unfold seed_passes, full_dispatch_request, csrf_protect.
  rewrite Hcsrf. unfold mbind, mret, Handler_bind, Handler_ret.
  by destruct (bootstrap_seed_admin e w) as [[[]|st] w1].
Qed.

(** The seed routine either lets the request pass or raises. *)
Lemma seed_passes_or_raises (e : Entropy) (w : World) :
  seed_passes e w
  \/ (bootstrap_seed_admin e w).1 = Abort INTERNAL_SERVER_ERROR
     /\ _admin_seeded w = false /\ seeded_users e (users w) = None.
Proof.
  unfold seed_passes. rewrite bootstrap_seed_admin_run.
  destruct (_admin_seeded w); [by left|].
  destruct (seeded_users e (users w)); [by left | by right].
Qed.

End Seed.
End SeedFacts.

(* ===================================================================== *)
(** * Properties of the guard, the login and the session *)
(* ===================================================================== *)

Section SessionClaims.
Context `{Libraries} `{Environ}.
Import Str Wtf App Outcome AppFacts SeedFacts ValidatorFacts.



(** C7. A successful login leaves the session that login itself builds,
    whatever the session was before: the user's id, the permanent flag and
    the notice.  A pair of the earlier session is in the new one only when
    login wrote that very pair; no other key is left; the session expires
    30 minutes after the response that refreshes it. *)
Theorem login_discards_prior_session (e : Entropy) (method : Method)
    (args : gmap string string) (form : LoginForm.t) (w : World)
    (u : User.t) (now : Z) :
  validate_on_submit method (LoginForm.validate form) = true ->
  first_by_username (strip (data (LoginForm.username form))) (users w)
  = Some u ->
  User.check_password u (data (LoginForm.password form)) = Some true ->
  session (login e method args form w).2 = login_session (User.id u)
  /\ (forall s0,
        session (login e method args form (with_session (fun _ => s0) w)).2
        = session (login e method args form w).2)
  /\ (forall key v,
        session w !! key = Some v ->
        session (login e method args form w).2 !! key = Some v ->
        (key, v) ∈ [("user_id", VInt (User.id u));
                    ("_permanent", VBool true);
                    ("_flashes",
                     VFlashes [("success", "Successfully logged in.")])])
  /\ (forall key,
        key ∉ ["user_id"; "_permanent"; "_flashes"] ->
        session (login e method args form w).2 !! key = None)
  /\ session (login e method args form w).2 !! "user_id"
     = Some (VInt (User.id u))
  /\ session (login e method args form w).2 !! "_permanent"
     = Some (VBool true)
  /\ get_expiration_time now (session (login e method args form w).2)
     = Some (now + 30 * 60).
Proof.
  intros Hvalid Hfind Hcheck.
  rewrite (login_success e method args form w u Hvalid Hfind Hcheck).
  cbn [fst snd with_session session].
  split; [done|]. split.
  { intros s0.
    by rewrite (login_success e method args form
                  (with_session (fun _ => s0) w) u Hvalid Hfind Hcheck). }
  assert (forall key v, login_session (User.id u) !! key = Some v ->
            (key, v) ∈ [("user_id", VInt (User.id u));
                        ("_permanent", VBool true);
                        ("_flashes",
                         VFlashes [("success", "Successfully logged in.")])])
    as Hpairs.
  { intros key v. unfold login_session.
    rewrite !lookup_insert, lookup_empty.
    repeat case_decide; intros [= <-]; subst; set_solver. }
  split; [intros key v _; apply Hpairs|]. split.
  { intros key Hkey. destruct (login_session (User.id u) !! key) eqn:Hl;
      [|done].
    apply Hpairs in Hl. exfalso. apply Hkey.
    rewrite !elem_of_cons in Hl. rewrite !elem_of_cons.
    destruct Hl as [[= -> _] | [[= -> _] | [[= -> _] | Hl]]];
      [by left | by right; left | by right; right; left
      | by apply elem_of_nil in Hl]. }
  unfold get_expiration_time, login_session.
  by rewrite !lookup_insert_ne, !lookup_insert_eq by done.
Qed.

(** C10. A login submission whose password has fewer than 8 or more than
    128 characters fails the validation of the form: the page is rendered
    again with the errors, the response and the session do not depend on
    the users table, no table is written, and the session gets no user id
    and no permanent flag that it did not have. *)
Theorem login_rejects_password_length (e : Entropy) (method : Method)
    (args : gmap string string) (form : LoginForm.t) (w : World)
    (p : string) :
  LoginForm.password form = Some p ->
  (len p < 8 \/ 128 < len p)%nat ->
  LoginForm.validate form = false
  /\ (login e method args form w).1
     = Return (Rendered 200 "login.html"
                 (if is_post method then LoginForm.errors form else []) [])
  /\ (forall l : list User.t,
        (login e method args form (with_users (fun _ => l) w)).1
        = (login e method args form w).1
        /\ session (login e method args form (with_users (fun _ => l) w)).2
           = session (login e method args form w).2)
  /\ users (login e method args form w).2 = users w
  /\ first_app (login e method args form w).2 = first_app w
  /\ session (login e method args form w).2 !! "user_id"
     = session w !! "user_id"
  /\ session (login e method args form w).2 !! "_permanent"
     = session w !! "_permanent".
Proof.
  intros Hp Hlen.
  assert (LoginForm.validate form = false) as Hinvalid.
  { unfold LoginForm.validate. rewrite Hp.
    assert (field_validate LoginForm.password_validators (Some p) = false)
      as ->; [|by rewrite andb_false_r].
    apply not_true_is_false. intros Hv%field_validate_iff.
    apply Forall_cons in Hv as [_ Hv]. apply Forall_cons in Hv as [Hv _].
    apply Length_Some in Hv. lia. }
  assert (forall w1, login e method args form w1
            = (Return (Rendered 200 "login.html"
                         (if is_post method then LoginForm.errors form else [])
                         []),
               if is_post method
               then with_session
                      (fun s =>
                         flashed "Please correct the highlighted errors."
                           "danger" (csrf_session e s)) w1
               else with_session (csrf_session e) w1)) as Hrun.
  { intros w1. apply login_invalid. unfold validate_on_submit.
    by rewrite Hinvalid, andb_false_r. }
  split; [done|]. rewrite !Hrun. split; [done|]. split.
  { intros l. rewrite !Hrun. by destruct (is_post method). }
  destruct (is_post method); cbn [snd with_session session users first_app];
    rewrite ?flashed_other by done; rewrite ?csrf_session_other by done;
    done.
Qed.

End SessionClaims.



(** A login of the administrator over a session that held another user's
    id. *)
Lemma login_discards_prior_session_witness :
  let w := App.with_session (fun _ => Sample.stale_session)
             Sample.seeded_world in
  let s' := App.session
              (App.login (H := Sample.libraries) Sample.entropy2 App.POST ∅
                 Sample.admin_login w).2 in
  s' = Outcome.login_session 1
  /\ s' !! "csrf_token" = None
  /\ s' !! "user_id" = Some (App.VInt 1)
  /\ App.get_expiration_time 500 s' = Some 2300.
Proof.
  intros w s'.
  assert (exists u, App.first_by_username
            (Str.strip (App.data (LoginForm.username Sample.admin_login)))
            (App.users w) = Some u
          /\ User.id u = 1
          /\ User.check_password (H := Sample.libraries) u
               (App.data (LoginForm.password Sample.admin_login))
             = Some true)
    as [u [Hfind [Hid Hcheck]]].
  { eexists. split; [vm_compute; reflexivity|].
    split; vm_compute; reflexivity. }
  destruct (login_discards_prior_session (H := Sample.libraries)
              Sample.entropy2 App.POST ∅
              Sample.admin_login w u 500 eq_refl Hfind Hcheck)
    as [Hs [_ [_ [Hk [Hu [_ He]]]]]].
  rewrite Hid in Hs, Hu. subst s'.
  split; [exact Hs|]. split.
  - apply Hk. rewrite !elem_of_cons, elem_of_nil.
    intros [? | [? | [? | []]]]; discriminate.
  - split; [exact Hu | exact He].
Defined.

(** The stored password is the five letters the form refuses. *)
Lemma login_rejects_password_length_witness :
  (exists u, App.users Sample.short_world = [u]
             /\ User.check_password (H := Sample.libraries) u "short"
                = Some true)
  /\ LoginForm.validate Sample.short_login = false
  /\ (App.login (H := Sample.libraries) Sample.entropy2 App.POST ∅
        Sample.short_login Sample.short_world).1
     = App.Return
         (App.Rendered 200 "login.html"
            ["Field must be between 8 and 128 characters long."] [])
  /\ App.session
       (App.login (H := Sample.libraries) Sample.entropy2 App.POST ∅
          Sample.short_login Sample.short_world).2 !! "user_id" = None.
Proof.
  split.
  { eexists. split; vm_compute; reflexivity. }
  destruct (login_rejects_password_length (H := Sample.libraries)
              Sample.entropy2 App.POST ∅
              Sample.short_login Sample.short_world "short" eq_refl)
    as [Hv [Hr [_ [_ [_ [Hu _]]]]]].
  - left. vm_compute. lia.
  - split; [exact Hv|]. split; [exact Hr | exact Hu].
Defined.

(* ===================================================================== *)
(** * Properties of update and delete *)
(* ===================================================================== *)

Section RecordClaims.
Context `{Libraries} `{Environ}.
Import Str Wtf App Outcome AppFacts SeedFacts ValidatorFacts.

(** C5. For a record that exists, when one of the three submitted fields
    fails its validators the update leaves the whole table as it was, the
    three columns of the record included; when the three pass, a
    submission overwrites the three columns together with the stripped
    values, and no other row changes. *)
Theorem update_all_or_nothing (e : Entropy) (method : Method) (sno : N)
    (form : ContactForm.t) (rec : FirstApp.t) (w : World) :
  first_app w !! sno = Some rec ->
  ((field_validate ContactForm.fname_validators (ContactForm.fname form)
    = false
    \/ field_validate ContactForm.lname_validators (ContactForm.lname form)
       = false
    \/ field_validate (ContactForm.email_validators validate_email)
         (ContactForm.email form) = false) ->
   first_app (update e method sno form w).2 = first_app w
   /\ first_app (update e method sno form w).2 !! sno = Some rec)
  /\ (field_validate ContactForm.fname_validators (ContactForm.fname form)
      = true ->
      field_validate ContactForm.lname_validators (ContactForm.lname form)
      = true ->
      field_validate (ContactForm.email_validators validate_email)
        (ContactForm.email form) = true ->
      first_app (update e POST sno form w).2
      = <[sno := stripped form]> (first_app w)
      /\ first_app (update e POST sno form w).2 !! sno
         = Some (stripped form)
      /\ (forall k, k <> sno ->
            first_app (update e POST sno form w).2 !! k = first_app w !! k)).
Proof.
  intros Hsome. split.
  - intros Hfail.
    assert (validate_on_submit method
              (ContactForm.validate validate_email form) = false) as Hinv.
    { unfold validate_on_submit, ContactForm.validate.
      destruct Hfail as [-> | [-> | ->]];
        rewrite ?andb_false_r; by rewrite ?andb_false_r. }
    rewrite (update_invalid e method sno form rec w Hsome Hinv).
    by destruct (is_post method).
  - intros Hf Hl He.
    assert (validate_on_submit POST
              (ContactForm.validate validate_email form) = true) as Hval.
    { unfold validate_on_submit, ContactForm.validate.
      by rewrite Hf, Hl, He. }
    rewrite (update_valid e POST sno form rec w Hsome Hval).
    cbn [snd first_app]. split; [done|]. split.
    + apply lookup_insert_eq.
    + intros k Hk. by apply lookup_insert_ne.
Qed.

(** C6. For an id that is not in the table and that SQLite can store,
    delete and update abort with status 404 and the state is the one
    before; through the dispatcher the authenticated request gets the
    not-found page.  For an id that SQLite cannot store, from 2^63 on,
    the lookup raises instead: delete and update end in the page of status
    500, not in the not-found page, and the state is the one before as
    well.  For an id that is in the table, delete removes that row and
    leaves every other row and the users as they were. *)
Theorem delete_update_not_found (sno : N) (w : World) :
  (first_app w !! sno = None ->
   (sno <= SQLITE_MAX_INTEGER)%N ->
   delete sno w = (Abort 404%N, w)
   /\ (forall e method form, update e method sno form w = (Abort 404%N, w))
   /\ (forall e args,
         truthy_value (session w !! "user_id") = true ->
         seed_passes e w ->
         (full_dispatch_request e
            {| route := Delete sno; args := args; csrf_valid := true |} w).1
         = Rendered 404 "404.html" [] []
         /\ first_app
              (full_dispatch_request e
                 {| route := Delete sno; args := args; csrf_valid := true |}
                 w).2
            = first_app w))
  /\ (first_app w !! sno = None ->
      (SQLITE_MAX_INTEGER < sno)%N ->
      delete sno w = (Abort 500%N, w)
      /\ (forall e method form,
            update e method sno form w = (Abort 500%N, w))
      /\ (forall e args,
            truthy_value (session w !! "user_id") = true ->
            seed_passes e w ->
            (full_dispatch_request e
               {| route := Delete sno; args := args; csrf_valid := true |}
               w).1
            = Rendered 500 "500.html" [] []
            /\ first_app
                 (full_dispatch_request e
                    {| route := Delete sno; args := args;
                       csrf_valid := true |} w).2
               = first_app w))
  /\ (forall rec, first_app w !! sno = Some rec ->
      (delete sno w).1 = Return (Redirect (UrlFor "index" []))
      /\ first_app (delete sno w).2 = base.delete sno (first_app w)
      /\ first_app (delete sno w).2 !! sno = None
      /\ (forall k, k <> sno ->
            first_app (delete sno w).2 !! k = first_app w !! k)
      /\ users (delete sno w).2 = users w).
Proof.
  split; [|split].
  - intros Hnone Hfits. split; [by apply delete_absent|].
    split; [intros; by apply update_absent|].
    intros e args Hauth Hseed. rewrite full_dispatch_admitted by done.
    destruct (bootstrap_keeps e w) as [Hs Hf].
    unfold dispatch_request. cbn [route].
    rewrite login_required_authenticated by by rewrite Hs.
    rewrite delete_absent by (done || by rewrite Hf). by cbn.
  - intros Hnone Hbig. split; [by apply delete_overflow|].
    split; [intros; by apply update_overflow|].
    intros e args Hauth Hseed. rewrite full_dispatch_admitted by done.
    destruct (bootstrap_keeps e w) as [Hs Hf].
    unfold dispatch_request. cbn [route].
    rewrite login_required_authenticated by by rewrite Hs.
    rewrite delete_overflow by (done || by rewrite Hf). by cbn.
  - intros rec Hsome. rewrite (delete_present sno rec w Hsome).
    cbn [fst snd first_app users]. repeat split.
    + apply lookup_delete_eq.
    + intros k Hk. by apply lookup_delete_ne.
Qed.

End RecordClaims.

(** The second record of the sample table, updated with a form whose last
    name trips the denylist, and then with a form that passes. *)
Lemma update_all_or_nothing_witness :
  let before := App.first_app Sample.listed_world in
  (exists rec, before !! 2%N = Some rec)
  /\ App.first_app
       (App.update (H := Sample.libraries) Sample.entropy1 App.POST 2
          Sample.jane_drop Sample.listed_world).2 = before
  /\ App.first_app
       (App.update (H := Sample.libraries) Sample.entropy1 App.POST 2
          Sample.jane Sample.listed_world).2 !! 2%N
     = Some {| FirstApp.fname := "Jane"; FirstApp.lname := "Doe";
               FirstApp.email := "jane@example.com" |}.
Proof.
  intros before.
  assert (exists rec, before !! 2%N = Some rec) as [rec Hrec].
  { eexists. vm_compute. reflexivity. }
  split; [by exists rec|].
  destruct (update_all_or_nothing (H := Sample.libraries) Sample.entropy1
              App.POST 2 Sample.jane_drop rec Sample.listed_world Hrec)
    as [Hfail _].
  destruct (update_all_or_nothing (H := Sample.libraries) Sample.entropy1
              App.POST 2 Sample.jane rec Sample.listed_world Hrec)
    as [_ Hpass].
  split.
  - apply Hfail. right; left. vm_compute. reflexivity.
  - apply Hpass; vm_compute; reflexivity.
Defined.

(** Deleting id 7, which the sample table does not have, the id 2^63,
    which no table can have, and id 1, which the sample table has. *)
Lemma delete_update_not_found_witness :
  App.delete 7 Sample.listed_world
  = (App.Abort 404%N, Sample.listed_world)
  /\ App.delete 9223372036854775808 Sample.listed_world
     = (App.Abort 500%N, Sample.listed_world)
  /\ (App.full_dispatch_request (H := Sample.libraries)
        (H0 := Sample.no_environ) Sample.entropy1
        {| App.route := App.Delete 9223372036854775808; App.args := ∅;
           App.csrf_valid := true |} Scenario.office_world).1
     = App.Rendered 500 "500.html" [] []
  /\ App.first_app
       (App.delete 1 Sample.listed_world).2 !! 1%N
     = None
  /\ App.first_app
       (App.delete 1 Sample.listed_world).2 !! 2%N
     = App.first_app Sample.listed_world !! 2%N.
Proof.
  destruct (delete_update_not_found (H := Sample.libraries)
              (H0 := Sample.no_environ) 7 Sample.listed_world)
    as [Habsent _].
  destruct (delete_update_not_found (H := Sample.libraries)
              (H0 := Sample.no_environ) 9223372036854775808
              Sample.listed_world) as [_ [Hbig _]].
  destruct (delete_update_not_found (H := Sample.libraries)
              (H0 := Sample.no_environ) 9223372036854775808
              Scenario.office_world) as [_ [Hoffice _]].
  destruct (delete_update_not_found (H := Sample.libraries)
              (H0 := Sample.no_environ) 1 Sample.listed_world)
    as [_ [_ Hpresent]].
  split.
  { apply Habsent; [vm_compute; reflexivity | vm_compute; discriminate]. }
  split.
  { apply Hbig; vm_compute; reflexivity. }
  split.
  { destruct Hoffice as [_ [_ Hpage]]; [vm_compute; reflexivity..|].
    apply (Hpage Sample.entropy1 ∅); vm_compute; reflexivity. }
  assert (exists rec, App.first_app Sample.listed_world !! 1%N = Some rec)
    as [rec Hrec].
  { eexists. vm_compute. reflexivity. }
  destruct (Hpresent rec Hrec) as [_ [_ [Hgone [Hother _]]]].
  split; [exact Hgone | by apply Hother].
Defined.

(* ===================================================================== *)
(** * The users table under the seed routine *)
(* ===================================================================== *)

Module UsersFacts.
Import Str App Outcome.

Lemma first_by_username_name (name : string) (l : list User.t) (u : User.t) :
  first_by_username name l = Some u -> User.username u = name /\ In u l.
Proof.
  unfold first_by_username. intros Hf. apply find_some in Hf as [Hin Hn].
  by apply String.eqb_eq in Hn.
Qed.

Lemma first_by_username_None (name : string) (l : list User.t) :
  first_by_username name l = None -> ~ In name (List.map User.username l).
Proof.
  unfold first_by_username. intros Hf [u [Hu Hin]]%in_map_iff.
  pose proof (find_none _ _ Hf u Hin) as Hn. simpl in Hn.
  by rewrite Hu, String.eqb_refl in Hn.
Qed.

Lemma first_by_username_app_new (name : string) (l : list User.t)
    (u : User.t) :
  first_by_username name l = None -> User.username u = name ->
  first_by_username name (l ++ [u]) = Some u.
Proof.
  unfold first_by_username. intros Hnone Hu.
  induction l as [|x l IH]; simpl in *.
  - by rewrite Hu, String.eqb_refl.
  - destruct (String.eqb (User.username x) name); [done | by apply IH].
Qed.

Lemma first_by_username_store (name : string) (l : list User.t)
    (u u' : User.t) :
  first_by_username name l = Some u ->
  User.username u' = name -> User.id u' = User.id u ->
  first_by_username name (store_user u' l) = Some u'.
Proof.
  unfold first_by_username, store_user. intros Hf Hname Hid.
  induction l as [|x l IH]; [done|]. simpl in *.
  destruct (String.eqb (User.username x) name) eqn:Hx.
  - injection Hf as ->. rewrite Hid, Z.eqb_refl.
    by rewrite Hname, String.eqb_refl.
  - destruct (User.id x =? User.id u').
    + by rewrite Hname, String.eqb_refl.
    + rewrite Hx. by apply IH.
Qed.

Lemma accounts_named_map (name : string) (l : list User.t) :
  accounts_named name l
  = length (List.filter (fun n => String.eqb n name)
              (List.map User.username l)).
Proof.
  unfold accounts_named. induction l as [|x l IH]; [done|]. simpl.
  destruct (String.eqb (User.username x) name); simpl; by rewrite IH.
Qed.

Lemma filter_absent (name : string) (names : list string) :
  ~ In name names ->
  List.filter (fun n => String.eqb n name) names = [].
Proof.
  induction names as [|n names IH]; [done|]. simpl. intros Hn.
  destruct (String.eqb_spec n name) as [-> | Hne].
  - destruct Hn. by left.
  - apply IH. intros Hin. apply Hn. by right.
Qed.

Lemma filter_unique (name : string) (names : list string) :
  NoDup names -> In name names ->
  length (List.filter (fun n => String.eqb n name) names) = 1%nat.
Proof.
  induction 1 as [|n names Hn Hnd IH]; [done|]. simpl. intros [-> | Hin].
  - rewrite String.eqb_refl. simpl. rewrite filter_absent; [done|].
    by rewrite <- list_elem_of_In.
  - destruct (String.eqb_spec n name) as [-> | Hne].
    + destruct Hn. by apply list_elem_of_In.
    + by apply IH.
Qed.

Lemma next_id_above (l : list User.t) (x : User.t) :
  In x l -> User.id x < next_id l.
Proof.
  unfold next_id. induction l as [|y l IH]; [done|]. simpl.
  intros [-> | Hin]; [lia|]. specialize (IH Hin). lia.
Qed.

Lemma next_id_fresh (l : list User.t) : ~ In (next_id l) (List.map User.id l).
Proof.
  intros [x [Hx Hin]]%in_map_iff. apply next_id_above in Hin. lia.
Qed.

Lemma NoDup_map_eq {A B : Type} (f : A -> B) (l : list A) (x y : A) :
  NoDup (List.map f l) -> In x l -> In y l -> f x = f y -> x = y.
Proof.
  induction l as [|a l IH]; [done|]. simpl. intros Hnd Hx Hy Hf.
  apply NoDup_cons in Hnd as [Ha Hnd].
  destruct Hx as [-> | Hx], Hy as [-> | Hy]; try done.
  - destruct Ha. apply list_elem_of_In. rewrite Hf. by apply in_map.
  - destruct Ha. apply list_elem_of_In. rewrite <- Hf. by apply in_map.
  - by apply IH.
Qed.

Lemma store_user_ids (l : list User.t) (u' : User.t) :
  List.map User.id (store_user u' l) = List.map User.id l.
Proof.
  unfold store_user. rewrite map_map. apply map_ext. intros x.
  destruct (Z.eqb_spec (User.id x) (User.id u')); [by symmetry | done].
Qed.

Lemma store_user_names (l : list User.t) (u u' : User.t) :
  NoDup (List.map User.id l) -> In u l ->
  User.id u' = User.id u -> User.username u' = User.username u ->
  List.map User.username (store_user u' l) = List.map User.username l.
Proof.
  intros Hnd Hin Hid Hname. unfold store_user. rewrite map_map.
  apply map_ext_in. intros x Hx.
  destruct (Z.eqb_spec (User.id x) (User.id u')) as [Heq | Hne]; [|done].
  rewrite Hid in Heq. by rewrite (NoDup_map_eq User.id l x u Hnd Hx Hin Heq).
Qed.

End UsersFacts.

(* ===================================================================== *)
(** * Properties of the seed routine *)
(* ===================================================================== *)

Section SeedClaims.
Context `{Libraries} `{Environ}.
Import Str App Outcome AppFacts SeedFacts UsersFacts Bcrypt BcryptFacts.

Lemma set_password_columns (salt : string) (u c : User.t) (p : string) :
  User.set_password salt u p = Some c ->
  User.id c = User.id u /\ User.username c = User.username u
  /\ User.created_at c = User.created_at u.
Proof.
  unfold User.set_password.
  destruct (generate_password_hash eks_digest salt p); [|done].
  by intros [= <-].
Qed.

(** With a salt as [gensalt] returns it, a password that bcrypt hashes
    and a readable hash in the administrator's row, the routine
    returns. *)
Lemma seeded_users_returns (e : Entropy) (l : list User.t) :
  well_formed_salt (gensalt e) = true ->
  hashable DEFAULT_ADMIN_PASSWORD ->
  admin_hash_readable l ->
  exists l', seeded_users e l = Some l'.
Proof.
  intros Hsalt Hp Hread. unfold seeded_users.
  destruct (first_by_username DEFAULT_ADMIN_USERNAME l) as [u|] eqn:Hf.
  - specialize (Hread u Hf). unfold User.check_password,
      check_password_hash, hashpw. rewrite Hread.
    destruct Hp as [Hne Hlen]. pose proof Hlen as Hleb%Nat.leb_le.
    rewrite Hleb. cbn.
    destruct (String.eqb _ (User.password_hash u)); [by eexists|].
    rewrite (set_password_hashable (gensalt e) u _ Hsalt (conj Hne Hlen)).
    by eexists.
  - rewrite (set_password_hashable (gensalt e) _ _ Hsalt Hp). by eexists.
Qed.

(** What the routine leaves: the first account with the administrator's
    name verifies the configured password. *)
Lemma seeded_users_verify (e : Entropy) (l l' : list User.t) :
  digest_encoded ->
  well_formed_salt (gensalt e) = true ->
  hashable DEFAULT_ADMIN_PASSWORD ->
  seeded_users e l = Some l' ->
  exists a,
    first_by_username DEFAULT_ADMIN_USERNAME l' = Some a
    /\ User.check_password a DEFAULT_ADMIN_PASSWORD = Some true.
Proof.
  intros Hd Hsalt Hp. unfold seeded_users.
  destruct (first_by_username DEFAULT_ADMIN_USERNAME l) as [u|] eqn:Hf.
  - destruct (User.check_password u DEFAULT_ADMIN_PASSWORD) as [[|]|] eqn:Hc;
      cbn; [intros [= <-]; by exists u | | done].
    rewrite (set_password_hashable (gensalt e) u _ Hsalt Hp). cbn.
    intros [= <-]. eexists. split.
    + apply (first_by_username_store _ _ u); [done | | done].
      by apply first_by_username_name in Hf as [? _].
    + rewrite check_password_set by (done || apply Hp).
      by rewrite String.eqb_refl.
  - rewrite (set_password_hashable (gensalt e) _ _ Hsalt Hp). cbn.
    intros [= <-]. eexists. split.
    + by apply first_by_username_app_new.
    + unfold User.check_password, inserted_user.
      cbn [User.password_hash User.with_password_hash].
      rewrite check_hash by (done || apply Hp).
      by rewrite String.eqb_refl.
Qed.


Lemma seeded_users_table_ok (e : Entropy) (l l' : list User.t) :
  users_table_ok l -> seeded_users e l = Some l' -> users_table_ok l'.
Proof.
  intros [Hids Hnames]. unfold seeded_users.
  destruct (first_by_username DEFAULT_ADMIN_USERNAME l) as [u|] eqn:Hf.
  - destruct (User.check_password u DEFAULT_ADMIN_PASSWORD) as [[|]|];
      cbn; [by intros [= <-] | | done].
    destruct (User.set_password (gensalt e) u DEFAULT_ADMIN_PASSWORD)
      as [c|] eqn:Hset; cbn; [|done].
    apply set_password_columns in Hset as [Hid [Hname _]].
    intros [= <-].
    apply first_by_username_name in Hf as [_ Hin]. split.
    + by rewrite store_user_ids.
    + by rewrite (store_user_names l u).
  - destruct (User.set_password (gensalt e)
                (User.unsaved DEFAULT_ADMIN_USERNAME) DEFAULT_ADMIN_PASSWORD)
      as [c|] eqn:Hset; cbn; [|done].
    apply set_password_columns in Hset as [_ [Hname _]].
    intros [= <-].
    split; rewrite map_app; simpl; apply NoDup_app; repeat split; try done.
    + intros x Hx Hnew%list_elem_of_In. destruct Hnew as [<- | []].
      by apply (next_id_fresh l), list_elem_of_In.
    + apply NoDup_singleton.
    + intros x Hx Hnew%list_elem_of_In. destruct Hnew as [<- | []].
      rewrite Hname in Hx.
      by apply (first_by_username_None _ _ Hf), list_elem_of_In.
    + apply NoDup_singleton.
Qed.



End SeedClaims.



(* ===================================================================== *)
(** * The records under the requests *)
(* ===================================================================== *)

Module StoreFacts.
Import Str Wtf App Outcome AppFacts SeedFacts ValidatorFacts StripFacts.

Section Store.
Context `{Libraries} `{Environ}.

Lemma store_screened_ext (w w' : World) :
  first_app w' = first_app w -> store_screened w -> store_screened w'.
Proof. unfold store_screened. by intros ->. Qed.

Lemma stripped_screened (form : ContactForm.t) :
  (forall x, validate_email x = true -> validate_email (strip x) = true) ->
  ContactForm.validate validate_email form = true ->
  record_screened (stripped form).
Proof.
  intros Hemail. unfold ContactForm.validate.
  intros [[Hf Hl]%andb_true_iff He]%andb_true_iff.
  unfold record_screened, stripped. cbn [FirstApp.fname FirstApp.lname
    FirstApp.email].
  assert (forall vs d, field_validate vs d = true ->
            Forall (fun v : validator => v d = Passed) vs) as Hall.
  { intros vs d. apply field_validate_iff. }
  assert (forall m vs d, field_validate (DataRequired m :: vs) d = true ->
            exists x, d = Some x) as Hsome.
  { intros m vs [x|] Hv; [by exists x|].
    apply Hall, Forall_cons in Hv as [Hv _]. done. }
  destruct (Hsome _ _ _ Hf) as [f Hfd]. destruct (Hsome _ _ _ Hl) as [l Hld].
  destruct (Hsome _ _ _ He) as [m Hmd].
  rewrite Hfd, Hld, Hmd in *. cbn [data default].
  split; [by apply name_chain_strip|]. split; [by apply name_chain_strip|].
  by apply email_chain_strip.
Qed.

Lemma login_first_app (e : Entropy) (method : Method)
    (args : gmap string string) (form : LoginForm.t) (w : World) :
  first_app (login e method args form w).2 = first_app w.
Proof.
  unfold login. run_handler. destruct (validate_on_submit method _).
  - run_handler.
    destruct (first_by_username _ (users w)) as [u|]; [|done].
    by destruct (User.check_password u _) as [[|]|].
  - run_handler. by destruct (is_post method).
Qed.

(** What a view wrapped by the guard does to a property of the table. *)
Lemma login_required_first_app (P : gmap N FirstApp.t -> Prop) (path : string)
    (view_func : Handler Response) (w : World) :
  P (first_app w) ->
  P (first_app (view_func w).2) ->
  P (first_app (login_required path view_func w).2).
Proof.
  intros Hw Hview.
  destruct (truthy_value (session w !! "user_id")) eqn:Hauth.
  - by rewrite login_required_authenticated.
  - by rewrite login_required_anonymous.
Qed.

Lemma index_screened (e : Entropy) (method : Method) (form : ContactForm.t)
    (w : World) :
  (forall x, validate_email x = true -> validate_email (strip x) = true) ->
  store_screened w -> store_screened (index e method form w).2.
Proof.
  intros Hemail Hw.
  destruct (validate_on_submit method
              (ContactForm.validate validate_email form)) eqn:Hv.
  - rewrite (index_valid e method form w Hv). unfold store_screened.
    cbn [snd first_app]. apply map_Forall_insert_2; [|done].
    apply stripped_screened; [done|].
    unfold validate_on_submit in Hv. by apply andb_true_iff in Hv as [_ ?].
  - rewrite (index_invalid e method form w Hv).
    by destruct (is_post method).
Qed.

Lemma update_screened (e : Entropy) (method : Method) (sno : N)
    (form : ContactForm.t) (w : World) :
  (forall x, validate_email x = true -> validate_email (strip x) = true) ->
  store_screened w -> store_screened (update e method sno form w).2.
Proof.
  intros Hemail Hw. destruct (first_app w !! sno) as [rec|] eqn:Hrec.
  - destruct (validate_on_submit method
                (ContactForm.validate validate_email form)) eqn:Hv.
    + rewrite (update_valid e method sno form rec w Hrec Hv).
      unfold store_screened. cbn [snd first_app].
      apply map_Forall_insert_2; [|done].
      apply stripped_screened; [done|].
      unfold validate_on_submit in Hv. by apply andb_true_iff in Hv as [_ ?].
    + rewrite (update_invalid e method sno form rec w Hrec Hv).
      by destruct (is_post method).
  - by rewrite update_missing.
Qed.

(** Delete only takes rows away. *)
Lemma delete_rows (sno : N) (w : World) (k : N) (rec : FirstApp.t) :
  first_app (delete sno w).2 !! k = Some rec -> first_app w !! k = Some rec.
Proof.
  destruct (first_app w !! sno) as [r|] eqn:Hr.
  - rewrite (delete_present sno r w Hr). cbn [snd first_app].
    by intros [_ ?]%lookup_delete_Some.
  - by rewrite delete_missing.
Qed.

Lemma dispatch_screened (e : Entropy) (req : Request) (w : World) :
  (forall x, validate_email x = true -> validate_email (strip x) = true) ->
  store_screened w -> store_screened (dispatch_request e req w).2.
Proof.
  intros Hemail Hw. unfold dispatch_request, store_screened.
  destruct (route req) as [m f | | m f | sno | m sno f].
  - by rewrite login_first_app.
  - by apply (login_required_first_app
                (map_Forall (fun _ rec => record_screened rec))).
  - apply (login_required_first_app
             (map_Forall (fun _ rec => record_screened rec))); [done|].
    by apply index_screened.
  - apply (login_required_first_app
             (map_Forall (fun _ rec => record_screened rec))); [done|].
    intros k rec Hk. apply delete_rows in Hk. by apply (Hw k).
  - apply (login_required_first_app
             (map_Forall (fun _ rec => record_screened rec))); [done|].
    by apply update_screened.
Qed.

(** The table after a request, in terms of the dispatched view. *)
Lemma full_dispatch_first_app (P : gmap N FirstApp.t -> Prop) (e : Entropy)
    (req : Request) (w : World) :
  P (first_app w) ->
  (forall w1, first_app w1 = first_app w ->
     P (first_app (dispatch_request e req w1).2)) ->
  P (first_app (full_dispatch_request e req w).2).
Proof.
  intros Hw Hdispatch.
  destruct (is_post (request_method (route req)) && negb (csrf_valid req))
    eqn:Hcsrf.
  - apply andb_true_iff in Hcsrf as [Hpost Hcsrf].
    apply negb_true_iff in Hcsrf. by rewrite full_dispatch_refused.
  - destruct (seed_passes_or_raises e w) as [Hseed | [Hraise _]].
    + rewrite full_dispatch_admitted by done.
      destruct (bootstrap_keeps e w) as [_ Hf].
      specialize (Hdispatch _ Hf).
      by destruct (dispatch_request e req (bootstrap_seed_admin e w).2)
        as [[r|st] w'].
    + by rewrite full_dispatch_seed_raises.
Qed.

Lemma full_dispatch_screened (e : Entropy) (req : Request) (w : World) :
  (forall x, validate_email x = true -> validate_email (strip x) = true) ->
  store_screened w -> store_screened (full_dispatch_request e req w).2.
Proof.
  intros Hemail Hw. unfold store_screened.
  apply (full_dispatch_first_app
           (map_Forall (fun _ rec => record_screened rec))); [done|].
  intros w1 Hw1. apply dispatch_screened; [done|].
  by apply (store_screened_ext w).
Qed.

(** Login, logout and delete write no row. *)
Lemma dispatch_writes_no_row (e : Entropy) (req : Request) (w : World)
    (k : N) (rec : FirstApp.t) :
  (forall m f, route req <> Index m f) ->
  (forall m sno f, route req <> Update m sno f) ->
  first_app (dispatch_request e req w).2 !! k = Some rec ->
  first_app w !! k = Some rec.
Proof.
  intros Hindex Hupdate. unfold dispatch_request.
  destruct (route req) as [m f | | m f | sno | m sno f].
  - by rewrite login_first_app.
  - by apply (login_required_first_app (fun t => t !! k = Some rec -> _)).
  - by destruct (Hindex m f).
  - apply (login_required_first_app (fun t => t !! k = Some rec -> _));
      [done | apply delete_rows].
  - by destruct (Hupdate m sno f).
Qed.

End Store.
End StoreFacts.

(** The key of a new row is not in use. *)
Module KeyFacts.
Import App.

Lemma max_key_above (m : gmap N FirstApp.t) (k : N) (rec : FirstApp.t) :
  m !! k = Some rec -> (k <= max_key m)%N.
Proof.
  unfold max_key. revert k rec.
  apply (map_fold_weak_ind
           (fun r m => forall k rec, m !! k = Some rec -> (k <= r)%N)).
  - intros k rec Hk. by rewrite lookup_empty in Hk.
  - intros i x m' r Hi IH k rec Hk.
    apply lookup_insert_Some in Hk as [[<- _] | [_ Hk]]; [lia|].
    specialize (IH k rec Hk). lia.
Qed.

Lemma next_sno_fresh (m : gmap N FirstApp.t) : m !! next_sno m = None.
Proof.
  destruct (m !! next_sno m) as [rec|] eqn:Hk; [|done].
  apply max_key_above in Hk. unfold next_sno in Hk. lia.
Qed.

End KeyFacts.

(** The stand-in e-mail check accepts the stripped value of what it
    accepts. *)
Module SampleFacts.
Import Str StrFacts StripFacts.

Lemma strip_no_space (s : string) :
  all_chars (fun c => negb (isspace c)) s = true -> strip s = s.
Proof.
  intros Hs. unfold strip.
  assert (lstrip s = s) as ->.
  { destruct s as [|c t]; [done|]. simpl in *.
    apply andb_true_iff in Hs as [Hc _]. apply negb_true_iff in Hc.
    by rewrite Hc. }
  induction s as [|c t IH]; [done|]. simpl in Hs.
  apply andb_true_iff in Hs as [Hc Ht]. apply negb_true_iff in Hc.
  by rewrite (rstrip_nonspace c t Hc), (IH Ht).
Qed.

Lemma toy_email_strip (x : string) :
  Sample.toy_email x = true -> Sample.toy_email (strip x) = true.
Proof.
  intros Hx. pose proof Hx as [_ Hs]%andb_true_iff.
  by rewrite (strip_no_space x Hs).
Qed.

End SampleFacts.

(* ===================================================================== *)
(** * The invariant of the records *)
(* ===================================================================== *)

Section StoreClaims.
Context `{Libraries} `{Environ}.
Import Str Wtf App Outcome AppFacts SeedFacts StoreFacts KeyFacts.

(** C4. When the e-mail check accepts the stripped value of a value it
    accepts, every row of the table passes the validators of its three
    fields in every state that requests lead to from the empty database.
    The create operation stores a row that passes them under a new key,
    the update operation keeps the table in that state, and a request to
    login, logout or delete leaves each row it does not remove as it
    was. *)
Theorem records_always_screened :
  (forall x, validate_email x = true -> validate_email (strip x) = true) ->
  (forall w, reachable w -> store_screened w)
  /\ (forall e method form w,
        validate_on_submit method (ContactForm.validate validate_email form)
        = true ->
        record_screened (stripped form)
        /\ first_app (index e method form w).2
           = <[next_sno (first_app w) := stripped form]> (first_app w)
        /\ first_app w !! next_sno (first_app w) = None)
  /\ (forall e method form w,
        store_screened w -> store_screened (index e method form w).2)
  /\ (forall e method sno form w,
        store_screened w -> store_screened (update e method sno form w).2)
  /\ (forall e req w k rec,
        (forall m f, route req <> Index m f) ->
        (forall m sno f, route req <> Update m sno f) ->
        first_app (full_dispatch_request e req w).2 !! k = Some rec ->
        first_app w !! k = Some rec).
Proof.
  intros Hemail. split.
  { induction 1 as [|e w Hw IH|e req s w Hw IH].
    - unfold store_screened. cbn. apply map_Forall_empty.
    - rewrite ensure_seed_admin_run.
      destruct (seeded_users e _); by apply (store_screened_ext w).
    - apply full_dispatch_screened; [done|].
      by apply (store_screened_ext w). }
  split.
  { intros e method form w Hv. split.
    - apply stripped_screened; [done|].
      unfold validate_on_submit in Hv. by apply andb_true_iff in Hv as [_ ?].
    - rewrite (index_valid e method form w Hv). cbn [snd first_app].
      split; [done | apply next_sno_fresh]. }
  split; [intros; by apply index_screened|].
  split; [intros; by apply update_screened|].
  intros e req w k rec Hindex Hupdate.
  apply (full_dispatch_first_app
           (fun t => t !! k = Some rec -> first_app w !! k = Some rec));
    [done|].
  intros w1 Hw1 Hk. rewrite <- Hw1.
  by apply (dispatch_writes_no_row e req w1 k rec).
Qed.

End StoreClaims.

(** The table after an authenticated caller has created one record through
    the dispatcher. *)
Lemma records_always_screened_witness :
  let created :=
    (App.full_dispatch_request (H := Sample.libraries)
       (H0 := Sample.no_environ) Sample.entropy1
       {| App.route := App.Index App.POST Sample.john;
          App.args := ∅; App.csrf_valid := true |}
       (App.with_session (fun _ => Scenario.caller) App.initial_world)).2 in
  App.first_app created !! 1%N
  = Some {| FirstApp.fname := "John"; FirstApp.lname := "O'Brien-Smith";
            FirstApp.email := "john@example.com" |}
  /\ Outcome.store_screened (H := Sample.libraries) created.
Proof.
  intros created. split; [vm_compute; reflexivity|].
  destruct (records_always_screened (H := Sample.libraries)
              (H0 := Sample.no_environ) SampleFacts.toy_email_strip)
    as [Hreach _].
  apply Hreach. apply Outcome.reachable_request. apply Outcome.reachable_initial.
Defined.


(* ===================================================================== *)
(** * More on the screener: white space and letter case *)
(* ===================================================================== *)

Module CaseFacts.
Import Str Wtf Screener StrFacts StripFacts ScreenerFacts ValidatorFacts.
Import Notions.

Lemma existsb_agree {A : Type} (f g : A -> bool) (l : list A) :
  (forall x, In x l -> f x = g x) -> existsb f l = existsb g l.
Proof.
  induction l as [|x l IH]; [done|]. intros Hfg. simpl.
  rewrite (Hfg x) by by left. f_equal. apply IH. intros y Hy.
  apply Hfg. by right.
Qed.

Lemma startswith_nil (s : string) : startswith "" s = true.
Proof. by destruct s. Qed.

Lemma contains_startswith (p s : string) :
  startswith p s = true -> contains p s = true.
Proof. intros Hp. destruct s; simpl; by rewrite Hp. Qed.

Lemma contains_nil_false (p : string) : p <> "" -> contains p "" = false.
Proof. by destruct p. Qed.

Lemma startswith_rstrip (p s : string) :
  all_chars printing p = true -> startswith p s = true ->
  startswith p (rstrip s) = true.
Proof.
  revert s. induction p as [|a p IH]; intros s Hp Hs.
  - apply startswith_nil.
  - destruct s as [|b t]; [done|]. simpl in Hp, Hs.
    apply andb_true_iff in Hp as [Ha Hp]. apply andb_true_iff in Hs as [Hab Hs].
    apply ch_eqb_eq in Hab as <-. apply negb_true_iff in Ha.
    rewrite (rstrip_nonspace a t Ha). simpl. by rewrite ch_eqb_refl, IH.
Qed.

Lemma contains_rstrip (p s : string) :
  all_chars printing p = true -> p <> "" ->
  contains p s = true -> contains p (rstrip s) = true.
Proof.
  intros Hp Hne. induction s as [|c t IH].
  - by rewrite contains_nil_false.
  - rewrite contains_cons. intros [Hs | Ht]%orb_true_iff.
    + by apply contains_startswith, startswith_rstrip.
    + specialize (IH Ht). rewrite rstrip_cons.
      destruct (rstrip t) as [|c' r]; [by rewrite contains_nil_false in IH|].
      rewrite contains_cons, IH. apply orb_true_r.
Qed.

Lemma contains_lstrip (p s : string) :
  all_chars printing p = true -> p <> "" ->
  contains p s = true -> contains p (lstrip s) = true.
Proof.
  intros Hp Hne. induction s as [|c t IH]; [done|].
  simpl lstrip. destruct (isspace c) eqn:Hc; [|done].
  rewrite contains_cons. intros [Hs | Ht]%orb_true_iff; [|by apply IH].
  destruct p as [|a p]; [done|]. simpl in Hp, Hs.
  apply andb_true_iff in Hp as [Ha _]. apply andb_true_iff in Hs as [Hac _].
  apply ch_eqb_eq in Hac as ->. unfold printing in Ha. by rewrite Hc in Ha.
Qed.

(** Stripping keeps an occurrence of a value without white space. *)
Lemma contains_strip (p s : string) :
  all_chars printing p = true -> p <> "" ->
  contains p s = true -> contains p (strip s) = true.
Proof.
  intros Hp Hne Hs. by apply contains_rstrip, contains_lstrip.
Qed.

(** ** Letter case *)

Lemma upper_char_isspace (c : ascii) : isspace (upper_char c) = isspace c.
Proof. by destruct c as [[] [] [] [] [] [] [] []]. Qed.

Lemma upper_char_caseless (c : ascii) :
  caseless c = true -> upper_char c = c.
Proof. by destruct c as [[] [] [] [] [] [] [] []]. Qed.

Lemma upper_char_to_caseless (c x : ascii) :
  caseless x = true -> upper_char c = x -> c = x.
Proof.
  intros Hx <-. revert Hx. by destruct c as [[] [] [] [] [] [] [] []].
Qed.

Lemma upper_char_idem (c : ascii) : upper_char (upper_char c) = upper_char c.
Proof. by destruct c as [[] [] [] [] [] [] [] []]. Qed.

Lemma upper_idem (s : string) : upper (upper s) = upper s.
Proof.
  induction s as [|c s IH]; [done|]. simpl. by rewrite upper_char_idem, IH.
Qed.

Lemma lstrip_upper (s : string) : lstrip (upper s) = upper (lstrip s).
Proof.
  induction s as [|c s IH]; [done|]. simpl. rewrite upper_char_isspace.
  by destruct (isspace c).
Qed.

Lemma rstrip_upper (s : string) : rstrip (upper s) = upper (rstrip s).
Proof.
  induction s as [|c s IH]; [done|]. simpl upper. rewrite !rstrip_cons, IH.
  rewrite upper_char_isspace.
  destruct (rstrip s); [by destruct (isspace c) | done].
Qed.

Lemma strip_upper (s : string) : strip (upper s) = upper (strip s).
Proof. unfold strip. by rewrite lstrip_upper, rstrip_upper. Qed.

Lemma startswith_upper (p s : string) :
  all_chars caseless p = true -> startswith p (upper s) = startswith p s.
Proof.
  revert s. induction p as [|a p IH]; intros s Hp; [by destruct s|].
  destruct s as [|b t]; [done|]. simpl in *.
  apply andb_true_iff in Hp as [Ha Hp]. rewrite (IH t Hp). f_equal.
  destruct (ch_eqb a b) eqn:Hab.
  - apply ch_eqb_eq in Hab as <-. rewrite (upper_char_caseless a Ha).
    apply ch_eqb_refl.
  - apply not_true_is_false. intros Heq. apply ch_eqb_eq in Heq.
    symmetry in Heq. apply (upper_char_to_caseless b a Ha) in Heq as ->.
    by rewrite ch_eqb_refl in Hab.
Qed.

Lemma contains_upper (p s : string) :
  all_chars caseless p = true -> contains p (upper s) = contains p s.
Proof.
  intros Hp. induction s as [|c t IH].
  - by destruct p.
  - change (upper (String c t)) with (String (upper_char c) (upper t)).
    rewrite !contains_cons, IH.
    change (String (upper_char c) (upper t)) with (upper (String c t)).
    by rewrite startswith_upper.
Qed.

Lemma forbidden_printing (seq : string) :
  In seq FORBIDDEN_SEQUENCES ->
  all_chars printing seq = true /\ all_chars caseless seq = true /\ seq <> "".
Proof.
  intros [<- | [<- | [<- | [<- | []]]]]; by vm_compute.
Qed.

(** The verdict of the screener in terms of the uppercased trimmed
    value only. *)
Lemma reject_injection_upper (s : string) :
  reject_injection (Some s)
  = if existsb (fun seq => contains seq (upper (strip s))) FORBIDDEN_SEQUENCES
       || existsb (keyword_matches (upper (strip s))) SQL_KEYWORDS
    then Raised INJECTION_MESSAGE else Passed.
Proof.
  unfold reject_injection. rewrite or_empty_Some.
  assert (existsb (fun seq => contains seq (upper (strip s)))
            FORBIDDEN_SEQUENCES
          = existsb (fun seq => contains seq (strip s)) FORBIDDEN_SEQUENCES)
    as ->.
  { apply existsb_agree. intros seq Hin. apply contains_upper.
    by apply forbidden_printing. }
  destruct (existsb _ FORBIDDEN_SEQUENCES); [done|].
  by destruct (existsb _ SQL_KEYWORDS).
Qed.

Lemma chain_fails (validators : list validator) (d : option string)
    (v : validator) :
  In v validators -> v d <> Passed -> field_validate validators d = false.
Proof.
  intros Hin Hv. apply not_true_is_false. intros Hall%field_validate_iff.
  rewrite Forall_forall in Hall. apply Hv, Hall. by apply list_elem_of_In.
Qed.

End CaseFacts.

Section ScreenerCoverage.
Import Str Wtf Screener StrFacts StripFacts ScreenerFacts ValidatorFacts.
Import Notions CaseFacts.

(** X1. A value that contains [--], [;], [/*] or [*/] anywhere, before any
    trimming, is refused by the screener, and with it each of the three
    contact fields and every contact form that carries it, whatever the
    e-mail check says. *)
Theorem literal_anywhere_refused (check : string -> bool) (s seq : string) :
  In seq FORBIDDEN_SEQUENCES ->
  contains seq s = true ->
  reject_injection (Some s) = Raised INJECTION_MESSAGE
  /\ field_validate ContactForm.fname_validators (Some s) = false
  /\ field_validate ContactForm.lname_validators (Some s) = false
  /\ field_validate (ContactForm.email_validators check) (Some s) = false
  /\ (forall form,
        ContactForm.fname form = Some s \/ ContactForm.lname form = Some s
        \/ ContactForm.email form = Some s ->
        ContactForm.validate check form = false).
Proof.
  intros Hin Hc. destruct (forbidden_printing seq Hin) as [Hp [_ Hne]].
  assert (reject_injection (Some s) = Raised INJECTION_MESSAGE) as Hr.
  { unfold reject_injection. rewrite or_empty_Some.
    assert (existsb (fun seq => contains seq (strip s)) FORBIDDEN_SEQUENCES
            = true) as ->; [|done].
    apply existsb_exists. exists seq. split; [done|].
    by apply contains_strip. }
  assert (forall vs, In reject_injection vs ->
            field_validate vs (Some s) = false) as Hf.
  { intros vs Hvs. apply (chain_fails vs _ reject_injection Hvs).
    by rewrite Hr. }
  assert (field_validate ContactForm.fname_validators (Some s) = false)
    as H1 by (apply Hf; simpl; auto).
  assert (field_validate ContactForm.lname_validators (Some s) = false)
    as H2 by (apply Hf; simpl; auto).
  assert (field_validate (ContactForm.email_validators check) (Some s)
          = false) as H3 by (apply Hf; simpl; auto).
  repeat split; try done.
  intros form Hform. unfold ContactForm.validate.
  destruct Hform as [-> | [-> | ->]].
  - by rewrite H1.
  - by rewrite H2, andb_false_r.
  - by rewrite H3, andb_false_r.
Qed.

(** X2. The verdict of the screener depends on the uppercased value only:
    two values that differ in letter case alone get the same verdict, and
    a value gets the verdict of its uppercased form. *)
Theorem screening_ignores_letter_case (s t : string) :
  (upper s = upper t ->
   reject_injection (Some s) = reject_injection (Some t))
  /\ reject_injection (Some (upper s)) = reject_injection (Some s).
Proof.
  assert (forall a b, upper a = upper b ->
            reject_injection (Some a) = reject_injection (Some b)) as Hcase.
  { intros a b Hab. rewrite !reject_injection_upper.
    by rewrite <- !strip_upper, Hab. }
  split; [apply Hcase|]. apply Hcase, upper_idem.
Qed.

(** X3. The pattern [^[class]+$] under [re.match] accepts exactly the
    values made of one or more characters of the class, and those values
    followed by one newline; the [Regexp] validator passes on exactly
    these. *)
Theorem class_pattern_accepts (class : ascii -> bool) (message s : string) :
  (match_class_plus class s = true
   <-> exists body,
         body <> "" /\ all_chars class body = true
         /\ (s = body \/ s = body +:+ String "010" ""))
  /\ (Regexp class message (Some s) = Passed
      <-> match_class_plus class s = true).
Proof.
  split; [|apply Regexp_Some]. split.
  - intros Hm. destruct s as [|c t]; [done|]. simpl in Hm.
    apply andb_true_iff in Hm as [Hc Ht].
    destruct (match_class_star_end_inv _ _ Ht) as [body [Hb Hall]].
    exists (String c body). split; [done|]. split.
    + simpl. by rewrite Hc, Hall.
    + destruct Hb as [-> | ->]; [by left | by right].
  - intros [body [Hne [Hall [-> | ->]]]].
    + by apply all_chars_match_plus.
    + destruct body as [|c t]; [done|]. simpl in Hall.
      apply andb_true_iff in Hall as [Hc Ht]. rewrite app_cons. simpl.
      rewrite Hc. simpl. clear Hne Hc.
      induction t as [|x t IH]; [done|]. rewrite app_cons. simpl in *.
      apply andb_true_iff in Ht as [Hx Ht].
      destruct (ch_eqb x "010" && String.eqb (t +:+ String "010" "") "");
        [done|]. by rewrite Hx, IH.
Qed.

Lemma DataRequired_blank (m : string) (d : option string) :
  blank d = true -> DataRequired m d = Stopped m.
Proof.
  destruct d as [s|]; [|done]. simpl. intros Hb%String.eqb_eq.
  unfold DataRequired, truthy. rewrite Hb. simpl. by rewrite andb_false_r.
Qed.

(** X4. For a field that is missing, empty or made of white space only,
    validation stops at [DataRequired]: the field reports its required
    message and nothing else, the later validators do not add theirs, and
    a form with such a field is invalid. *)
Theorem blank_field_reports_required_only (check : string -> bool)
    (d : option string) :
  blank d = true ->
  run_validation_chain ContactForm.fname_validators d
  = ["First name is required."]
  /\ run_validation_chain ContactForm.lname_validators d
     = ["Last name is required."]
  /\ run_validation_chain (ContactForm.email_validators check) d
     = ["Email is required."]
  /\ run_validation_chain LoginForm.username_validators d = [REQUIRED_MESSAGE]
  /\ run_validation_chain LoginForm.password_validators d = [REQUIRED_MESSAGE]
  /\ (forall form,
        ContactForm.fname form = d \/ ContactForm.lname form = d
        \/ ContactForm.email form = d ->
        ContactForm.validate check form = false)
  /\ (forall form,
        LoginForm.username form = d \/ LoginForm.password form = d ->
        LoginForm.validate form = false).
Proof.
  intros Hb.
  assert (forall m vs, run_validation_chain (DataRequired m :: vs) d = [m])
    as Hstop.
  { intros m vs. simpl. by rewrite (DataRequired_blank m d Hb). }
  assert (forall m vs, field_validate (DataRequired m :: vs) d = false)
    as Hinv.
  { intros m vs. unfold field_validate. by rewrite Hstop. }
  repeat split; try apply Hstop.
  - intros form Hform. unfold ContactForm.validate,
      ContactForm.fname_validators, ContactForm.lname_validators,
      ContactForm.email_validators.
    destruct Hform as [-> | [-> | ->]]; rewrite Hinv;
      by rewrite ?andb_false_r.
  - intros form Hform. unfold LoginForm.validate,
      LoginForm.username_validators, LoginForm.password_validators.
    destruct Hform as [-> | ->]; rewrite Hinv; by rewrite ?andb_false_r.
Qed.

End ScreenerCoverage.

(** A name with a semicolon inside and white space around. *)
Lemma literal_anywhere_refused_witness :
  In ";" Screener.FORBIDDEN_SEQUENCES
  /\ Str.contains ";" "  Anne; Marie " = true
  /\ Screener.reject_injection (Some "  Anne; Marie ")
     = Wtf.Raised Screener.INJECTION_MESSAGE
  /\ ContactForm.validate Sample.toy_email
       {| ContactForm.fname := Some "  Anne; Marie ";
          ContactForm.lname := Some "Doe";
          ContactForm.email := Some "anne@example.com" |} = false.
Proof.
  assert (In ";" Screener.FORBIDDEN_SEQUENCES) as Hin by (simpl; auto).
  split; [exact Hin|]. split; [reflexivity|].
  destruct (literal_anywhere_refused Sample.toy_email "  Anne; Marie " ";"
              Hin eq_refl) as [Hr [_ [_ [_ Hform]]]].
  split; [exact Hr|]. apply Hform. by left.
Defined.

(** A keyword before a word, in two spellings. *)
Lemma screening_ignores_letter_case_witness :
  Str.upper "DrOp table" = Str.upper "drop TABLE"
  /\ Screener.reject_injection (Some "DrOp table")
     = Screener.reject_injection (Some "drop TABLE")
  /\ Screener.reject_injection (Some "drop TABLE")
     = Wtf.Raised Screener.INJECTION_MESSAGE.
Proof.
  destruct (screening_ignores_letter_case "DrOp table" "drop TABLE")
    as [Hcase _].
  split; [reflexivity|]. split; [by apply Hcase | reflexivity].
Defined.

(** A first name of three spaces. *)
Lemma blank_field_reports_required_only_witness :
  Notions.blank (Some "   ") = true
  /\ Wtf.run_validation_chain ContactForm.fname_validators (Some "   ")
     = ["First name is required."]
  /\ ContactForm.validate Sample.toy_email
       {| ContactForm.fname := Some "   ";
          ContactForm.lname := Some "Doe";
          ContactForm.email := Some "anne@example.com" |} = false.
Proof.
  destruct (blank_field_reports_required_only Sample.toy_email (Some "   ")
              eq_refl) as [Hf [_ [_ [_ [_ [Hform _]]]]]].
  split; [reflexivity|]. split; [exact Hf|]. apply Hform. by left.
Defined.

(* ===================================================================== *)
(** * What the views leave alone *)
(* ===================================================================== *)

Module FrameFacts.
Import Str Wtf App Outcome Notions AppFacts SeedFacts ValidatorFacts.

Lemma chain_valid_no_error (validators : list validator) (d : option string) :
  field_validate validators d = true -> run_validation_chain validators d = [].
Proof. unfold field_validate. by destruct (run_validation_chain validators d). Qed.

Lemma LoginForm_errors_valid (form : LoginForm.t) :
  LoginForm.validate form = true -> LoginForm.errors form = [].
Proof.
  unfold LoginForm.validate, LoginForm.errors.
  intros [Hu Hp]%andb_true_iff.
  by rewrite (chain_valid_no_error _ _ Hu), (chain_valid_no_error _ _ Hp).
Qed.

Lemma validate_on_submit_GET (valid : bool) : validate_on_submit GET valid = false.
Proof. done. Qed.

(** The length that the login form allows for a password. *)
Lemma LoginForm_password_length (form : LoginForm.t) :
  LoginForm.validate form = true ->
  exists p, LoginForm.password form = Some p /\ (8 <= len p <= 128)%nat.
Proof.
  unfold LoginForm.validate. intros [_ Hp]%andb_true_iff.
  apply field_validate_iff in Hp.
  apply Forall_cons in Hp as [Hreq Hp]. apply Forall_cons in Hp as [Hp _].
  destruct (LoginForm.password form) as [p|]; [|done].
  exists p. split; [done|]. apply Length_Some in Hp. lia.
Qed.

Section Frame.
Context `{Libraries} `{Environ}.

Lemma login_frame (e : Entropy) (method : Method)
    (args : gmap string string) (form : LoginForm.t) (w : World) :
  users (login e method args form w).2 = users w
  /\ _admin_seeded (login e method args form w).2 = _admin_seeded w.
Proof.
  unfold login. run_handler. destruct (validate_on_submit method _).
  - run_handler.
    destruct (first_by_username _ (users w)) as [u|]; [|done].
    by destruct (User.check_password u _) as [[|]|].
  - run_handler. by destruct (is_post method).
Qed.

Lemma index_frame (e : Entropy) (method : Method) (form : ContactForm.t)
    (w : World) :
  users (index e method form w).2 = users w
  /\ _admin_seeded (index e method form w).2 = _admin_seeded w.
Proof.
  destruct (validate_on_submit method
              (ContactForm.validate validate_email form)) eqn:Hv.
  - by rewrite (index_valid e method form w Hv).
  - rewrite (index_invalid e method form w Hv). by destruct (is_post method).
Qed.

Lemma update_frame (e : Entropy) (method : Method) (sno : N)
    (form : ContactForm.t) (w : World) :
  users (update e method sno form w).2 = users w
  /\ _admin_seeded (update e method sno form w).2 = _admin_seeded w.
Proof.
  destruct (first_app w !! sno) as [rec|] eqn:Hrec.
  - destruct (validate_on_submit method
                (ContactForm.validate validate_email form)) eqn:Hv.
    + by rewrite (update_valid e method sno form rec w Hrec Hv).
    + rewrite (update_invalid e method sno form rec w Hrec Hv).
      by destruct (is_post method).
  - by rewrite update_missing.
Qed.

Lemma delete_frame (sno : N) (w : World) :
  users (delete sno w).2 = users w
  /\ _admin_seeded (delete sno w).2 = _admin_seeded w.
Proof.
  destruct (first_app w !! sno) as [rec|] eqn:Hrec.
  - by rewrite (delete_present sno rec w Hrec).
  - by rewrite delete_missing.
Qed.

Lemma login_required_frame (path : string) (view_func : Handler Response)
    (w : World) :
  users (view_func w).2 = users w
  /\ _admin_seeded (view_func w).2 = _admin_seeded w ->
  users (login_required path view_func w).2 = users w
  /\ _admin_seeded (login_required path view_func w).2 = _admin_seeded w.
Proof.
  intros Hview. destruct (truthy_value (session w !! "user_id")) eqn:Hauth.
  - by rewrite login_required_authenticated.
  - by rewrite login_required_anonymous.
Qed.

(** No view writes the users table or the flag of the seed routine. *)
Lemma dispatch_frame (e : Entropy) (req : Request) (w : World) :
  users (dispatch_request e req w).2 = users w
  /\ _admin_seeded (dispatch_request e req w).2 = _admin_seeded w.
Proof.
  unfold dispatch_request.
  destruct (route req) as [m f | | m f | sno | m sno f].
  - apply login_frame.
  - by apply login_required_frame.
  - apply login_required_frame, index_frame.
  - apply login_required_frame, delete_frame.
  - apply login_required_frame, update_frame.
Qed.

Lemma full_dispatch_admitted_state (e : Entropy) (req : Request) (w : World) :
  is_post (request_method (route req)) && negb (csrf_valid req) = false ->
  seed_passes e w ->
  (full_dispatch_request e req w).2
  = (dispatch_request e req (bootstrap_seed_admin e w).2).2.
Proof.
  intros Hcsrf Hseed. rewrite (full_dispatch_admitted e req w Hcsrf Hseed).
  by destruct (dispatch_request e req (bootstrap_seed_admin e w).2)
    as [[r|st] w'].
Qed.

Lemma bootstrap_seeded (e : Entropy) (w : World) :
  _admin_seeded w = true -> (bootstrap_seed_admin e w).2 = w.
Proof. intros Hs. rewrite bootstrap_seed_admin_run. by rewrite Hs. Qed.

(** The session after a view that may have built a form. *)
Lemma with_csrf_session_kept (e : Entropy) (w : World) :
  is_Some (session w !! "csrf_token") -> with_session (csrf_session e) w = w.
Proof.
  intros Htoken. unfold with_session. rewrite csrf_session_kept by done.
  apply world_eta.
Qed.

End Frame.
End FrameFacts.

(* ===================================================================== *)
(** * More on the guard, the login and the logout *)
(* ===================================================================== *)

Section SessionCoverage.
Context `{Libraries} `{Environ}.
Import Str Wtf App Outcome Notions AppFacts SeedFacts ValidatorFacts FrameFacts.
Import Bcrypt BcryptFacts.

(** X5. A login whose form is valid is turned down in the same way
    whether no account has the name or an account has it and the password
    does not verify: the two requests get the same response and leave the
    same state, so that the answer does not tell which names exist.  The
    response is the login page without an error on a field; no table is
    written and the session gets no user id.  That is so where the check
    of the password returns.  For a password of more than 72 bytes, which
    the form lets through up to 128 characters, the check raises when an
    account has the name: that request ends with status 500, while the
    one for a name that nobody has still gets the page, and the two are
    told apart. *)
Theorem failed_login_answers (e : Entropy) (method : Method)
    (args : gmap string string) (unknown known : LoginForm.t) (w : World)
    (u : User.t) :
  validate_on_submit method (LoginForm.validate unknown) = true ->
  validate_on_submit method (LoginForm.validate known) = true ->
  first_by_username (strip (data (LoginForm.username unknown))) (users w)
  = None ->
  first_by_username (strip (data (LoginForm.username known))) (users w)
  = Some u ->
  (login e method args unknown w).1
  = Return (Rendered 200 "login.html" [] [])
  /\ users (login e method args unknown w).2 = users w
  /\ first_app (login e method args unknown w).2 = first_app w
  /\ session (login e method args unknown w).2 !! "user_id"
     = session w !! "user_id"
  /\ (User.check_password u (data (LoginForm.password known)) = Some false ->
      login e method args known w = login e method args unknown w)
  /\ ((PASSWORD_LIMIT < len (data (LoginForm.password known)))%nat ->
      (login e method args known w).1 = Abort 500%N
      /\ (login e method args known w).1
         <> (login e method args unknown w).1).
Proof.
  intros Hunknown Hknown Hnone Hsome.
  assert (forall form,
            validate_on_submit method (LoginForm.validate form) = true ->
            (if is_post method then LoginForm.errors form else []) = [])
    as Herrors.
  { intros form [-> Hform]%andb_true_iff.
    by apply LoginForm_errors_valid. }
  pose proof (login_failed e method args unknown w Hunknown (or_introl Hnone))
    as Hrun.
  rewrite (Herrors unknown Hunknown) in Hrun. rewrite !Hrun.
  cbn [fst snd with_session session users first_app].
  split; [done|]. split; [done|]. split; [done|]. split.
  { by rewrite flashed_other, csrf_session_other. }
  split.
  - intros Hfalse.
    rewrite (login_failed e method args known w Hknown).
    + by rewrite (Herrors known Hknown).
    + right. by exists u.
  - intros Hlong.
    rewrite (login_raises e method args known w u Hknown Hsome).
    + by split.
    + unfold User.check_password, check_password_hash.
      by rewrite hashpw_long.
Qed.

(** X6. Right after a successful login the guard lets every view run when
    the id of the user is not 0; an id of 0 is falsy for
    [session.get("user_id")], and the guard then redirects to login although
    the login succeeded. *)
Theorem guard_after_login (e : Entropy) (method : Method)
    (args : gmap string string) (form : LoginForm.t) (w : World)
    (u : User.t) (path : string) (view_func : Handler Response) :
  validate_on_submit method (LoginForm.validate form) = true ->
  first_by_username (strip (data (LoginForm.username form))) (users w)
  = Some u ->
  User.check_password u (data (LoginForm.password form)) = Some true ->
  (User.id u <> 0 ->
   login_required path view_func (login e method args form w).2
   = view_func (login e method args form w).2)
  /\ (User.id u = 0 ->
      (login_required path view_func (login e method args form w).2).1
      = Return (to_login path)).
Proof.
  intros Hvalid Hfind Hcheck.
  rewrite (login_success e method args form w u Hvalid Hfind Hcheck).
  cbn [snd]. split.
  - intros Hid. apply login_required_authenticated.
    cbn [with_session session]. unfold login_session.
    rewrite !lookup_insert_ne, lookup_insert_eq by done. simpl.
    apply negb_true_iff. by apply Z.eqb_neq.
  - intros Hid. rewrite login_required_anonymous; [done|].
    cbn [with_session session]. unfold login_session.
    rewrite !lookup_insert_ne, lookup_insert_eq by done. simpl.
    by rewrite Hid.
Qed.

(** X7. For a caller who is logged in, logout empties the session, leaves
    only its notice in it and writes no table; the guard then redirects
    every further view to login.  The logout route answers a GET, so the
    dispatcher runs it whether or not the request has a valid
    anti-forgery token, for every request that gets past the seed
    routine. *)
Theorem logout_ends_the_session (e : Entropy) (args : gmap string string)
    (token : bool) (w : World) (path : string)
    (view_func : Handler Response) :
  truthy_value (session w !! "user_id") = true ->
  login_required "/logout" logout w
  = (Return (Redirect (UrlFor "login" [])),
     with_session
       (fun _ => flashed "You have been logged out." "info" ∅) w)
  /\ session (login_required "/logout" logout w).2 !! "user_id" = None
  /\ (login_required path view_func (login_required "/logout" logout w).2).1
     = Return (to_login path)
  /\ (seed_passes e w ->
      (full_dispatch_request e
         {| route := Logout; args := args; csrf_valid := token |} w).1
      = Redirect (UrlFor "login" [])
      /\ session
           (full_dispatch_request e
              {| route := Logout; args := args; csrf_valid := token |} w).2
         = flashed "You have been logged out." "info" ∅).
Proof.
  intros Hauth.
  assert (login_required "/logout" logout w
          = (Return (Redirect (UrlFor "login" [])),
             with_session
               (fun _ => flashed "You have been logged out." "info" ∅) w))
    as Hout.
  { by rewrite (login_required_authenticated _ _ _ Hauth). }
  rewrite Hout. cbn [snd with_session session].
  split; [done|]. split; [done|]. split.
  { by rewrite login_required_anonymous. }
  intros Hseed. rewrite full_dispatch_admitted by done.
  destruct (bootstrap_keeps e w) as [Hs _].
  unfold dispatch_request. cbn [route request_path].
  rewrite login_required_authenticated by by rewrite Hs.
  by rewrite logout_run.
Qed.

(** X8. A GET of the login page, of the index or of the update page of a
    row, by a caller who is logged in and once the seed routine has run,
    writes no table and no flag.  In the session it can write one thing,
    the anti-forgery token: the view builds a form, and a session that has
    no token gets one, while a token that is there is kept.  What a
    template does with the notices that wait in the session is not part
    of the model, so the session is compared on the other keys; with a
    token and without a notice in the session, the state after the request
    is the state before. *)
Theorem get_writes_only_the_token (e : Entropy) (req : Request) (w : World) :
  request_method (route req) = GET ->
  route req <> Logout ->
  _admin_seeded w = true ->
  truthy_value (session w !! "user_id") = true ->
  first_app (full_dispatch_request e req w).2 = first_app w
  /\ users (full_dispatch_request e req w).2 = users w
  /\ _admin_seeded (full_dispatch_request e req w).2 = true
  /\ (forall key, key <> "csrf_token" -> key <> "_flashes" ->
        session (full_dispatch_request e req w).2 !! key = session w !! key)
  /\ (forall token,
        session w !! "csrf_token" = Some token ->
        session (full_dispatch_request e req w).2 !! "csrf_token"
        = Some token)
  /\ (is_Some (session w !! "csrf_token") ->
      session w !! "_flashes" = None ->
      (full_dispatch_request e req w).2 = w)
  /\ (forall form,
        route req = Index GET form ->
        (full_dispatch_request e req w).1
        = Rendered 200 "index.html" [] (listing w)
        /\ (session w !! "csrf_token" = None ->
            session (full_dispatch_request e req w).2 !! "csrf_token"
            = Some (VStr (urandom_hex e)))).
Proof.
  intros Hget Hroute Hseeded Hauth.
  assert (is_post (request_method (route req)) && negb (csrf_valid req)
          = false) as Hcsrf by by rewrite Hget.
  pose proof (seed_passes_seeded e w Hseeded) as Hseed.
  assert ((full_dispatch_request e req w).2 = w
          \/ (full_dispatch_request e req w).2
             = with_session (csrf_session e) w) as Hstate.
  { rewrite (full_dispatch_admitted_state e req w Hcsrf Hseed).
    rewrite (bootstrap_seeded e w Hseeded). unfold dispatch_request.
    destruct (route req) as [m f | | m f | sno | m sno f]; simpl in Hget;
      subst; try done; cbv beta iota zeta.
    - right. by rewrite (login_invalid e GET).
    - right. rewrite login_required_authenticated by done.
      by rewrite (index_invalid e GET).
    - rewrite login_required_authenticated by done.
      destruct (first_app w !! sno) as [rec|] eqn:Hrec.
      + right. by rewrite (update_invalid e GET sno f rec w Hrec).
      + left. by rewrite update_missing. }
  split; [by destruct Hstate as [-> | ->]|].
  split; [by destruct Hstate as [-> | ->]|].
  split; [by destruct Hstate as [-> | ->]|].
  split.
  { intros key Hkey _. destruct Hstate as [-> | ->]; [done|].
    cbn [with_session session]. by apply csrf_session_other. }
  split.
  { intros token Htoken. destruct Hstate as [-> | ->]; [done|].
    cbn [with_session session]. rewrite csrf_session_kept; [done|].
    by rewrite Htoken. }
  split.
  { intros Hhas _. destruct Hstate as [-> | ->]; [done|].
    by apply with_csrf_session_kept. }
  intros form Hindex. rewrite (full_dispatch_admitted e req w Hcsrf Hseed).
  rewrite (bootstrap_seeded e w Hseeded). unfold dispatch_request.
  rewrite Hindex. cbv beta iota zeta.
  rewrite login_required_authenticated by done.
  rewrite (index_invalid e GET) by done. cbn [fst snd]. split; [done|].
  intros Hnone. cbn [is_post with_session session].
  rewrite csrf_session_new by done. apply lookup_insert_eq.
Qed.

(** X9. The seed routine runs with the requests that the process admits
    until it returns, and never again.  A refused submission changes
    nothing and does not count.  Once the flag is set no request changes
    the users table.  While it is not set, a request whose seed routine
    returns leaves the flag set and the users table as the routine made
    it; a request whose seed routine raises is answered with the page of
    status 500 and leaves the tables and the flag as they were, so that
    the next request runs the routine again. *)
Theorem seed_runs_until_it_returns (e : Entropy) (req : Request) (w : World) :
  (is_post (request_method (route req)) = true ->
   csrf_valid req = false ->
   full_dispatch_request e req w = (ErrorResponse 400, w))
  /\ (is_post (request_method (route req)) && negb (csrf_valid req) = false ->
      (_admin_seeded w = true ->
       _admin_seeded (full_dispatch_request e req w).2 = true
       /\ users (full_dispatch_request e req w).2 = users w)
      /\ (_admin_seeded w = false ->
          (ensure_seed_admin e w).1 = Return tt ->
          _admin_seeded (full_dispatch_request e req w).2 = true
          /\ users (full_dispatch_request e req w).2
             = users (ensure_seed_admin e w).2)
      /\ (_admin_seeded w = false ->
          (ensure_seed_admin e w).1 = Abort 500%N ->
          (full_dispatch_request e req w).1 = Rendered 500 "500.html" [] []
          /\ _admin_seeded (full_dispatch_request e req w).2 = false
          /\ users (full_dispatch_request e req w).2 = users w
          /\ first_app (full_dispatch_request e req w).2 = first_app w)).
Proof.
  split; [apply full_dispatch_refused|].
  intros Hcsrf.
  pose proof (bootstrap_seed_admin_run e w) as Hboot.
  pose proof (ensure_seed_admin_run e w) as Hrun.
  split; [|split].
  - intros Hs. pose proof (seed_passes_seeded e w Hs) as Hseed.
    rewrite (full_dispatch_admitted_state e req w Hcsrf Hseed).
    destruct (dispatch_frame e req (bootstrap_seed_admin e w).2) as [-> ->].
    by rewrite (bootstrap_seeded e w Hs).
  - intros Hs Hreturns. rewrite Hs in Hboot. rewrite Hrun in Hreturns |- *.
    destruct (seeded_users e (users w)) as [l|]; [|done].
    assert (seed_passes e w) as Hseed.
    { unfold seed_passes. by rewrite Hboot. }
    rewrite (full_dispatch_admitted_state e req w Hcsrf Hseed).
    destruct (dispatch_frame e req (bootstrap_seed_admin e w).2) as [-> ->].
    by rewrite Hboot.
  - intros Hs Hraises. rewrite Hs in Hboot. rewrite Hrun in Hraises.
    rewrite full_dispatch_seed_raises; [done | done |]. rewrite Hboot.
    by destruct (seeded_users e (users w)).
Qed.

End SessionCoverage.

(* ===================================================================== *)
(** * More on the users table *)
(* ===================================================================== *)

Module AccountFacts.
Import Str App Outcome Notions AppFacts SeedFacts UsersFacts FrameFacts.

Lemma next_id_positive (l : list User.t) : 1 <= next_id l.
Proof. unfold next_id. induction l as [|x l IH]; simpl; lia. Qed.

Section Accounts.
Context `{Libraries} `{Environ}.

(** What [set_password] returns is the row with another hash. *)
Lemma set_password_row (salt : string) (u c : User.t) (p : string) :
  User.set_password salt u p = Some c ->
  exists h, c = User.with_password_hash h u.
Proof.
  unfold User.set_password.
  destruct (Bcrypt.generate_password_hash eks_digest salt p) as [h|];
    [|done].
  intros [= <-]. by exists h.
Qed.

(** The cases of the table that the routine writes. *)
Lemma seeded_users_cases (e : Entropy) (l l' : list User.t) :
  seeded_users e l = Some l' ->
  l' = l
  \/ (exists u h,
        first_by_username DEFAULT_ADMIN_USERNAME l = Some u
        /\ l' = store_user (User.with_password_hash h u) l)
  \/ (exists h,
        first_by_username DEFAULT_ADMIN_USERNAME l = None
        /\ l' = l ++ [{| User.id := next_id l;
                         User.username := DEFAULT_ADMIN_USERNAME;
                         User.password_hash := h;
                         User.created_at := utcnow e |}]).
Proof.
  unfold seeded_users.
  destruct (first_by_username DEFAULT_ADMIN_USERNAME l) as [u|] eqn:Hf.
  - destruct (User.check_password u DEFAULT_ADMIN_PASSWORD) as [[|]|];
      cbn; [intros [= <-]; by left | | done].
    destruct (User.set_password (gensalt e) u DEFAULT_ADMIN_PASSWORD)
      as [c|] eqn:Hset; cbn; [|done].
    apply set_password_row in Hset as [h ->]. intros [= <-].
    right; left. by exists u, h.
  - destruct (User.set_password (gensalt e)
                (User.unsaved DEFAULT_ADMIN_USERNAME) DEFAULT_ADMIN_PASSWORD)
      as [c|] eqn:Hset; cbn; [|done].
    apply set_password_row in Hset as [h ->]. intros [= <-].
    right; right. by exists h.
Qed.

Lemma seeded_users_ids (e : Entropy) (l l' : list User.t) :
  seeded_users e l = Some l' ->
  Forall (fun i => 1 <= i) (List.map User.id l) ->
  Forall (fun i => 1 <= i) (List.map User.id l').
Proof.
  intros Hrun Hl.
  destruct (seeded_users_cases e l l' Hrun)
    as [-> | [[u [h [_ ->]]] | [h [_ ->]]]]; [done | |].
  - by rewrite store_user_ids.
  - rewrite map_app. apply Forall_app. split; [done|].
    apply Forall_cons. split; [apply next_id_positive | apply Forall_nil_2].
Qed.

(** A request leaves the users table as it was, or as the seed routine
    makes it. *)
Lemma full_dispatch_users (e : Entropy) (req : Request) (w : World) :
  users (full_dispatch_request e req w).2 = users w
  \/ seeded_users e (users w) = Some (users (full_dispatch_request e req w).2).
Proof.
  destruct (is_post (request_method (route req)) && negb (csrf_valid req))
    eqn:Hcsrf.
  - apply andb_true_iff in Hcsrf as [Hpost Hcsrf].
    apply negb_true_iff in Hcsrf. left. by rewrite full_dispatch_refused.
  - destruct (seed_passes_or_raises e w) as [Hseed | [Hraise _]].
    + rewrite (full_dispatch_admitted_state e req w Hcsrf Hseed).
      destruct (dispatch_frame e req (bootstrap_seed_admin e w).2) as [-> _].
      rewrite bootstrap_seed_admin_run.
      destruct (_admin_seeded w); [by left|].
      destruct (seeded_users e (users w)); [by right | by left].
    + left. by rewrite full_dispatch_seed_raises.
Qed.

(** The accounts that do not have the administrator's name come through
    the seed routine as they are. *)
Lemma seeded_users_others (e : Entropy) (l l' : list User.t) (u : User.t) :
  NoDup (List.map User.id l) ->
  User.username u <> DEFAULT_ADMIN_USERNAME ->
  seeded_users e l = Some l' ->
  In u l' <-> In u l.
Proof.
  intros Hids Hname Hrun.
  destruct (seeded_users_cases e l l' Hrun)
    as [-> | [[a [h [Hf ->]]] | [h [_ ->]]]]; [done | |].
  - apply first_by_username_name in Hf as [Ha Hin].
    unfold store_user. rewrite in_map_iff.
    cbn [User.id User.with_password_hash].
    split.
    + intros [x [Hx Hxl]].
      destruct (User.id x =? User.id a); [|by subst].
      subst u. by destruct Hname.
    + intros Hu. exists u. split; [|done].
      destruct (Z.eqb_spec (User.id u) (User.id a)) as [Heq | Hne]; [|done].
      rewrite (NoDup_map_eq User.id l u a Hids Hu Hin Heq) in Hname.
      by destruct Hname.
  - rewrite in_app_iff. split; [|by left].
    intros [Hu | [<- | []]]; [done|]. by destruct Hname.
Qed.

End Accounts.
End AccountFacts.

Section AccountCoverage.
Context `{Libraries} `{Environ}.
Import Str App Outcome Notions AppFacts SeedFacts UsersFacts FrameFacts.
Import AccountFacts.

(** X10. On a users table with unique ids, the seed routine touches the
    administrator's account only: an account with another name is in the
    table after the run exactly when it was in it before, with the same
    columns. *)
Theorem seed_leaves_other_accounts (e : Entropy) (w : World) (u : User.t) :
  NoDup (List.map User.id (users w)) ->
  User.username u <> DEFAULT_ADMIN_USERNAME ->
  In u (users (ensure_seed_admin e w).2) <-> In u (users w).
Proof.
  intros Hids Hname. rewrite ensure_seed_admin_run.
  destruct (seeded_users e (users w)) as [l|] eqn:Hrun; [|done].
  cbn [snd with_users users]. by apply (seeded_users_others e (users w)).
Qed.

(** X11. In every state the application can be in, the users table keeps
    its constraints (no two accounts share an id or a name), at most one
    account has the administrator's name, and every id is at least 1, so
    that no stored account has the id 0 that the guard would take for an
    anonymous caller. *)
Theorem users_table_stays_consistent (w : World) :
  reachable w ->
  users_table_ok (users w)
  /\ (accounts_named DEFAULT_ADMIN_USERNAME (users w) <= 1)%nat
  /\ (forall u, In u (users w) -> 1 <= User.id u).
Proof.
  intros Hreach.
  assert (users_table_ok (users w)
          /\ Forall (fun i => 1 <= i) (List.map User.id (users w)))
    as [Hok Hids].
  { induction Hreach as [|e w Hw [IHok IHids]|e req s w Hw [IHok IHids]].
    - split; [split; apply NoDup_nil_2 | apply Forall_nil_2].
    - rewrite ensure_seed_admin_run. cbn [with_admin_seeded users].
      destruct (seeded_users e (users w)) as [l|] eqn:Hrun; [|done].
      cbn [snd with_users users].
      split; [by apply (seeded_users_table_ok e (users w))
             | by apply (seeded_users_ids e (users w))].
    - destruct (full_dispatch_users e req (with_session (fun _ => s) w))
        as [-> | Hrun]; cbn [with_session users] in *; [done|].
      split; [by apply (seeded_users_table_ok e (users w))
             | by apply (seeded_users_ids e (users w))]. }
  split; [done|]. split.
  - rewrite accounts_named_map. destruct Hok as [_ Hnames].
    destruct (in_dec String.string_dec DEFAULT_ADMIN_USERNAME
                (List.map User.username (users w))) as [Hin | Hout].
    + by rewrite filter_unique.
    + rewrite filter_absent by done. simpl. lia.
  - intros u Hu. rewrite Forall_forall in Hids. apply Hids.
    apply list_elem_of_In. by apply in_map.
Qed.

End AccountCoverage.

(* ===================================================================== *)
(** * More on the records: what is stored and how it is listed *)
(* ===================================================================== *)

Module RowFacts.
Import Str Wtf App Outcome Notions AppFacts SeedFacts ValidatorFacts.
Import StripFacts StoreFacts KeyFacts FrameFacts.

Lemma stored_value_strip (limit : nat) (s : string) :
  strip s <> "" -> (len s <= limit)%nat ->
  Screener.reject_injection (Some s) = Passed ->
  stored_value limit (strip s).
Proof.
  intros Hne Hlen Hpass. unfold stored_value.
  split; [apply strip_idem|]. split; [done|].
  split; [pose proof (strip_length s); lia|].
  by rewrite reject_injection_strip.
Qed.

Lemma key_le_total : Total key_le.
Proof. intros a b. unfold key_le. lia. Qed.

Lemma key_le_trans : Transitive key_le.
Proof. intros a b c. unfold key_le. lia. Qed.

Lemma listing_perm (w : World) : listing w ≡ₚ map_to_list (first_app w).
Proof. apply merge_sort_Permutation. Qed.

Lemma listing_elem (w : World) (k : N) (r : FirstApp.t) :
  (k, r) ∈ listing w <-> first_app w !! k = Some r.
Proof. by rewrite listing_perm, elem_of_map_to_list. Qed.

Lemma listing_sorted (w : World) : StronglySorted key_le (listing w).
Proof.
  apply (@StronglySorted_merge_sort _ key_le _ key_le_trans key_le_total).
Qed.

Lemma sorted_strict (l : list (N * FirstApp.t)) :
  StronglySorted key_le l -> NoDup (l.*1) ->
  StronglySorted (fun a b => (a.1 < b.1)%N) l.
Proof.
  induction 1 as [|x l Hl IH Hx]; [constructor|].
  rewrite fmap_cons. intros [Hnew Hnd]%NoDup_cons.
  constructor; [by apply IH|].
  rewrite Forall_forall in Hx. apply Forall_forall. intros y Hy.
  specialize (Hx y Hy). unfold key_le in Hx.
  assert (x.1 <> y.1); [|lia].
  intros Heq. apply Hnew. rewrite Heq. by apply list_elem_of_fmap_2.
Qed.

Section Rows.
Context `{Libraries} `{Environ}.

Lemma stripped_stored (form : ContactForm.t) :
  ContactForm.validate validate_email form = true ->
  stored_row (stripped form).
Proof.
  unfold ContactForm.validate.
  intros [[Hf Hl]%andb_true_iff He]%andb_true_iff.
  apply name_chain_iff in Hf as [f [Hfd [Hf1 [Hf2 [_ Hf4]]]]].
  apply name_chain_iff in Hl as [l [Hld [Hl1 [Hl2 [_ Hl4]]]]].
  apply email_chain_iff in He as [m [Hmd [Hm1 [_ [Hm3 Hm4]]]]].
  unfold stored_row, stripped. rewrite Hfd, Hld, Hmd.
  cbn [FirstApp.fname FirstApp.lname FirstApp.email data default].
  split; [by apply stored_value_strip|].
  split; by apply stored_value_strip.
Qed.

(** The table after an update, in every case. *)
Lemma update_table (e : Entropy) (method : Method) (sno : N)
    (form : ContactForm.t) (w : World) :
  first_app (update e method sno form w).2
  = match first_app w !! sno with
    | Some _ =>
        if validate_on_submit method
             (ContactForm.validate validate_email form)
        then <[sno := stripped form]> (first_app w)
        else first_app w
    | None => first_app w
    end.
Proof.
  destruct (first_app w !! sno) as [r|] eqn:Hr.
  - destruct (validate_on_submit method
                (ContactForm.validate validate_email form)) eqn:Hv.
    + by rewrite (update_valid e method sno form r w Hr Hv).
    + rewrite (update_invalid e method sno form r w Hr Hv).
      by destruct (is_post method).
  - by rewrite update_missing.
Qed.

Lemma index_table (e : Entropy) (method : Method) (form : ContactForm.t)
    (w : World) :
  first_app (index e method form w).2
  = if validate_on_submit method (ContactForm.validate validate_email form)
    then <[next_sno (first_app w) := stripped form]> (first_app w)
    else first_app w.
Proof.
  destruct (validate_on_submit method
              (ContactForm.validate validate_email form)) eqn:Hv.
  - by rewrite (index_valid e method form w Hv).
  - rewrite (index_invalid e method form w Hv). by destruct (is_post method).
Qed.

(** A property of the rows that the stored form of a valid form has is
    kept by every view. *)
Lemma dispatch_rows (Q : FirstApp.t -> Prop) (e : Entropy) (req : Request)
    (w : World) :
  (forall form,
     ContactForm.validate validate_email form = true -> Q (stripped form)) ->
  map_Forall (fun _ rec => Q rec) (first_app w) ->
  map_Forall (fun _ rec => Q rec) (first_app (dispatch_request e req w).2).
Proof.
  intros Hnew Hw. unfold dispatch_request.
  destruct (route req) as [m f | | m f | sno | m sno f].
  - by rewrite login_first_app.
  - by apply (login_required_first_app (map_Forall (fun _ rec => Q rec))).
  - apply (login_required_first_app (map_Forall (fun _ rec => Q rec)));
      [done|].
    rewrite index_table.
    destruct (validate_on_submit m (ContactForm.validate validate_email f))
      eqn:Hv; [|done].
    apply map_Forall_insert_2; [|done]. apply Hnew.
    unfold validate_on_submit in Hv. by apply andb_true_iff in Hv as [_ ?].
  - apply (login_required_first_app (map_Forall (fun _ rec => Q rec)));
      [done|].
    intros k rec Hk. apply delete_rows in Hk. by apply (Hw k).
  - apply (login_required_first_app (map_Forall (fun _ rec => Q rec)));
      [done|].
    rewrite update_table. destruct (first_app w !! sno) as [rec|]; [|done].
    destruct (validate_on_submit m (ContactForm.validate validate_email f))
      eqn:Hv; [|done].
    apply map_Forall_insert_2; [|done]. apply Hnew.
    unfold validate_on_submit in Hv. by apply andb_true_iff in Hv as [_ ?].
Qed.

End Rows.
End RowFacts.

Section RowCoverage.
Context `{Libraries} `{Environ}.
Import Str Wtf App Outcome Notions AppFacts SeedFacts ValidatorFacts.
Import StripFacts StoreFacts KeyFacts FrameFacts RowFacts.

(** X12. In every state the application can be in, and whatever the
    e-mail check accepts, each column of each row is stored trimmed and
    not empty, fits the length its column declares (100 for the names,
    200 for the e-mail) and is let through by the denylist. *)
Theorem stored_rows_trimmed_and_bounded (w : World) :
  reachable w -> map_Forall (fun _ rec => stored_row rec) (first_app w).
Proof.
  induction 1 as [|e w Hw IH|e req s w Hw IH].
  - apply map_Forall_empty.
  - rewrite ensure_seed_admin_run. by destruct (seeded_users e _).
  - apply (full_dispatch_first_app
             (map_Forall (fun _ rec => stored_row rec))); [done|].
    intros w1 Hw1. apply dispatch_rows; [apply stripped_stored|].
    by rewrite Hw1.
Qed.

(** X13. The index page lists each row of the table once, in strictly
    ascending order of the key, and nothing else. *)
Theorem listing_sorted_and_complete (w : World) :
  query_all w = (Return (listing w), w)
  /\ StronglySorted (fun a b => (a.1 < b.1)%N) (listing w)
  /\ (forall k r, (k, r) ∈ listing w <-> first_app w !! k = Some r)
  /\ length (listing w) = size (first_app w).
Proof.
  split; [done|]. split.
  - apply sorted_strict; [apply listing_sorted|].
    rewrite (listing_perm w). apply NoDup_fst_map_to_list.
  - split; [apply listing_elem|].
    by rewrite (listing_perm w), length_map_to_list.
Qed.


(** X15. After a delete request for an id that SQLite can store, whether
    the id was there or not, the id is not found: a second delete and an
    update abort with status 404 and change nothing. *)
Theorem deleted_id_is_not_found (e : Entropy) (method : Method) (sno : N)
    (form : ContactForm.t) (w : World) :
  (sno <= SQLITE_MAX_INTEGER)%N ->
  first_app (delete sno w).2 !! sno = None
  /\ delete sno (delete sno w).2 = (Abort 404%N, (delete sno w).2)
  /\ update e method sno form (delete sno w).2
     = (Abort 404%N, (delete sno w).2).
Proof.
  intros Hfits.
  assert (first_app (delete sno w).2 !! sno = None) as Hgone.
  { destruct (first_app w !! sno) as [rec|] eqn:Hrec.
    - rewrite (delete_present sno rec w Hrec). cbn [snd first_app].
      apply lookup_delete_eq.
    - by rewrite delete_missing. }
  split; [done|]. split; [by apply delete_absent | by apply update_absent].
Qed.

(** X16. Update can be repeated: the same request a second time leaves the
    table as the first left it.  And a request that brings back the values
    a row already has, when these are trimmed, leaves the table as it
    was, whether the form validates or not. *)
Theorem update_repeats_and_resubmits (e : Entropy) (method : Method)
    (sno : N) (form : ContactForm.t) (rec : FirstApp.t) (w : World) :
  first_app (update e method sno form (update e method sno form w).2).2
  = first_app (update e method sno form w).2
  /\ (first_app w !! sno = Some rec ->
      strip (FirstApp.fname rec) = FirstApp.fname rec ->
      strip (FirstApp.lname rec) = FirstApp.lname rec ->
      strip (FirstApp.email rec) = FirstApp.email rec ->
      first_app (update e method sno (form_of rec) w).2 = first_app w).
Proof.
  split.
  - rewrite (update_table e method sno form (update e method sno form w).2).
    rewrite (update_table e method sno form w).
    destruct (first_app w !! sno) as [r|] eqn:Hr; [|by rewrite Hr].
    destruct (validate_on_submit method
                (ContactForm.validate validate_email form)); [|by rewrite Hr].
    rewrite lookup_insert_eq. apply insert_insert_eq.
  - intros Hr Hf Hl He. rewrite (update_table e method sno (form_of rec) w).
    rewrite Hr. destruct (validate_on_submit method _); [|done].
    unfold stripped, form_of, data. simpl.
    rewrite Hf, Hl, He. apply insert_id. by destruct rec.
Qed.

End RowCoverage.

(* ===================================================================== *)
(** * More on one-word values *)
(* ===================================================================== *)

Section WordCoverage.
Import Str Wtf Screener StrFacts ScreenerFacts.

Lemma spaced_contains (a b : string) :
  contains " " (a +:+ " " +:+ b) = true.
Proof. apply contains_iff. by exists a, b. Qed.

(** X18. For a value that has no space in it once trimmed, a single word,
    the keyword rule fires exactly when the whole word, uppercased, is one
    of the seven keywords; every keyword of the list is its own uppercased
    form, so that the comparison can succeed.  A longer word that contains
    a keyword passes the rule. *)
Theorem one_word_refused_iff_keyword (s : string) :
  contains " " (upper (strip s)) = false ->
  (existsb (keyword_matches (upper (strip s))) SQL_KEYWORDS = true
   <-> In (upper (strip s)) SQL_KEYWORDS)
  /\ Forall (fun keyword => upper keyword = keyword /\ keyword <> "")
       SQL_KEYWORDS.
Proof.
  intros Hword. split; [|by repeat constructor].
  rewrite existsb_exists. split.
  - intros [kw [Hin Hm]]. apply keyword_matches_iff in Hm.
    destruct Hm as [-> | [[b Hb] | [[a Ha] | [a [b Hab]]]]]; [done | | |].
    + rewrite Hb in Hword. by rewrite spaced_contains in Hword.
    + rewrite Ha in Hword. by rewrite spaced_contains in Hword.
    + rewrite Hab in Hword. by rewrite spaced_contains in Hword.
  - intros Hin. exists (upper (strip s)). split; [done|].
    apply keyword_matches_iff. by left.
Qed.

End WordCoverage.

(* ===================================================================== *)
(** * The properties above on the stand-ins *)
(* ===================================================================== *)

(** A wrong password for the administrator and a name nobody has: the
    same answer.  A password of 73 letters: the request ends with status
    500 for the administrator's name, and with the page for a name nobody
    has. *)
Lemma failed_login_answers_witness :
  let w := Sample.seeded_world in
  App.login (H := Sample.libraries) Sample.entropy2 App.POST ∅
    Scenario.wrong_login w
  = App.login (H := Sample.libraries) Sample.entropy2 App.POST ∅
      Scenario.nobody_login w
  /\ (App.login (H := Sample.libraries) Sample.entropy2 App.POST ∅
        Scenario.nobody_login w).1
     = App.Return (App.Rendered 200 "login.html" [] [])
  /\ (App.login (H := Sample.libraries) Sample.entropy2 App.POST ∅
        Scenario.long_nobody_login w).1
     = App.Return (App.Rendered 200 "login.html" [] [])
  /\ (App.login (H := Sample.libraries) Sample.entropy2 App.POST ∅
        Scenario.long_login w).1
     = App.Abort 500%N.
Proof.
  intros w.
  assert (exists u,
            App.first_by_username "i221693@nu.edu.pk" (App.users w) = Some u
            /\ User.check_password (H := Sample.libraries) u "wrongpass1"
               = Some false) as [u [Hu Hfalse]].
  { eexists. split; vm_compute; reflexivity. }
  destruct (failed_login_answers (H := Sample.libraries) Sample.entropy2
              App.POST ∅ Scenario.nobody_login Scenario.wrong_login w u
              eq_refl eq_refl eq_refl Hu) as [Hpage [_ [_ [_ [Hsame _]]]]].
  destruct (failed_login_answers (H := Sample.libraries) Sample.entropy2
              App.POST ∅ Scenario.long_nobody_login Scenario.long_login w u
              eq_refl eq_refl eq_refl Hu) as [Hpage' [_ [_ [_ [_ Hlong]]]]].
  split; [by apply Hsame|]. split; [exact Hpage|]. split; [exact Hpage'|].
  apply Hlong. vm_compute. lia.
Defined.

(** The administrator, whose id is 1, logs in and asks for the index. *)
Lemma guard_after_login_witness :
  let w := (App.login (H := Sample.libraries) Sample.entropy2 App.POST ∅
              Sample.admin_login Sample.seeded_world).2 in
  App.login_required "/"
    (App.index (H := Sample.libraries) Sample.entropy1 App.GET Sample.jane) w
  = App.index (H := Sample.libraries) Sample.entropy1 App.GET Sample.jane w.
Proof.
  intros w.
  assert (exists u, App.first_by_username
            (Str.strip (App.data (LoginForm.username Sample.admin_login)))
            (App.users Sample.seeded_world) = Some u
          /\ User.id u = 1
          /\ User.check_password (H := Sample.libraries) u
               (App.data (LoginForm.password Sample.admin_login))
             = Some true)
    as [u [Hfind [Hid Hcheck]]].
  { eexists. split; [vm_compute; reflexivity|].
    split; vm_compute; reflexivity. }
  destruct (guard_after_login (H := Sample.libraries) Sample.entropy2
              App.POST ∅ Sample.admin_login Sample.seeded_world u "/"
              (App.index (H := Sample.libraries) Sample.entropy1 App.GET
                 Sample.jane)
              eq_refl Hfind Hcheck) as [Hpass _].
  apply Hpass. rewrite Hid. discriminate.
Defined.

(** The caller of the office logs out, with a request that carries no
    valid token, and asks for the index again. *)
Lemma logout_ends_the_session_witness :
  App.truthy_value (App.session Scenario.office_world !! "user_id") = true
  /\ (App.full_dispatch_request (H := Sample.libraries)
        (H0 := Sample.no_environ) Sample.entropy1
        {| App.route := App.Logout; App.args := ∅; App.csrf_valid := false |}
        Scenario.office_world).1
     = App.Redirect (App.UrlFor "login" [])
  /\ (App.login_required "/"
        (App.index (H := Sample.libraries) Sample.entropy1 App.GET
           Sample.jane)
        (App.login_required "/logout" App.logout Scenario.office_world).2).1
     = App.Return (Outcome.to_login "/").
Proof.
  destruct (logout_ends_the_session (H := Sample.libraries)
              (H0 := Sample.no_environ) Sample.entropy1 ∅ false
              Scenario.office_world "/"
              (App.index (H := Sample.libraries) Sample.entropy1 App.GET
                 Sample.jane)
              eq_refl) as [_ [_ [Hguard Hout]]].
  split; [reflexivity|]. split; [|exact Hguard].
  apply Hout. vm_compute. reflexivity.
Defined.

(** The caller of the office looks at the index: nothing changes.  A
    caller who has just logged in looks at it: the session gets its
    token. *)
Lemma get_writes_only_the_token_witness :
  let look :=
    {| App.route := App.Index App.GET Sample.jane_drop; App.args := ∅;
       App.csrf_valid := false |} in
  let arrival :=
    App.with_session (fun _ => Scenario.newcomer) Scenario.office_world in
  (App.full_dispatch_request (H := Sample.libraries)
     (H0 := Sample.no_environ) Sample.entropy2 look Scenario.office_world).2
  = Scenario.office_world
  /\ App.session
       (App.full_dispatch_request (H := Sample.libraries)
          (H0 := Sample.no_environ) Sample.entropy2 look arrival).2
     !! "csrf_token"
     = Some (App.VStr "a9993e364706816aba3e25717850c26c9cd0d89d")
  /\ App.session
       (App.full_dispatch_request (H := Sample.libraries)
          (H0 := Sample.no_environ) Sample.entropy2 look arrival).2
     !! "user_id"
     = Scenario.newcomer !! "user_id".
Proof.
  intros look arrival.
  destruct (get_writes_only_the_token (H := Sample.libraries)
              (H0 := Sample.no_environ) Sample.entropy2 look
              Scenario.office_world) as [_ [_ [_ [_ [_ [Hstate _]]]]]];
    [reflexivity | discriminate | reflexivity | reflexivity |].
  destruct (get_writes_only_the_token (H := Sample.libraries)
              (H0 := Sample.no_environ) Sample.entropy2 look arrival)
    as [_ [_ [_ [Hkeys [_ [_ Hindex]]]]]];
    [reflexivity | discriminate | reflexivity | reflexivity |].
  split; [apply Hstate; [by eexists | reflexivity]|].
  split.
  - destruct (Hindex Sample.jane_drop eq_refl) as [_ Htoken].
    by apply Htoken.
  - by apply Hkeys.
Defined.

(** The first request of a process on the table whose administrator's row
    holds no bcrypt hash: status 500 and nothing changed, the flag
    included.  On the empty table: the flag is set. *)
Lemma seed_runs_until_it_returns_witness :
  let answer :=
    App.full_dispatch_request (H := Sample.libraries)
      (H0 := Sample.no_environ) Sample.entropy1 Scenario.first_request
      (App.with_session (fun _ => Scenario.caller) Scenario.crowded_world) in
  answer.1 = App.Rendered 500 "500.html" [] []
  /\ App._admin_seeded answer.2 = false
  /\ App.users answer.2 = App.users Scenario.crowded_world
  /\ App.first_app answer.2 = ∅
  /\ App._admin_seeded Scenario.after_first_request = true.
Proof.
  destruct (seed_runs_until_it_returns (H := Sample.libraries)
              (H0 := Sample.no_environ) Sample.entropy1
              Scenario.first_request
              (App.with_session (fun _ => Scenario.caller)
                 Scenario.crowded_world)) as [_ Hadmitted].
  destruct (Hadmitted eq_refl) as [_ [_ Hraises]].
  destruct (seed_runs_until_it_returns (H := Sample.libraries)
              (H0 := Sample.no_environ) Sample.entropy1
              Scenario.first_request
              (App.with_session (fun _ => Scenario.caller)
                 App.initial_world)) as [_ Hadmitted0].
  destruct (Hadmitted0 eq_refl) as [_ [Hreturns _]].
  intros answer.
  destruct Hraises as [Hpage [Hflag [Husers Hrows]]];
    [vm_compute; reflexivity..|].
  split; [exact Hpage|]. split; [exact Hflag|]. split; [exact Husers|].
  split; [exact Hrows|]. apply Hreturns; vm_compute; reflexivity.
Defined.

(** The seed routine on a table with an administrator whose hash is
    overwritten and the account of bob. *)
Lemma seed_leaves_other_accounts_witness :
  NoDup (List.map User.id (App.users Scenario.expired_world))
  /\ In Scenario.bob
       (App.users
          (App.ensure_seed_admin (H := Sample.libraries)
             (H0 := Sample.no_environ) Sample.entropy1
             Scenario.expired_world).2)
  /\ App.users
       (App.ensure_seed_admin (H := Sample.libraries)
          (H0 := Sample.no_environ) Sample.entropy1
          Scenario.expired_world).2
     <> App.users Scenario.expired_world.
Proof.
  assert (NoDup (List.map User.id (App.users Scenario.expired_world)))
    as Hids.
  { apply NoDup_cons. split; [|apply NoDup_singleton].
    rewrite list_elem_of_singleton. discriminate. }
  split; [exact Hids|]. split.
  - apply (seed_leaves_other_accounts (H := Sample.libraries)
             (H0 := Sample.no_environ) Sample.entropy1 Scenario.expired_world
             Scenario.bob Hids).
    + discriminate.
    + right. left. reflexivity.
  - vm_compute. discriminate.
Defined.

Lemma after_first_request_reachable :
  Outcome.reachable (H := Sample.libraries) (H0 := Sample.no_environ)
    Scenario.after_first_request.
Proof. apply Outcome.reachable_request, Outcome.reachable_initial. Qed.

(** The users table after the first request of a process. *)
Lemma users_table_stays_consistent_witness :
  (exists u, App.users Scenario.after_first_request = [u] /\ User.id u = 1)
  /\ Outcome.users_table_ok (App.users Scenario.after_first_request).
Proof.
  split; [eexists; split; vm_compute; reflexivity|].
  apply (users_table_stays_consistent (H := Sample.libraries)
           (H0 := Sample.no_environ) Scenario.after_first_request
           after_first_request_reachable).
Defined.

(** The row that the first request stored from a first name with spaces
    around it. *)
Lemma stored_rows_trimmed_and_bounded_witness :
  ContactForm.fname Sample.john = Some " John "
  /\ (exists rec,
        App.first_app Scenario.after_first_request !! 1%N = Some rec
        /\ FirstApp.fname rec = "John"
        /\ Notions.stored_row rec).
Proof.
  split; [reflexivity|]. eexists. split; [vm_compute; reflexivity|].
  split; [reflexivity|].
  apply (stored_rows_trimmed_and_bounded (H := Sample.libraries)
           (H0 := Sample.no_environ) Scenario.after_first_request
           after_first_request_reachable 1%N).
  vm_compute. reflexivity.
Defined.


(** The first record of the office is deleted; a second delete and an
    update of it find nothing. *)
Lemma deleted_id_is_not_found_witness :
  let after := (App.delete 1 Scenario.office_world).2 in
  (1 <= App.SQLITE_MAX_INTEGER)%N
  /\ (exists rec, App.first_app Scenario.office_world !! 1%N = Some rec)
  /\ App.delete 1 after = (App.Abort 404%N, after)
  /\ App.update (H := Sample.libraries) Sample.entropy1 App.POST 1
       Sample.jane after
     = (App.Abort 404%N, after).
Proof.
  intros after.
  assert (1 <= App.SQLITE_MAX_INTEGER)%N as Hfits by (vm_compute; discriminate).
  destruct (deleted_id_is_not_found (H := Sample.libraries) Sample.entropy1
              App.POST 1 Sample.jane Scenario.office_world Hfits)
    as [_ [Hdelete Hupdate]].
  split; [exact Hfits|]. split; [eexists; vm_compute; reflexivity|].
  split; [exact Hdelete | exact Hupdate].
Defined.

(** Two surnames of one word: one contains a keyword, one is a keyword. *)
Lemma one_word_refused_iff_keyword_witness :
  Screener.reject_injection (Some "Selectman") = Wtf.Passed
  /\ existsb (Screener.keyword_matches (Str.upper (Str.strip "Alter")))
       Screener.SQL_KEYWORDS = true.
Proof.
  destruct (one_word_refused_iff_keyword "Alter" eq_refl) as [[_ Hkw] _].
  split; [reflexivity|]. apply Hkw. vm_compute. auto 10.
Defined.

(* ===================================================================== *)
(** * More on create, and on the administrator's login *)
(* ===================================================================== *)

Section CreateCoverage.
Context `{Libraries} `{Environ}.
Import Str Wtf App Outcome Notions AppFacts SeedFacts ValidatorFacts.
Import StoreFacts KeyFacts FrameFacts RowFacts Bcrypt.

Lemma chain_invalid_has_error (validators : list validator)
    (d : option string) :
  field_validate validators d = false ->
  run_validation_chain validators d <> [].
Proof. unfold field_validate. by destruct (run_validation_chain validators d). Qed.

(** X19. Create is all-or-nothing as well: when one of the three fields
    fails its validators, the submission stores no row and the index is
    rendered with the rows as they were and at least one error; when the
    three pass, the table has one more row and keeps every row it had. *)
Theorem create_all_or_nothing (e : Entropy) (method : Method)
    (form : ContactForm.t) (w : World) :
  ((field_validate ContactForm.fname_validators (ContactForm.fname form)
    = false
    \/ field_validate ContactForm.lname_validators (ContactForm.lname form)
       = false
    \/ field_validate (ContactForm.email_validators validate_email)
         (ContactForm.email form) = false) ->
   first_app (index e method form w).2 = first_app w
   /\ (index e POST form w).1
      = Return (Rendered 200 "index.html"
                  (ContactForm.errors validate_email form) (listing w))
   /\ ContactForm.errors validate_email form <> [])
  /\ (ContactForm.validate validate_email form = true ->
      size (first_app (index e POST form w).2) = S (size (first_app w))
      /\ (forall k r,
            first_app w !! k = Some r ->
            first_app (index e POST form w).2 !! k = Some r)).
Proof.
  split.
  - intros Hfail.
    assert (ContactForm.validate validate_email form = false) as Hinv.
    { unfold ContactForm.validate.
      destruct Hfail as [-> | [-> | ->]]; by rewrite ?andb_false_r. }
    assert (forall m, validate_on_submit m
              (ContactForm.validate validate_email form) = false) as Hsub.
    { intros m. unfold validate_on_submit. by rewrite Hinv, andb_false_r. }
    split.
    { rewrite index_table. by rewrite Hsub. }
    split.
    { by rewrite (index_invalid e POST form w (Hsub POST)). }
    unfold ContactForm.errors. intros Hnil.
    apply app_eq_nil in Hnil as [H1 Hnil]. apply app_eq_nil in Hnil as [H2 H3].
    destruct Hfail as [Hf | [Hf | Hf]];
      by apply chain_invalid_has_error in Hf.
  - intros Hvalid.
    rewrite (index_valid e POST form w)
      by (unfold validate_on_submit; by rewrite Hvalid).
    cbn [snd first_app]. split.
    + apply map_size_insert_None, next_sno_fresh.
    + intros k r Hk. rewrite lookup_insert_ne; [done|].
      intros <-. by rewrite next_sno_fresh in Hk.
Qed.

(** X20. After the seed routine has run with a salt as [gensalt] returns
    it, on a table whose administrator's row, if there is one, holds a
    hash that bcrypt reads, the configured administrator can log in: when
    the configured name and password pass the login form, the password
    has at most the 72 bytes that bcrypt hashes and the name has no white
    space around it, the routine returns and the login with them
    succeeds, redirects as a successful login does and leaves the id of
    the administrator's account in the session. *)
Theorem seeded_admin_can_log_in (e e' : Entropy) (args : gmap string string)
    (w : World) :
  digest_encoded ->
  well_formed_salt (gensalt e) = true ->
  admin_hash_readable (users w) ->
  LoginForm.validate
    {| LoginForm.username := Some DEFAULT_ADMIN_USERNAME;
       LoginForm.password := Some DEFAULT_ADMIN_PASSWORD |} = true ->
  (len DEFAULT_ADMIN_PASSWORD <= PASSWORD_LIMIT)%nat ->
  strip DEFAULT_ADMIN_USERNAME = DEFAULT_ADMIN_USERNAME ->
  (ensure_seed_admin e w).1 = Return tt
  /\ exists a,
       first_by_username DEFAULT_ADMIN_USERNAME
         (users (ensure_seed_admin e w).2) = Some a
       /\ login e' POST args
            {| LoginForm.username := Some DEFAULT_ADMIN_USERNAME;
               LoginForm.password := Some DEFAULT_ADMIN_PASSWORD |}
            (ensure_seed_admin e w).2
          = (Return (Redirect (login_target args)),
             with_session (fun _ => login_session (User.id a))
               (ensure_seed_admin e w).2).
Proof.
  intros Hd Hsalt Hread Hvalid Hlen Hname.
  assert (hashable DEFAULT_ADMIN_PASSWORD) as Hp.
  { split; [|done].
    destruct (LoginForm_password_length _ Hvalid) as [p [[= <-] Hbounds]].
    intros Hempty. rewrite Hempty in Hbounds. simpl in Hbounds. lia. }
  destruct (seeded_users_returns e (users w) Hsalt Hp Hread) as [l' Hrun].
  destruct (seeded_users_verify e (users w) l' Hd Hsalt Hp Hrun)
    as [a [Hf Hc]].
  rewrite ensure_seed_admin_run, Hrun. cbn [fst snd].
  split; [done|]. exists a. split; [done|]. apply login_success.
  - unfold validate_on_submit. by rewrite Hvalid.
  - cbn [LoginForm.username with_users users]. unfold data. simpl.
    by rewrite Hname.
  - done.
Qed.

End CreateCoverage.

(** A form with a digit in the first name, then the form of Jane. *)
Lemma create_all_or_nothing_witness :
  App.first_app
    (App.index (H := Sample.libraries) Sample.entropy1 App.POST
       {| ContactForm.fname := Some "John3";
          ContactForm.lname := Some "Doe";
          ContactForm.email := Some "john@example.com" |}
       Scenario.office_world).2
  = App.first_app Scenario.office_world
  /\ size (App.first_app
            (App.index (H := Sample.libraries) Sample.entropy1 App.POST
               Sample.jane Scenario.office_world).2)
     = 3%nat.
Proof.
  destruct (create_all_or_nothing (H := Sample.libraries) Sample.entropy1
              App.POST
              {| ContactForm.fname := Some "John3";
                 ContactForm.lname := Some "Doe";
                 ContactForm.email := Some "john@example.com" |}
              Scenario.office_world) as [Hfail _].
  destruct (create_all_or_nothing (H := Sample.libraries) Sample.entropy1
              App.POST Sample.jane Scenario.office_world) as [_ Hpass].
  split.
  - apply Hfail. left. vm_compute. reflexivity.
  - destruct (Hpass eq_refl) as [Hsize _]. exact Hsize.
Defined.

(** The defaults of the source, on a table whose administrator has the
    hash of an earlier password: the seed routine overwrites it and the
    administrator logs in with the configured password. *)
Lemma seeded_admin_can_log_in_witness :
  Outcome.admin_hash_readable (H := Sample.no_environ)
    (App.users Scenario.expired_world)
  /\ App.session
       (App.login (H := Sample.libraries) Sample.entropy2 App.POST ∅
          Sample.admin_login
          (App.ensure_seed_admin (H := Sample.libraries)
             (H0 := Sample.no_environ) Sample.entropy1
             Scenario.expired_world).2).2
     !! "user_id" = Some (App.VInt 1).
Proof.
  assert (Outcome.admin_hash_readable (H := Sample.no_environ)
            (App.users Scenario.expired_world)) as Hread.
  { intros u Hu. vm_compute in Hu. by injection Hu as <-. }
  split; [exact Hread|].
  destruct (seeded_admin_can_log_in (H := Sample.libraries)
              (H0 := Sample.no_environ) Sample.entropy1 Sample.entropy2 ∅
              Scenario.expired_world DigestFacts.toy_digest_encoded
              eq_refl Hread eq_refl)
    as [_ [a [Hfind Hlogin]]].
  - vm_compute. lia.
  - reflexivity.
  - change Sample.admin_login
      with {| LoginForm.username :=
                Some (App.DEFAULT_ADMIN_USERNAME (H := Sample.no_environ));
              LoginForm.password :=
                Some (App.DEFAULT_ADMIN_PASSWORD (H := Sample.no_environ)) |}.
    rewrite Hlogin. cbn [snd App.with_session App.session].
    assert (User.id a = 1) as ->.
    { vm_compute in Hfind. by injection Hfind as <-. }
    reflexivity.
Defined.
